(** * Orkflow: a shallow embedding of the task orchestration engine

    Sources embedded here:
    - internal/memory/memory.go      SharedMemory (Set, Get, WaitFor)
    - agent ContextManager           AddOutput, GetContext, GetLastOutput
    - tools registry / toolcalls     Get, ParseToolCalls, ExecuteToolCalls,
                                     FormatToolResults, HasToolCalls
    - agent Runner                   RunAgent, buildPrompt, GetAgent
    - internal/engine/state.go       State, Executor.executeSequential,
                                     Executor.executeParallel

    Go errors built with fmt.Errorf are represented by the constructors of
    [err]; each constructor keeps the arguments its format string prints. *)

From Stdlib Require Import ZArith Lia.
From stdpp Require Import base gmap strings list pretty.

Open Scope string_scope.

(** ** Errors *)

Inductive err :=
  (* "timeout waiting for key '%s' after %v" *)
  | WaitTimeout (key : string) (timeout : Z)
  (* "model not found: %s" *)
  | ModelNotFound (model : string)
  (* "agent %s: failed to get required key '%s': %w" *)
  | RequiredKeyFailed (agent key : string) (inner : err)
  (* "agent %s failed after %d attempts: %w" *)
  | AgentFailed (agent : string) (attempts : nat) (inner : err)
  (* "agent not found: %s" *)
  | AgentNotFound (id : string)
  (* "then agent not found: %s" *)
  | ThenAgentNotFound (id : string)
  (* "unknown tool: %s" *)
  | UnknownTool (name : string)
  (* an error returned by an external collaborator (backend, tool) *)
  | External (msg : string).

Inductive result (A : Type) :=
  | Ok (a : A)
  | Err (e : err).
Arguments Ok {A} a.
Arguments Err {A} e.

(** ** SharedMemory (internal/memory/memory.go)

    [data map[string]interface{}]: values written by the runner are always
    the response strings, so the store is a [gmap string string]. *)

Abbreviation store := (gmap string string).

(** [Set]: store the value and broadcast to all waiters. *)
Definition Set_ (data : store) (key value : string) : store :=
  <[key := value]> data.

(** [Get]: non-blocking read. *)
Definition Get (data : store) (key : string) : option string := data !! key.

(** A [Set] performed by another goroutine while a [WaitFor] is blocked:
    the time it takes the lock, and the key and value it writes. *)
Record publish := mkPublish { pub_at : Z; pub_key : string; pub_val : string }.

(** The [for] loop of [WaitFor], run with the mutex held.  At each
    iteration it checks the map, then the remaining budget, then blocks in
    [cond.Wait()].  Two goroutines can wake it: a [Set] from another task
    (the next element of [pending], if it takes the lock before the
    deadline) or the timer goroutine of this call, which sleeps
    [remaining] and broadcasts, i.e. wakes the loop at [deadline].  Timer
    goroutines of earlier iterations also broadcast at [deadline]. The
    result carries the store and the time at which [WaitFor] returns.
    [fuel] bounds the loop; [WaitFor] gives enough (see
    [WaitFor_terminates]). *)
Fixpoint wait_loop (fuel : nat) (data : store) (key : string)
    (timeout deadline now : Z) (pending : list publish)
    : option (result string * store * Z) :=
  match fuel with
  | O => None
  | S fuel' =>
      match data !! key with
      | Some v => Some (Ok v, data, now)
      | None =>
          let remaining := (deadline - now)%Z in
          if (remaining <=? 0)%Z then Some (Err (WaitTimeout key timeout), data, now)
          else
            match pending with
            | p :: rest =>
                if (pub_at p <? deadline)%Z
                then wait_loop fuel' (Set_ data (pub_key p) (pub_val p)) key
                       timeout deadline (Z.max now (pub_at p)) rest
                else wait_loop fuel' data key timeout deadline deadline pending
            | [] => wait_loop fuel' data key timeout deadline deadline []
            end
      end
  end.

(** [WaitFor(key, timeout)] called at time [now]: [deadline := now + timeout]. *)
Definition WaitFor (data : store) (key : string) (timeout now : Z)
    (pending : list publish) : option (result string * store * Z) :=
  wait_loop (S (S (length pending))) data key timeout (now + timeout)%Z now pending.

(** ** ContextManager (the Output History) *)

Definition newline : Ascii.ascii := Ascii.ascii_of_nat 10.
Definition nl : string := String newline EmptyString.

(** [AgentOutput]; the [Timestamp] field ([time.Now()]) is never read by
    the engine and is left out. *)
Record AgentOutput := mkOutput { AgentID : string; Response : string }.

(** [AddOutput]: [cm.History = append(cm.History, ...)]. *)
Definition AddOutput (h : list AgentOutput) (agentID response : string)
    : list AgentOutput :=
  app h [mkOutput agentID response].

(** [fmt.Sprintf("[%s]:\n%s\n\n", output.AgentID, output.Response)] *)
Definition context_block (o : AgentOutput) : string :=
  "[" +:+ AgentID o +:+ "]:" +:+ nl +:+ Response o +:+ nl +:+ nl.

Fixpoint context_blocks (h : list AgentOutput) : string :=
  match h with
  | [] => ""
  | o :: h' => context_block o +:+ context_blocks h'
  end.

Definition context_header : string :=
  "Context from previous agents:" +:+ nl +:+ nl.

(** [GetContext]: empty history gives [""]; otherwise the header written
    by [sb.WriteString("Context from previous agents:\n\n")] followed by
    one block per entry. *)
Definition GetContext (h : list AgentOutput) : string :=
  match h with
  | [] => ""
  | _ => context_header +:+ context_blocks h
  end.

(** [GetLastOutput] *)
Definition GetLastOutput (h : list AgentOutput) : string :=
  match last h with
  | None => ""
  | Some o => Response o
  end.

(** ** Execution state (internal/engine/state.go) *)

Inductive WorkflowState :=
  | StatePending | StateRunning | StateCompleted | StateFailed.

Record State := mkState {
  Status : WorkflowState;
  CurrentStep : nat;
  TotalSteps : nat;
  Error : option err
}.

Definition NewState (totalSteps : nat) : State :=
  mkState StatePending 0 totalSteps None.

Definition Start (s : State) : State :=
  mkState StateRunning (CurrentStep s) (TotalSteps s) (Error s).

Definition Complete (s : State) : State :=
  mkState StateCompleted (CurrentStep s) (TotalSteps s) (Error s).

Definition Fail (e : err) (s : State) : State :=
  mkState StateFailed (CurrentStep s) (TotalSteps s) (Some e).

Definition NextStep (s : State) : State :=
  mkState (Status s) (S (CurrentStep s)) (TotalSteps s) (Error s).

(** ** Tool registry and tool calls (tools package) *)

(** The [Tool] interface.  [Execute] returns Go's [(string, error)] pair. *)
Record Tool := mkTool {
  tool_name : string;
  tool_description : string;
  tool_execute : string -> string * option err
}.

(** The registry's map [tools map[string]Tool], listed in iteration order;
    [Register] keys it by [tool.Name()], so a name occurs once. *)
Abbreviation registry := (list Tool).

(** [Get(name)] *)
Fixpoint registry_get (reg : registry) (name : string) : option Tool :=
  match reg with
  | [] => None
  | t :: reg' => if String.eqb (tool_name t) name then Some t
                 else registry_get reg' name
  end.

Record ToolCall := mkCall { tc_name : string; tc_input : string }.

Record ToolResult := mkResult {
  tr_name : string;
  tr_output : string;
  tr_error : option err
}.

Definition is_letter (c : Ascii.ascii) : bool :=
  let n := Ascii.nat_of_ascii c in
  ((Nat.leb 65 n) && (Nat.leb n 90)) || ((Nat.leb 97 n) && (Nat.leb n 122)).

Definition is_digit (c : Ascii.ascii) : bool :=
  let n := Ascii.nat_of_ascii c in (Nat.leb 48 n) && (Nat.leb n 57).

Definition is_underscore (c : Ascii.ascii) : bool :=
  Nat.eqb (Ascii.nat_of_ascii c) 95.

(** [[a-zA-Z_]] and [[a-zA-Z0-9_]] *)
Definition is_name_start (c : Ascii.ascii) : bool :=
  is_letter c || is_underscore c.
Definition is_name_char (c : Ascii.ascii) : bool :=
  is_letter c || is_digit c || is_underscore c.

(** ** [strings.TrimSpace] (Go standard library)

    A Go string is a sequence of bytes; the functions below decode runes
    from UTF-8 as [unicode/utf8] does, and test them with
    [unicode.IsSpace]. *)

Section TrimSpace_def.
Local Open Scope Z_scope.

(** [asciiSpace]: '\t', '\n', '\v', '\f', '\r', ' '. *)
Definition is_space (c : Ascii.ascii) : bool :=
  let n := Ascii.nat_of_ascii c in ((Nat.leb 9 n) && (Nat.leb n 13)) || Nat.eqb n 32.

Definition byte_of (c : Ascii.ascii) : Z := Z.of_nat (Ascii.nat_of_ascii c).

Definition RuneError : Z := 0xFFFD.
Definition RuneSelf : Z := 0x80.
Definition UTFMax : nat := 4.

(** [s[i]]; every use below indexes within bounds. *)
Definition byte_at (s : string) (i : nat) : Z :=
  match String.get i s with Some c => byte_of c | None => 0 end.

(** The tables [first] and [acceptRanges] of [unicode/utf8], for a byte
    that is not ASCII: the length of the sequence it starts and the range
    its second byte must lie in; [None] for a byte that starts none. *)
Definition first_info (b : Z) : option (nat * Z * Z) :=
  if b <=? 0xC1 then None
  else if b <=? 0xDF then Some (2%nat, 0x80, 0xBF)
  else if b =? 0xE0 then Some (3%nat, 0xA0, 0xBF)
  else if b <=? 0xEC then Some (3%nat, 0x80, 0xBF)
  else if b =? 0xED then Some (3%nat, 0x80, 0x9F)
  else if b <=? 0xEF then Some (3%nat, 0x80, 0xBF)
  else if b =? 0xF0 then Some (4%nat, 0x90, 0xBF)
  else if b <=? 0xF3 then Some (4%nat, 0x80, 0xBF)
  else if b =? 0xF4 then Some (4%nat, 0x80, 0x8F)
  else None.

(** [utf8.DecodeRuneInString] *)
Definition DecodeRuneInString (s : string) : Z * nat :=
  let n := String.length s in
  if Nat.ltb n 1 then (RuneError, 0%nat) else
  let s0 := byte_at s 0 in
  if s0 <? RuneSelf then (s0, 1%nat) else
  match first_info s0 with
  | None => (RuneError, 1%nat)
  | Some (sz, lo, hi) =>
      if Nat.ltb n sz then (RuneError, 1%nat) else
      let s1 := byte_at s 1 in
      if (s1 <? lo) || (hi <? s1) then (RuneError, 1%nat) else
      if Nat.leb sz 2 then
        (Z.lor (Z.shiftl (Z.land s0 0x1F) 6) (Z.land s1 0x3F), 2%nat) else
      let s2 := byte_at s 2 in
      if (s2 <? 0x80) || (0xBF <? s2) then (RuneError, 1%nat) else
      if Nat.leb sz 3 then
        (Z.lor (Z.lor (Z.shiftl (Z.land s0 0x0F) 12) (Z.shiftl (Z.land s1 0x3F) 6))
               (Z.land s2 0x3F), 3%nat) else
      let s3 := byte_at s 3 in
      if (s3 <? 0x80) || (0xBF <? s3) then (RuneError, 1%nat) else
      (Z.lor (Z.lor (Z.lor (Z.shiftl (Z.land s0 0x07) 18) (Z.shiftl (Z.land s1 0x3F) 12))
                    (Z.shiftl (Z.land s2 0x3F) 6))
             (Z.land s3 0x3F), 4%nat)
  end.

(** [utf8.RuneStart] *)
Definition RuneStart (b : Z) : bool := negb (Z.land b 0xC0 =? 0x80).

(** [for start--; start >= lim; start-- { if RuneStart(s[start]) { break } }],
    entered after the decrement; it runs at most [UTFMax] rounds. *)
Fixpoint scan_rune_start (s : string) (lim start : Z) (fuel : nat) : Z :=
  match fuel with
  | O => start
  | S fuel' =>
      if (lim <=? start) && negb (RuneStart (byte_at s (Z.to_nat start)))
      then scan_rune_start s lim (start - 1) fuel'
      else start
  end.

(** [utf8.DecodeLastRuneInString] *)
Definition DecodeLastRuneInString (s : string) : Z * nat :=
  let end_ := Z.of_nat (String.length s) in
  if end_ =? 0 then (RuneError, 0%nat) else
  let start := end_ - 1 in
  let r := byte_at s (Z.to_nat start) in
  if r <? RuneSelf then (r, 1%nat) else
  let lim := Z.max 0 (end_ - Z.of_nat UTFMax) in
  let start := Z.max 0 (scan_rune_start s lim (start - 1) UTFMax) in
  let '(r, size) :=
    DecodeRuneInString (String.substring (Z.to_nat start) (Z.to_nat (end_ - start)) s) in
  if start + Z.of_nat size =? end_ then (r, size) else (RuneError, 1%nat).

(** [unicode.IsSpace]: the Latin-1 cases, then the [White_Space] table. *)
Definition IsSpace (r : Z) : bool :=
  if r <=? 0xFF then
    ((0x09 <=? r) && (r <=? 0x0D)) || (r =? 0x20) || (r =? 0x85) || (r =? 0xA0)
  else
    (r =? 0x1680) || ((0x2000 <=? r) && (r <=? 0x200A)) || (r =? 0x2028) ||
    (r =? 0x2029) || (r =? 0x202F) || (r =? 0x205F) || (r =? 0x3000).

(** [indexFunc]: [for i, r := range s { if f(r) == truth { return i } }];
    each round moves past at least one byte. *)
Fixpoint indexFunc_loop (s : string) (f : Z -> bool) (truth : bool) (i fuel : nat) : Z :=
  match fuel with
  | O => -1
  | S fuel' =>
      if Nat.ltb i (String.length s) then
        let '(r, w) := DecodeRuneInString (String.substring i (String.length s - i) s) in
        if Bool.eqb (f r) truth then Z.of_nat i
        else indexFunc_loop s f truth (i + w) fuel'
      else -1
  end.

Definition indexFunc (s : string) (f : Z -> bool) (truth : bool) : Z :=
  indexFunc_loop s f truth 0 (String.length s).

(** [lastIndexFunc]: [for i := len(s); i > 0; { r, size :=
    utf8.DecodeLastRuneInString(s[0:i]); i -= size; if f(r) == truth
    { return i } }]. *)
Fixpoint lastIndexFunc_loop (s : string) (f : Z -> bool) (truth : bool) (i fuel : nat) : Z :=
  match fuel with
  | O => -1
  | S fuel' =>
      if Nat.ltb 0 i then
        let '(r, size) := DecodeLastRuneInString (String.substring 0 i s) in
        let i' := (i - size)%nat in
        if Bool.eqb (f r) truth then Z.of_nat i'
        else lastIndexFunc_loop s f truth i' fuel'
      else -1
  end.

Definition lastIndexFunc (s : string) (f : Z -> bool) (truth : bool) : Z :=
  lastIndexFunc_loop s f truth (String.length s) (String.length s).

(** [strings.TrimLeftFunc] *)
Definition TrimLeftFunc (s : string) (f : Z -> bool) : string :=
  let i := indexFunc s f false in
  if i =? -1 then EmptyString
  else String.substring (Z.to_nat i) (String.length s - Z.to_nat i) s.

(** [strings.TrimRightFunc] *)
Definition TrimRightFunc (s : string) (f : Z -> bool) : string :=
  let i := lastIndexFunc s f false in
  let i :=
    if (0 <=? i) && (RuneSelf <=? byte_at s (Z.to_nat i)) then
      i + Z.of_nat (snd (DecodeRuneInString
                           (String.substring (Z.to_nat i) (String.length s - Z.to_nat i) s)))
    else i + 1 in
  String.substring 0 (Z.to_nat i) s.

(** [strings.TrimFunc] *)
Definition TrimFunc (s : string) (f : Z -> bool) : string :=
  TrimRightFunc (TrimLeftFunc s f) f.

(** The first loop of [TrimSpace]: skip ASCII white space from the front;
    at a byte that is not ASCII, [return TrimFunc(s[start:],
    unicode.IsSpace)] ([inl]); otherwise [inr s[start:]]. *)
Fixpoint TrimSpace_start (s : string) : string + string :=
  match s with
  | EmptyString => inr EmptyString
  | String c s' =>
      if RuneSelf <=? byte_of c then inl (TrimFunc s IsSpace)
      else if is_space c then TrimSpace_start s'
      else inr s
  end.

(** The second loop, on [t = s[start:]]: [stop] counts down from
    [len(t)]; at a byte that is not ASCII, [return TrimRightFunc(t[0:stop],
    unicode.IsSpace)]. *)
Fixpoint TrimSpace_stop (t : string) (stop : nat) : string :=
  match stop with
  | O => EmptyString
  | S k =>
      match String.get k t with
      | Some c =>
          if RuneSelf <=? byte_of c then TrimRightFunc (String.substring 0 stop t) IsSpace
          else if is_space c then TrimSpace_stop t k
          else String.substring 0 stop t
      | None => EmptyString
      end
  end.

(** [strings.TrimSpace] *)
Definition TrimSpace (s : string) : string :=
  match TrimSpace_start s with
  | inl r => r
  | inr t => TrimSpace_stop t (String.length t)
  end.

End TrimSpace_def.

Fixpoint drop (n : nat) (s : string) : string :=
  match n, s with
  | O, _ => s
  | S n', String _ s' => drop n' s'
  | S _, EmptyString => EmptyString
  end.

Definition fence : string := "```".
Definition tool_marker : string := "```tool:".

(** Greedy [[a-zA-Z0-9_]*]. *)
Fixpoint take_name (s : string) : string * string :=
  match s with
  | String c s' =>
      if is_name_char c then let '(n, r) := take_name s' in (String c n, r)
      else (EmptyString, s)
  | EmptyString => (EmptyString, EmptyString)
  end.

(** Lazy [(.*?)```] under [(?s)]: the shortest prefix followed by a fence,
    and what follows that fence. *)
Fixpoint take_until_fence (s : string) : option (string * string) :=
  if String.prefix fence s then Some (EmptyString, drop 3 s)
  else match s with
       | EmptyString => None
       | String c s' =>
           match take_until_fence s' with
           | Some (b, r) => Some (String c b, r)
           | None => None
           end
       end.

(** A match of the pattern [```tool:NAME\n(.*?)```], NAME being [[a-zA-Z_][a-zA-Z0-9_]] followed by a star, starting at the
    first byte of [s]: the two submatches and the text after the match.
    The name class excludes '\n', so the greedy name is the only one the
    following '\n' accepts. *)
Definition match_at (s : string) : option (string * string * string) :=
  if String.prefix tool_marker s then
    match drop 8 s with
    | String c _ as after =>
        if is_name_start c then
          let '(name, r) := take_name after in
          match r with
          | String c' body =>
              if Ascii.eqb c' newline then
                match take_until_fence body with
                | Some (inp, rest) => Some (name, inp, rest)
                | None => None
                end
              else None
          | EmptyString => None
          end
        else None
    | EmptyString => None
    end
  else None.

(** [re.FindAllStringSubmatch(response, -1)]: leftmost matches, each search
    resuming after the previous match. *)
Fixpoint find_all (fuel : nat) (s : string) : list (string * string) :=
  match fuel with
  | O => []
  | S fuel' =>
      match s with
      | EmptyString => []
      | String _ s' =>
          match match_at s with
          | Some (n, i, rest) => (n, i) :: find_all fuel' rest
          | None => find_all fuel' s'
          end
      end
  end.

(** [ParseToolCalls] *)
Definition ParseToolCalls (response : string) : list ToolCall :=
  map (fun '(n, i) => mkCall (TrimSpace n) (TrimSpace i))
      (find_all (S (String.length response)) response).

(** [HasToolCalls]: [strings.Contains(response, "```tool:")] *)
Fixpoint Contains (s sub : string) : bool :=
  String.prefix sub s ||
  match s with
  | EmptyString => false
  | String _ s' => Contains s' sub
  end.

Definition HasToolCalls (response : string) : bool :=
  Contains response tool_marker.

(** One iteration of [ExecuteToolCalls]. *)
Definition execute_tool_call (reg : registry) (call : ToolCall) : ToolResult :=
  match registry_get reg (tc_name call) with
  | None => mkResult (tc_name call) "" (Some (UnknownTool (tc_name call)))
  | Some t =>
      let '(output, e) := tool_execute t (tc_input call) in
      mkResult (tc_name call) output e
  end.

(** [ExecuteToolCalls]: the calls are run one after the other, in order. *)
Definition ExecuteToolCalls (reg : registry) (calls : list ToolCall)
    : list ToolResult :=
  map (execute_tool_call reg) calls.

(** [Duration.String] of a whole, non-negative number of seconds:
    "45s", "5m0s", "1h0m0s". *)
Definition duration_abs_text (secs : Z) : string :=
  let h := (secs / 3600)%Z in
  let m := ((secs mod 3600) / 60)%Z in
  let s := (secs mod 60)%Z in
  if (h >? 0)%Z then pretty h +:+ "h" +:+ pretty m +:+ "m" +:+ pretty s +:+ "s"
  else if (m >? 0)%Z then pretty m +:+ "m" +:+ pretty s +:+ "s"
  else pretty s +:+ "s".

(** [%v] of a [time.Duration] holding a whole number of seconds, as
    [Duration.String] prints it: a negative duration is its magnitude
    after a "-", as in "-5s". *)
Definition duration_text (secs : Z) : string :=
  if (secs <? 0)%Z then "-" +:+ duration_abs_text (- secs) else duration_abs_text secs.

(** [err.Error()]: the text each [fmt.Errorf] call builds. *)
Fixpoint err_text (e : err) : string :=
  match e with
  | WaitTimeout key timeout =>
      "timeout waiting for key '" +:+ key +:+ "' after " +:+ duration_text timeout
  | ModelNotFound m => "model not found: " +:+ m
  | RequiredKeyFailed a k inner =>
      "agent " +:+ a +:+ ": failed to get required key '" +:+ k +:+ "': "
      +:+ err_text inner
  | AgentFailed a n inner =>
      "agent " +:+ a +:+ " failed after " +:+ pretty (N.of_nat n)
      +:+ " attempts: " +:+ err_text inner
  | AgentNotFound id => "agent not found: " +:+ id
  | ThenAgentNotFound id => "then agent not found: " +:+ id
  | UnknownTool n => "unknown tool: " +:+ n
  | External msg => msg
  end.

(** One iteration of [FormatToolResults]. *)
Definition format_tool_result (r : ToolResult) : string :=
  nl +:+ "[" +:+ tr_name r +:+ "]:" +:+ nl +:+
  match tr_error r with
  | Some e => "ERROR: " +:+ err_text e +:+ nl
  | None => tr_output r +:+ nl
  end.

Fixpoint format_tool_results (rs : list ToolResult) : string :=
  match rs with
  | [] => ""
  | r :: rs' => format_tool_result r +:+ format_tool_results rs'
  end.

(** [FormatToolResults] *)
Definition FormatToolResults (rs : list ToolResult) : string :=
  match rs with
  | [] => ""
  | _ => nl +:+ nl +:+ "=== Tool Results ===" +:+ nl +:+ format_tool_results rs
  end.

(** [GetByNames]: every name must be registered, else an error. *)
Fixpoint GetByNames (reg : registry) (names : list string) : option (list Tool) :=
  match names with
  | [] => Some []
  | n :: ns =>
      match registry_get reg n, GetByNames reg ns with
      | Some t, Some ts => Some (t :: ts)
      | _, _ => None
      end
  end.

(** [GetByPrefix]: names strictly longer than the prefix that start with it. *)
Definition GetByPrefix (reg : registry) (prefix : string) : list Tool :=
  filter (fun t => Nat.ltb (String.length prefix) (String.length (tool_name t))
                   && String.prefix prefix (tool_name t)) reg.

(** [FormatToolsForPrompt] *)
Definition FormatToolsForPrompt (ts : list Tool) : string :=
  match ts with
  | [] => ""
  | _ =>
      "You have access to the following tools:" +:+ nl +:+ nl +:+
      foldr (fun t acc => "- **" +:+ tool_name t +:+ "**: " +:+
                          tool_description t +:+ nl +:+ acc) "" ts +:+
      nl +:+ "To use a tool, write your response in this format:" +:+ nl +:+
      "```tool:<tool_name>" +:+ nl +:+ "<input for the tool>" +:+ nl +:+ "```" +:+ nl +:+
      nl +:+ "The tool output will be provided to you for further processing." +:+ nl
  end.

(** [MCPTool.Name]: [fmt.Sprintf("%s.%s", t.ServerName, t.ToolDef.Name)]. *)
Definition MCPTool_Name (serverName toolName : string) : string :=
  serverName +:+ "." +:+ toolName.

(** ** Agents and the runner (agent.Runner) *)

(** [types.Agent] *)
Record Agent := mkAgent {
  ID : string;
  Model : string;
  Role : string;
  Goal : string;
  Tools : list string;
  Toolsets : list string;
  Instruction : string;
  SubAgents : list string;
  Outputs : list string;
  Requires : list string
}.

Definition GetPrompt (a : Agent) : string :=
  if String.eqb (Instruction a) "" then Goal a else Instruction a.

Definition IsSupervisor (a : Agent) : bool := negb (bool_decide (SubAgents a = [])).

(** The effects the runner has on the outside world, in the order they
    happen: a [client.Generate(prompt)] call on the client of a model, a
    [time.Sleep], and the execution of a registered tool. *)
Inductive event :=
  | EvGenerate (model prompt : string)
  | EvSleep (secs : Z)
  | EvTool (name input : string).

(** The [Runner] with the state it reads and writes.  [r_clients] are the
    keys of [Clients]; [r_backend m n p] is the answer of the client of
    model [m] to the prompt [p] when it is the [n]-th [Generate] call of the
    run (backends are external and may fail or answer differently per
    call).  [r_shared] is the [SharedMemory] pointer ([None] is nil);
    [r_registry] the global tool registry; [r_now] the clock in seconds;
    [r_log] the events so far.  Logger and MessageCallback only print or
    forward and are left out. *)
Record Runner := mkRunner {
  r_agents : list Agent;
  r_clients : list string;
  r_history : list AgentOutput;
  r_session : string;
  r_shared : option store;
  r_registry : registry;
  r_backend : string -> nat -> string -> result string;
  r_now : Z;
  r_log : list event
}.

Definition set_history (r : Runner) (h : list AgentOutput) : Runner :=
  mkRunner (r_agents r) (r_clients r) h (r_session r) (r_shared r)
    (r_registry r) (r_backend r) (r_now r) (r_log r).

Definition set_shared (r : Runner) (sm : option store) : Runner :=
  mkRunner (r_agents r) (r_clients r) (r_history r) (r_session r) sm
    (r_registry r) (r_backend r) (r_now r) (r_log r).

Definition set_clock (r : Runner) (now : Z) (log : list event) : Runner :=
  mkRunner (r_agents r) (r_clients r) (r_history r) (r_session r) (r_shared r)
    (r_registry r) (r_backend r) now log.

Definition is_generate (ev : event) : bool :=
  match ev with EvGenerate _ _ => true | _ => false end.

(** [client.Generate(prompt)] *)
Definition generate (model prompt : string) (r : Runner) : result string * Runner :=
  let n := length (filter is_generate (r_log r)) in
  (r_backend r model n prompt,
   set_clock r (r_now r) (app (r_log r) [EvGenerate model prompt])).

(** [time.Sleep(time.Second * time.Duration(secs))] *)
Definition sleep (secs : Z) (r : Runner) : Runner :=
  set_clock r (r_now r + secs)%Z (app (r_log r) [EvSleep secs]).

(** [buildPrompt] *)
Definition buildPrompt (a : Agent) (r : Runner) : string :=
  let p0 := GetPrompt a in
  let p1 := if String.eqb (r_session r) "" then p0
            else r_session r +:+ nl +:+ nl +:+ p0 in
  let context := GetContext (r_history r) in
  let p2 := if String.eqb context "" then p1 else p1 +:+ nl +:+ nl +:+ context in
  let listed := match Tools a with
                | [] => []
                | names => match GetByNames (r_registry r) names with
                           | Some ts => ts
                           | None => []
                           end
                end in
  let fromSets := flat_map (fun ts => GetByPrefix (r_registry r) (ts +:+ "."))
                           (Toolsets a) in
  match app listed fromSets with
  | [] => p2
  | allTools => p2 +:+ nl +:+ nl +:+ FormatToolsForPrompt allTools
  end.

Definition maxRetries : nat := 3.

(** [5*time.Minute], in seconds. *)
Definition requiredKeyTimeout : Z := 300.

(** The [for _, key := range agentDef.Requires] loop of [RunAgent], with
    the [SharedMemory] store [data].  The runner is modelled one task at a
    time, so no other task publishes while this one waits ([pending] is
    empty).  [WaitFor] always has enough fuel ([WaitFor_terminates]); its
    [None] case is unreachable. *)
Fixpoint await_keys (a : Agent) (data : store) (keys : list string) (r : Runner)
    : result unit * Runner :=
  match keys with
  | [] => (Ok tt, r)
  | key :: keys' =>
      match WaitFor data key requiredKeyTimeout (r_now r) [] with
      | Some (Ok v, _, t) =>
          let r1 := set_clock r t (r_log r) in
          let r2 := set_history r1
                      (AddOutput (r_history r1) ("shared:" +:+ key) v) in
          await_keys a data keys' r2
      | Some (Err e, _, t) =>
          (Err (RequiredKeyFailed (ID a) key e), set_clock r t (r_log r))
      | None =>
          (Err (RequiredKeyFailed (ID a) key (WaitTimeout key requiredKeyTimeout)), r)
      end
  end.

(** [if r.SharedMemory != nil && len(agentDef.Requires) > 0 { ... }] *)
Definition await_required (a : Agent) (r : Runner) : result unit * Runner :=
  match r_shared r, Requires a with
  | Some data, _ :: _ => await_keys a data (Requires a) r
  | _, _ => (Ok tt, r)
  end.

(** [for attempt := 1; attempt <= maxRetries; attempt++ { ... }]: [k] is
    the number of iterations left, [last] the current [(response, err)]
    pair, initially [("", nil)]. *)
Fixpoint gen_loop (k attempt : nat) (last : result string) (model prompt : string)
    (r : Runner) : result string * Runner :=
  match k with
  | O => (last, r)
  | S k' =>
      match generate model prompt r with
      | (Ok response, r1) => (Ok response, r1)
      | (Err e, r1) =>
          let r2 := if Nat.ltb attempt maxRetries then sleep (Z.of_nat attempt) r1
                    else r1 in
          gen_loop k' (S attempt) (Err e) model prompt r2
      end
  end.

Definition retry_generate (model prompt : string) (r : Runner) : result string * Runner :=
  gen_loop maxRetries 1 (Ok "") model prompt r.

(** The registered tools that [ExecuteToolCalls] runs, recorded in order. *)
Definition tool_events (reg : registry) (calls : list ToolCall) : list event :=
  flat_map (fun c => match registry_get reg (tc_name c) with
                     | Some _ => [EvTool (tc_name c) (tc_input c)]
                     | None => []
                     end) calls.

Definition followup_prompt (prompt response toolOutput : string) : string :=
  prompt +:+ nl +:+ nl +:+ "Previous response:" +:+ nl +:+ response +:+ toolOutput +:+
  nl +:+ nl +:+ "Now provide your final response incorporating the tool results:".

(** [if len(agentDef.Tools) > 0 && tools.HasToolCalls(response) { ... }] *)
Definition tool_round_trip (a : Agent) (prompt response : string) (r : Runner)
    : string * Runner :=
  match Tools a with
  | [] => (response, r)
  | _ :: _ =>
      if HasToolCalls response then
        match ParseToolCalls response with
        | [] => (response, r)
        | toolCalls =>
            let results := ExecuteToolCalls (r_registry r) toolCalls in
            let r1 := set_clock r (r_now r)
                        (app (r_log r) (tool_events (r_registry r) toolCalls)) in
            let toolOutput := FormatToolResults results in
            if String.eqb toolOutput "" then (response, r1)
            else
              match generate (Model a) (followup_prompt prompt response toolOutput) r1 with
              | (Ok followupResponse, r2) => (followupResponse, r2)
              | (Err _, r2) => (response, r2)
              end
        end
      else (response, r)
  end.

(** [for _, key := range agentDef.Outputs { r.SharedMemory.Set(key, response) }] *)
Definition publish_outputs (a : Agent) (response : string) (r : Runner) : Runner :=
  match r_shared r, Outputs a with
  | Some data, _ :: _ =>
      set_shared r (Some (foldl (fun d key => Set_ d key response) data (Outputs a)))
  | _, _ => r
  end.

(** [RunAgent] *)
Definition RunAgent (a : Agent) (r : Runner) : result string * Runner :=
  if negb (existsb (String.eqb (Model a)) (r_clients r))
  then (Err (ModelNotFound (Model a)), r)
  else
    match await_required a r with
    | (Err e, r1) => (Err e, r1)
    | (Ok _, r1) =>
        let prompt := buildPrompt a r1 in
        match retry_generate (Model a) prompt r1 with
        | (Err e, r2) => (Err (AgentFailed (ID a) maxRetries e), r2)
        | (Ok response, r2) =>
            let '(response', r3) := tool_round_trip a prompt response r2 in
            let r4 := set_history r3 (AddOutput (r_history r3) (ID a) response') in
            (Ok response', publish_outputs a response' r4)
        end
    end.

(** [GetAgent] *)
Definition GetAgent (r : Runner) (id : string) : option Agent :=
  find (fun a => String.eqb (ID a) id) (r_agents r).

(** [GetFinalOutput] *)
Definition GetFinalOutput (r : Runner) : string := GetLastOutput (r_history r).

(** ** Executor (internal/engine/state.go) *)

(** [types.Workflow]: [Steps] are the [step.Agent] ids, [Then] the id of
    [Then.Agent] if [Then != nil]. *)
Record Workflow := mkWorkflow {
  wf_type : string;
  wf_steps : list string;
  wf_branches : list string;
  wf_then : option string
}.

(** Go's [(string, error)] results of the executor. *)
Abbreviation go_result := (string * option err)%type.

(** The [for _, step := range e.Config.Workflow.Steps] loop and what follows. *)
Fixpoint seq_steps (steps : list string) (st : State) (r : Runner)
    : go_result * State * Runner :=
  match steps with
  | [] => ((GetFinalOutput r, None), Complete st, r)
  | id :: steps' =>
      match GetAgent r id with
      | None => (("", Some (AgentNotFound id)), Fail (AgentNotFound id) st, r)
      | Some a =>
          match RunAgent a r with
          | (Err e, r1) => (("", Some e), Fail e st, r1)
          | (Ok _, r1) => seq_steps steps' (NextStep st) r1
          end
      end
  end.

(** [executeSequential] *)
Definition executeSequential (wf : Workflow) (st : State) (r : Runner)
    : go_result * State * Runner :=
  seq_steps (wf_steps wf) (Start st) r.

(** The branch goroutines of [executeParallel].  [order] is the order in
    which the goroutines run; each one resolves and runs its task, then
    takes [mu] and records its error (if [firstErr == nil]) or its
    response. *)
Fixpoint run_branches (order : list string) (firstErr : option err)
    (results : gmap string string) (r : Runner)
    : option err * gmap string string * Runner :=
  match order with
  | [] => (firstErr, results, r)
  | id :: order' =>
      match GetAgent r id with
      | None =>
          let firstErr' := match firstErr with
                           | None => Some (AgentNotFound id)
                           | Some _ => firstErr
                           end in
          run_branches order' firstErr' results r
      | Some a =>
          match RunAgent a r with
          | (Err e, r1) =>
              let firstErr' := match firstErr with
                               | None => Some e
                               | Some _ => firstErr
                               end in
              run_branches order' firstErr' results r1
          | (Ok response, r1) =>
              run_branches order' firstErr (<[id := response]> results) r1
          end
      end
  end.

(** [executeParallel], for the goroutine schedule [order] (a permutation
    of [wf_branches wf]). *)
Definition executeParallel (wf : Workflow) (order : list string) (st : State)
    (r : Runner) : go_result * State * Runner :=
  let st0 := Start st in
  match run_branches order None ∅ r with
  | (Some e, _, r1) => (("", Some e), Fail e st0, r1)
  | (None, _, r1) =>
      match wf_then wf with
      | None => ((GetFinalOutput r1, None), Complete st0, r1)
      | Some thenId =>
          match GetAgent r1 thenId with
          | None => (("", Some (ThenAgentNotFound thenId)),
                     Fail (ThenAgentNotFound thenId) st0, r1)
          | Some ta =>
              match RunAgent ta r1 with
              | (Err e, r2) => (("", Some e), Fail e st0, r2)
              | (Ok _, r2) => ((GetFinalOutput r2, None), Complete st0, r2)
              end
          end
      end
  end.

(** ** More of SharedMemory (internal/memory/memory.go) *)

(** [Keys]: the keys of the map, listed in its iteration order (Go's order
    is unspecified; what is proved below does not depend on it). *)
Definition Keys (data : store) : list string := (map_to_list data).*1.

(** [Clear]: [sm.data = make(map[string]interface{})]. *)
Definition Clear (data : store) : store := ∅.

(** [GetString]: the runner stores only strings, so a present value takes
    the [val.(string)] branch. *)
Definition GetString (data : store) (key : string) : string :=
  match Get data key with
  | None => ""
  | Some str => str
  end.

(** ** Sessions (internal/memory/memory.go) *)

(** [Message]; the [Timestamp] is never read by [GetHistory]. *)
Record Message := mkMessage { msg_agent : string; msg_role : string; msg_content : string }.

(** [Session]; times are seconds on one clock. *)
Record Session := mkSession {
  sess_id : string;
  sess_workflow : string;
  sess_created : Z;
  sess_updated : Z;
  sess_messages : list Message
}.

(** [AddMessage], called at time [now]. *)
Definition AddMessage (s : Session) (agentID role content : string) (now : Z) : Session :=
  mkSession (sess_id s) (sess_workflow s) (sess_created s) now
    (app (sess_messages s) [mkMessage agentID role content]).

(** [fmt.Sprintf("[%s] %s:\n%s\n\n", msg.AgentID, msg.Role, msg.Content)] *)
Definition message_block (m : Message) : string :=
  "[" +:+ msg_agent m +:+ "] " +:+ msg_role m +:+ ":" +:+ nl +:+ msg_content m +:+ nl +:+ nl.

Definition history_header : string :=
  "=== Previous Session Context ===" +:+ nl +:+ nl.

(** [GetHistory]: [result += ...] for each message, after the header. *)
Definition GetHistory (s : Session) : string :=
  match sess_messages s with
  | [] => ""
  | ms => foldl (fun result m => result +:+ message_block m) history_header ms
  end.

Definition MaxSessions : nat := 50.

(** The loop of [CleanupOldSessions] over the sessions [ListSessions]
    returned (newest first), [i] being the index of the first one, with
    [cutoff = time.Now().AddDate(0, 0, -ExpiryDays)]: the ids whose files
    it removes, in order. *)
Fixpoint cleanup_from (i : nat) (sessions : list Session) (cutoff : Z) : list string :=
  match sessions with
  | [] => []
  | s :: sessions' =>
      let shouldDelete := (sess_updated s <? cutoff)%Z || Nat.leb MaxSessions i in
      app (if shouldDelete then [sess_id s] else []) (cleanup_from (S i) sessions' cutoff)
  end.

(** [CleanupOldSessions], once [ListSessions] succeeded. *)
Definition CleanupOldSessions (sessions : list Session) (cutoff : Z) : list string :=
  cleanup_from 0 sessions cutoff.

(** [Runner.SetSessionHistory] *)
Definition SetSessionHistory (r : Runner) (history : string) : Runner :=
  mkRunner (r_agents r) (r_clients r) (r_history r) history (r_shared r)
    (r_registry r) (r_backend r) (r_now r) (r_log r).

(** ** More of the tool registry (tools package) *)

(** [Register]: [globalRegistry.tools[tool.Name()] = tool]; the entry of
    the same name, if any, is replaced. *)
Definition Register (reg : registry) (t : Tool) : registry :=
  t :: filter (fun t' => negb (String.eqb (tool_name t') (tool_name t))) reg.

(** An MCP server's tool definition: [mcp.Tool]'s [Name] and [Description]. *)
Record MCPToolDef := mkMCPToolDef { mcp_name : string; mcp_description : string }.

(** [MCPTool] as a [Tool]; [call server tool input] is [Client.CallTool]. *)
Definition MCPTool (call : string -> string -> string -> string * option err)
    (serverName : string) (d : MCPToolDef) : Tool :=
  mkTool (MCPTool_Name serverName (mcp_name d)) (mcp_description d)
    (fun input => call serverName (mcp_name d) input).

(** [RegisterMCPTools]; [defs] is the answer of [client.GetTools(serverName)]. *)
Definition RegisterMCPTools (call : string -> string -> string -> string * option err)
    (reg : registry) (serverName : string) (defs : result (list MCPToolDef))
    : result unit * registry :=
  match defs with
  | Err e => (Err e, reg)
  | Ok ds => (Ok tt, foldl (fun reg d => Register reg (MCPTool call serverName d)) reg ds)
  end.

(** ** More of the executor (internal/engine/state.go) *)

(** [NewExecutor]'s [totalSteps]; [None] is a nil [Config.Workflow]. *)
Definition totalSteps (wf : option Workflow) : nat :=
  match wf with
  | None => 0
  | Some w =>
      length (wf_steps w) + length (wf_branches w) +
      match wf_then w with Some _ => 1 | None => 0 end
  end.

(** [executeSupervisor]; the errors built by [fmt.Errorf] with no wrapped
    error are kept as their text. *)
Definition executeSupervisor (st : State) (r : Runner) : go_result * State * Runner :=
  let st0 := Start st in
  let rootAgent := match find IsSupervisor (r_agents r) with
                   | Some a => Some a
                   | None => head (r_agents r)
                   end in
  match rootAgent with
  | None =>
      let e := External "no root agent found" in (("", Some e), Fail e st0, r)
  | Some a =>
      match RunAgent a r with
      | (Err e, r1) => (("", Some e), Fail e st0, r1)
      | (Ok response, r1) => ((response, None), Complete st0, r1)
      end
  end.

(** [Execute]; [order] is the goroutine schedule of a parallel workflow. *)
Definition Execute (wf : option Workflow) (order : list string) (st : State) (r : Runner)
    : go_result * State * Runner :=
  match wf with
  | None => executeSupervisor st r
  | Some w =>
      if String.eqb (wf_type w) "sequential" then executeSequential w st r
      else if String.eqb (wf_type w) "parallel" then executeParallel w order st r
      else let e := External ("unknown workflow type: " +:+ wf_type w) in
           (("", Some e), st, r)
  end.

(** [AgentStat]; [Go int]s as [Z], times in seconds on one clock. *)
Record AgentStat := mkAgentStat {
  stat_agent : string;
  stat_role : string;
  stat_model : string;
  stat_start : Z;
  stat_duration : Z;
  stat_input : Z;
  stat_output : Z;
  stat_completed : bool
}.

(** [ExecutionStats]; [TotalTokens.Input] and [TotalTokens.Output]. *)
Record ExecutionStats := mkStats {
  stats_start : Z;
  stats_agents : gmap string AgentStat;
  total_input : Z;
  total_output : Z
}.

(** Go's 64-bit [int] addition. *)
Definition add64 (a b : Z) : Z := ((a + b + 2^63) mod 2^64 - 2^63)%Z.

(** [NewExecutionStats], at time [now]. *)
Definition NewExecutionStats (now : Z) : ExecutionStats := mkStats now ∅ 0 0.

(** [StartAgent], at time [now]. *)
Definition StartAgent (s : ExecutionStats) (agentID role model : string) (now : Z)
    : ExecutionStats :=
  mkStats (stats_start s)
    (<[agentID := mkAgentStat agentID role model now 0 0 0 false]> (stats_agents s))
    (total_input s) (total_output s).

(** [CompleteAgent], at time [now]: the [*AgentStat] is updated in place. *)
Definition CompleteAgent (s : ExecutionStats) (agentID : string) (inputTokens outputTokens : Z)
    (now : Z) : ExecutionStats :=
  match stats_agents s !! agentID with
  | None => s
  | Some stat =>
      let stat' := mkAgentStat (stat_agent stat) (stat_role stat) (stat_model stat)
                     (stat_start stat) (now - stat_start stat)%Z inputTokens outputTokens true in
      mkStats (stats_start s) (<[agentID := stat']> (stats_agents s))
        (add64 (total_input s) inputTokens) (add64 (total_output s) outputTokens)
  end.

(** [GetCompletedCount] *)
Definition GetCompletedCount (s : ExecutionStats) : nat :=
  length (filter (fun p : string * AgentStat => stat_completed p.2)
            (map_to_list (stats_agents s))).

(** * Properties *)

(** ** SharedMemory.WaitFor *)

Section WaitForLoop.
Variables (key : string) (timeout deadline : Z).

Lemma wait_loop_deadline (fuel : nat) (data : store) :
  data !! key = None ->
  wait_loop (S fuel) data key timeout deadline deadline [] =
    Some (Err (WaitTimeout key timeout), data, deadline).
Proof.
  intros Hnone. simpl. rewrite Hnone, Z.sub_diag. reflexivity.
Qed.

Lemma wait_loop_deadline_pending (fuel : nat) (data : store) (pending : list publish) :
  data !! key = None ->
  wait_loop (S fuel) data key timeout deadline deadline pending =
    Some (Err (WaitTimeout key timeout), data, deadline).
Proof.
  intros Hnone. simpl. rewrite Hnone, Z.sub_diag. reflexivity.
Qed.

Lemma wait_loop_is_some (fuel : nat) :
  forall (data : store) (now : Z) (pending : list publish),
    (length pending + 2 <= fuel)%nat ->
    is_Some (wait_loop fuel data key timeout deadline now pending).
Proof.
  induction fuel as [|fuel IH]; intros data now pending Hf; [lia|].
  simpl. destruct (data !! key) eqn:Hk; [eauto|].
  destruct (deadline - now <=? 0)%Z; [eauto|].
  destruct pending as [|p rest].
  - destruct fuel as [|fuel']; [simpl in Hf; lia|].
    rewrite wait_loop_deadline by exact Hk. eauto.
  - destruct (pub_at p <? deadline)%Z.
    + apply IH. simpl in Hf. lia.
    + destruct fuel as [|fuel']; [simpl in Hf; lia|].
      rewrite wait_loop_deadline_pending by exact Hk. eauto.
Qed.

Lemma wait_loop_ok (fuel : nat) :
  forall (data : store) (now : Z) (pending : list publish) v data' t,
    wait_loop fuel data key timeout deadline now pending = Some (Ok v, data', t) ->
    data' !! key = Some v /\
    (data !! key = Some v \/
     exists p, In p pending /\ pub_key p = key /\ pub_val p = v).
Proof.
  induction fuel as [|fuel IH]; intros data now pending v data' t H;
    [discriminate|].
  simpl in H. destruct (data !! key) eqn:Hk.
  - injection H as -> -> ->. auto.
  - destruct (deadline - now <=? 0)%Z; [discriminate|].
    destruct pending as [|p rest].
    + apply IH in H as [H1 [H2|[p [Hin _]]]]; [|contradiction].
      split; [exact H1|]. rewrite Hk in H2. discriminate.
    + destruct (pub_at p <? deadline)%Z.
      * apply IH in H as [H1 H2]. split; [exact H1|].
        destruct H2 as [H2|[p' [Hin Hp']]].
        -- unfold Set_ in H2. destruct (decide (pub_key p = key)) as [<-|Hne].
           ++ rewrite lookup_insert_eq in H2. injection H2 as <-.
              right. exists p. simpl. auto.
           ++ rewrite lookup_insert_ne in H2 by exact Hne.
              rewrite Hk in H2. discriminate.
        -- right. exists p'. simpl. auto.
      * apply IH in H as [H1 H2]. split; [exact H1|]. rewrite <- Hk. exact H2.
Qed.

Lemma wait_loop_never_published (fuel : nat) :
  forall (data : store) (now : Z) (pending : list publish),
    (length pending + 2 <= fuel)%nat ->
    data !! key = None ->
    Forall (fun p => pub_key p <> key) pending ->
    exists data', wait_loop fuel data key timeout deadline now pending =
      Some (Err (WaitTimeout key timeout), data', Z.max now deadline).
Proof.
  induction fuel as [|fuel IH]; intros data now pending Hf Hk Hp; [lia|].
  simpl. rewrite Hk.
  destruct (deadline - now <=? 0)%Z eqn:Hr.
  - exists data. apply Z.leb_le in Hr. rewrite Z.max_l by lia. reflexivity.
  - apply Z.leb_gt in Hr.
    destruct pending as [|p rest].
    + destruct fuel as [|fuel']; [simpl in Hf; lia|].
      rewrite wait_loop_deadline by exact Hk.
      exists data. rewrite Z.max_r by lia. reflexivity.
    + inversion Hp as [|? ? Hpk Hrest]; subst.
      destruct (pub_at p <? deadline)%Z eqn:Ha.
      * apply Z.ltb_lt in Ha.
        destruct (IH (Set_ data (pub_key p) (pub_val p)) (Z.max now (pub_at p)) rest)
          as [data' Hd]; [simpl in Hf; lia| |exact Hrest|].
        { unfold Set_. rewrite lookup_insert_ne by exact Hpk. exact Hk. }
        exists data'. rewrite Hd. f_equal. f_equal. lia.
      * destruct fuel as [|fuel']; [simpl in Hf; lia|].
        rewrite wait_loop_deadline_pending by exact Hk.
        exists data. rewrite Z.max_r by lia. reflexivity.
Qed.
End WaitForLoop.

Lemma WaitFor_terminates (data : store) (key : string) (timeout now : Z)
    (pending : list publish) :
  is_Some (WaitFor data key timeout now pending).
Proof. unfold WaitFor. apply wait_loop_is_some. lia. Qed.

(** C1. [WaitFor(key, timeout)] called at time [now], while the other
    tasks perform the publishes [pending]: if the key is already present it
    returns its value at once (at time [now], store untouched); if the key
    is never published it returns the timeout error naming the key and the
    timeout, at time [max now (now + timeout)], i.e. once the timeout has
    elapsed; and any value it returns is the one held under [key] when it
    returns, which is either the value present at the call or one published
    under [key] itself. *)
Theorem WaitFor_contract (data : store) (key : string) (timeout now : Z)
    (pending : list publish) :
  (forall v, data !! key = Some v ->
     WaitFor data key timeout now pending = Some (Ok v, data, now)) /\
  (data !! key = None -> Forall (fun p => pub_key p <> key) pending ->
     exists data', WaitFor data key timeout now pending =
       Some (Err (WaitTimeout key timeout), data', Z.max now (now + timeout))) /\
  (forall v data' t, WaitFor data key timeout now pending = Some (Ok v, data', t) ->
     data' !! key = Some v /\
     (data !! key = Some v \/
      exists p, In p pending /\ pub_key p = key /\ pub_val p = v)).
Proof.
  split; [|split].
  - intros v Hv. unfold WaitFor. simpl. rewrite Hv. reflexivity.
  - intros Hk Hp. unfold WaitFor.
    apply wait_loop_never_published; [lia|exact Hk|exact Hp].
  - intros v data' t H. unfold WaitFor in H. eapply wait_loop_ok. exact H.
Qed.

Lemma WaitFor_contract_witness :
  WaitFor {["notes" := "draft"]} "notes" 300 0 [mkPublish 5 "other" "x"] =
    Some (Ok "draft", {["notes" := "draft"]}, 0%Z) /\
  (exists data', WaitFor ∅ "notes" 300 0 [mkPublish 5 "other" "x"] =
     Some (Err (WaitTimeout "notes" 300), data', Z.max 0 (0 + 300))).
Proof.
  destruct (WaitFor_contract {["notes" := "draft"]} "notes" 300 0
              [mkPublish 5 "other" "x"]) as [H1 _].
  destruct (WaitFor_contract ∅ "notes" 300 0 [mkPublish 5 "other" "x"])
    as [_ [H2 _]].
  split.
  - apply H1. reflexivity.
  - apply H2; [reflexivity|].
    constructor; [simpl; discriminate|constructor].
Defined.

(** ** Output History *)

Lemma str_app_assoc (a b c : string) : (a +:+ b) +:+ c = a +:+ (b +:+ c).
Proof. induction a as [|x a IH]; [reflexivity|]. exact (f_equal (String x) IH). Qed.

Lemma str_app_nil_r (a : string) : a +:+ "" = a.
Proof. induction a as [|x a IH]; [reflexivity|]. exact (f_equal (String x) IH). Qed.

(** The concatenation, in insertion order, of one [[taskId]:\n<text>\n\n]
    block per entry. *)
Definition blocks_concat (h : list AgentOutput) : string :=
  foldr String.append "" (map context_block h).

Lemma context_blocks_concat (h : list AgentOutput) :
  context_blocks h = blocks_concat h.
Proof.
  induction h as [|o h IH]; [reflexivity|].
  simpl. rewrite IH. reflexivity.
Qed.

(** C8 (as stated): a non-empty history renders as exactly its blocks.
    It does not: [GetContext] writes a header first. *)
Lemma GetContext_not_only_blocks :
  GetContext [mkOutput "A" "x"] <> blocks_concat [mkOutput "A" "x"].
Proof. vm_compute. discriminate. Qed.

(** C8 (amended): [GetContext] is the empty string on an empty history;
    otherwise it is the header ["Context from previous agents:\n\n"]
    followed by exactly the concatenation, in insertion order, of one
    [[taskId]:\n<text>\n\n] block per entry, with nothing after them. *)
Theorem GetContext_render (h : list AgentOutput) :
  GetContext h =
    match h with
    | [] => ""
    | _ => "Context from previous agents:" +:+ nl +:+ nl +:+ blocks_concat h
    end.
Proof.
  destruct h as [|o h]; [reflexivity|].
  unfold GetContext. rewrite context_blocks_concat.
  unfold context_header. rewrite !str_app_assoc. reflexivity.
Qed.

(** ** Execution state *)

(** C6 (as stated): once [Complete] has been called, a later [Start]
    leaves the terminal status.  It does: the status is [Running] again. *)
Lemma Start_after_Complete_leaves_terminal :
  Status (Start (Complete (NewState 2))) = StateRunning.
Proof. reflexivity. Qed.

(** C6 (amended): [State] makes no terminal-state check.  From [Completed]
    or [Failed], [Start] sets [Running], [Complete] sets [Completed] and
    [Fail err'] sets [Failed] and records [err'], each overwriting the
    previous status (and, for [Fail], the previous error). *)
Theorem State_transitions_unguarded (s : State) (e' : err) :
  (Status s = StateCompleted \/ Status s = StateFailed) ->
  Status (Start s) = StateRunning /\
  Status (Complete s) = StateCompleted /\
  Status (Fail e' s) = StateFailed /\ Error (Fail e' s) = Some e'.
Proof. intros _. repeat split. Qed.

Lemma State_transitions_unguarded_witness :
  Status (Start (Fail (External "x") (NewState 1))) = StateRunning /\
  Error (Fail (External "y") (Fail (External "x") (NewState 1))) = Some (External "y").
Proof.
  destruct (State_transitions_unguarded (Fail (External "x") (NewState 1)) (External "y"))
    as [H1 [_ [_ H4]]]; [right; reflexivity|].
  split; [exact H1|exact H4].
Defined.

(** ** The runner: what each phase of [RunAgent] leaves unchanged *)

(** The configuration part of the runner, which no phase writes. *)
Definition frame (r r' : Runner) : Prop :=
  r_agents r' = r_agents r /\ r_clients r' = r_clients r /\
  r_session r' = r_session r /\ r_registry r' = r_registry r /\
  r_backend r' = r_backend r.

Lemma frame_refl (r : Runner) : frame r r.
Proof. repeat split. Qed.

Lemma frame_trans (r1 r2 r3 : Runner) : frame r1 r2 -> frame r2 r3 -> frame r1 r3.
Proof. unfold frame. intuition congruence. Qed.

Create HintDb runner.
#[local] Hint Resolve frame_refl frame_trans : runner.

Lemma gen_loop_effects (k : nat) :
  forall attempt last model prompt r,
    let r' := snd (gen_loop k attempt last model prompt r) in
    frame r r' /\ r_shared r' = r_shared r /\ r_history r' = r_history r /\
    exists evs, r_log r' = app (r_log r) evs.
Proof.
  induction k as [|k IH]; intros attempt last model prompt r; simpl.
  - repeat split. exists []. rewrite app_nil_r. reflexivity.
  - destruct (r_backend r model (length (filter is_generate (r_log r))) prompt) eqn:Hb.
    + simpl. repeat split. eexists. reflexivity.
    + set (r1 := set_clock r (r_now r) (app (r_log r) [EvGenerate model prompt])).
      set (r2 := if Nat.ltb attempt maxRetries then sleep (Z.of_nat attempt) r1 else r1).
      assert (H2 : frame r r2 /\ r_shared r2 = r_shared r /\ r_history r2 = r_history r /\
                   exists evs, r_log r2 = app (r_log r) evs).
      { subst r2 r1. destruct (Nat.ltb attempt maxRetries); simpl;
          (repeat split; [eexists; rewrite <- ?app_assoc; reflexivity]). }
      destruct (IH (S attempt) (Err e) model prompt r2) as [F [S [Hh [evs Hl]]]].
      destruct H2 as [F2 [S2 [Hh2 [evs2 Hl2]]]].
      split; [eauto with runner|]. split; [congruence|]. split; [congruence|].
      exists (app evs2 evs). rewrite Hl, Hl2, app_assoc. reflexivity.
Qed.

Lemma await_keys_effects (a : Agent) (data : store) (keys : list string) :
  forall r,
    let r' := snd (await_keys a data keys r) in
    frame r r' /\ r_shared r' = r_shared r /\ r_log r' = r_log r.
Proof.
  induction keys as [|key keys IH]; intros r; simpl; [repeat split|].
  destruct (WaitFor data key requiredKeyTimeout (r_now r) []) as [[[[v|e] d] t]|];
    simpl; [|repeat split|repeat split].
  destruct (IH (set_history (set_clock r t (r_log r))
                  (AddOutput (r_history (set_clock r t (r_log r))) ("shared:" +:+ key) v)))
    as [F [S L]].
  split; [exact F|]. split; [exact S|exact L].
Qed.

Lemma await_required_effects (a : Agent) (r : Runner) :
  let r' := snd (await_required a r) in
  frame r r' /\ r_shared r' = r_shared r /\ r_log r' = r_log r.
Proof.
  unfold await_required.
  destruct (r_shared r) as [data|] eqn:Hs; [|simpl; repeat split; congruence].
  destruct (Requires a) as [|k ks] eqn:Hr; [simpl; repeat split; congruence|].
  rewrite <- Hr, <- Hs. exact (await_keys_effects a data (Requires a) r).
Qed.

Lemma tool_round_trip_effects (a : Agent) (prompt response : string) (r : Runner) :
  let r' := snd (tool_round_trip a prompt response r) in
  frame r r' /\ r_shared r' = r_shared r /\ r_history r' = r_history r.
Proof.
  unfold tool_round_trip.
  destruct (Tools a); [simpl; repeat split|].
  destruct (HasToolCalls response); [|simpl; repeat split].
  destruct (ParseToolCalls response) as [|c cs]; [simpl; repeat split|].
  destruct (String.eqb _ ""); [simpl; repeat split|].
  unfold generate. simpl.
  destruct (r_backend r _ _ _); simpl; repeat split.
Qed.

Lemma publish_outputs_effects (a : Agent) (response : string) (r : Runner) :
  let r' := publish_outputs a response r in
  frame r r' /\ r_history r' = r_history r /\ r_log r' = r_log r.
Proof.
  unfold publish_outputs.
  destruct (r_shared r), (Outputs a); simpl; repeat split.
Qed.

Lemma RunAgent_frame (a : Agent) (r : Runner) : frame r (snd (RunAgent a r)).
Proof.
  unfold RunAgent.
  destruct (negb _); [apply frame_refl|].
  destruct (await_required_effects a r) as [F1 [S1 L1]].
  destruct (await_required a r) as [[u|e] r1]; simpl in *; [|exact F1].
  destruct (gen_loop_effects maxRetries 1 (Ok "") (Model a) (buildPrompt a r1) r1)
    as [F2 _].
  unfold retry_generate.
  destruct (gen_loop maxRetries 1 (Ok "") (Model a) (buildPrompt a r1) r1)
    as [[response|e] r2]; simpl in *; [|eauto with runner].
  destruct (tool_round_trip_effects a (buildPrompt a r1) response r2) as [F3 _].
  destruct (tool_round_trip a (buildPrompt a r1) response r2) as [response' r3].
  simpl in *.
  destruct (publish_outputs_effects a response'
              (set_history r3 (AddOutput (r_history r3) (ID a) response'))) as [F4 _].
  assert (F5 : frame r3 (set_history r3 (AddOutput (r_history r3) (ID a) response')))
    by (repeat split).
  eauto with runner.
Qed.

(** The four ways [RunAgent] ends. *)
Lemma RunAgent_cases (a : Agent) (r : Runner) :
  (existsb (String.eqb (Model a)) (r_clients r) = false /\
   RunAgent a r = (Err (ModelNotFound (Model a)), r)) \/
  (existsb (String.eqb (Model a)) (r_clients r) = true /\
   exists e r1, await_required a r = (Err e, r1) /\ RunAgent a r = (Err e, r1)) \/
  (existsb (String.eqb (Model a)) (r_clients r) = true /\
   exists u r1 e r2, await_required a r = (Ok u, r1) /\
     retry_generate (Model a) (buildPrompt a r1) r1 = (Err e, r2) /\
     RunAgent a r = (Err (AgentFailed (ID a) maxRetries e), r2)) \/
  (existsb (String.eqb (Model a)) (r_clients r) = true /\
   exists u r1 response r2 response' r3, await_required a r = (Ok u, r1) /\
     retry_generate (Model a) (buildPrompt a r1) r1 = (Ok response, r2) /\
     tool_round_trip a (buildPrompt a r1) response r2 = (response', r3) /\
     RunAgent a r = (Ok response',
       publish_outputs a response' (set_history r3 (AddOutput (r_history r3) (ID a) response')))).
Proof.
  unfold RunAgent.
  destruct (existsb (String.eqb (Model a)) (r_clients r)) eqn:Hc; simpl.
  2: { left. split; reflexivity. }
  right.
  destruct (await_required a r) as [[u|e] r1] eqn:Ha.
  2: { left. split; [reflexivity|]. eauto. }
  right.
  destruct (retry_generate (Model a) (buildPrompt a r1) r1) as [[response|e] r2] eqn:Hg.
  2: { left. split; [reflexivity|]. eauto 8. }
  right. split; [reflexivity|].
  destruct (tool_round_trip a (buildPrompt a r1) response r2) as [response' r3] eqn:Ht.
  eauto 12.
Qed.

(** ** The store only grows *)

Definition keeps_keys (d d' : store) : Prop :=
  forall k, is_Some (d !! k) -> is_Some (d' !! k).

Lemma foldl_set_keeps (outs : list string) (response : string) :
  forall d, keeps_keys d (foldl (fun d key => Set_ d key response) d outs).
Proof.
  induction outs as [|o outs IH]; intros d k Hk; simpl; [exact Hk|].
  apply IH. unfold Set_. destruct (decide (o = k)) as [->|Hne].
  - rewrite lookup_insert_eq. eauto.
  - rewrite lookup_insert_ne by exact Hne. exact Hk.
Qed.

Lemma foldl_set_writes (outs : list string) (response : string) :
  forall d k, In k outs -> foldl (fun d key => Set_ d key response) d outs !! k = Some response.
Proof.
  induction outs as [|o outs IH]; intros d k Hin; [contradiction|].
  simpl. destruct (in_dec String.string_dec k outs) as [Hin'|Hnin]; [apply IH; exact Hin'|].
  destruct Hin as [->|Hin]; [|contradiction].
  assert (Hkeep : forall d0, d0 !! k = Some response ->
            foldl (fun d key => Set_ d key response) d0 outs !! k = Some response).
  { clear IH Hnin. induction outs as [|o' outs IH']; intros d0 H0; simpl; [exact H0|].
    apply IH'. unfold Set_. destruct (decide (o' = k)) as [->|Hne].
    - apply lookup_insert_eq.
    - rewrite lookup_insert_ne by exact Hne. exact H0. }
  apply Hkeep. apply lookup_insert_eq.
Qed.

Lemma RunAgent_keeps_keys (a : Agent) (r : Runner) (d : store) :
  r_shared r = Some d ->
  exists d', r_shared (snd (RunAgent a r)) = Some d' /\ keeps_keys d d'.
Proof.
  intros Hs.
  destruct (RunAgent_cases a r) as
    [[_ H]|[[_ [e [r1 [Ha H]]]]|[[_ [u [r1 [e [r2 [Ha [Hg H]]]]]]]|
      [_ [u [r1 [response [r2 [response' [r3 [Ha [Hg [Ht H]]]]]]]]]]]]];
    rewrite H; simpl.
  - exists d. split; [exact Hs|intros k Hk; exact Hk].
  - destruct (await_required_effects a r) as [_ [S1 _]]. rewrite Ha in S1.
    simpl in S1. exists d. split; [congruence|intros k Hk; exact Hk].
  - destruct (await_required_effects a r) as [_ [S1 _]]. rewrite Ha in S1.
    simpl in S1.
    destruct (gen_loop_effects maxRetries 1 (Ok "") (Model a) (buildPrompt a r1) r1)
      as [_ [S2 _]].
    unfold retry_generate in Hg. rewrite Hg in S2. simpl in S2.
    exists d. split; [congruence|intros k Hk; exact Hk].
  - destruct (await_required_effects a r) as [_ [S1 _]]. rewrite Ha in S1.
    simpl in S1.
    destruct (gen_loop_effects maxRetries 1 (Ok "") (Model a) (buildPrompt a r1) r1)
      as [_ [S2 _]].
    unfold retry_generate in Hg. rewrite Hg in S2. simpl in S2.
    destruct (tool_round_trip_effects a (buildPrompt a r1) response r2) as [_ [S3 _]].
    rewrite Ht in S3. simpl in S3.
    assert (Hs3 : r_shared r3 = Some d) by congruence.
    unfold publish_outputs. simpl. rewrite Hs3.
    destruct (Outputs a) as [|o outs] eqn:Ho; simpl; try rewrite Hs3.
    + exists d. split; [reflexivity|intros k Hk; exact Hk].
    + eexists. split; [reflexivity|]. exact (foldl_set_keeps (o :: outs) response' d).
Qed.

Lemma RunAgent_publishes (a : Agent) (r r' : Runner) (d : store) (s : string) :
  r_shared r = Some d -> RunAgent a r = (Ok s, r') ->
  exists d', r_shared r' = Some d' /\ forall k, In k (Outputs a) -> d' !! k = Some s.
Proof.
  intros Hs Hrun.
  destruct (RunAgent_cases a r) as
    [[_ H]|[[_ [e [r1 [Ha H]]]]|[[_ [u [r1 [e [r2 [Ha [Hg H]]]]]]]|
      [_ [u [r1 [response [r2 [response' [r3 [Ha [Hg [Ht H]]]]]]]]]]]]];
    rewrite H in Hrun; try discriminate.
  injection Hrun as <- <-.
  destruct (await_required_effects a r) as [_ [S1 _]]. rewrite Ha in S1. simpl in S1.
  destruct (gen_loop_effects maxRetries 1 (Ok "") (Model a) (buildPrompt a r1) r1)
    as [_ [S2 _]].
  unfold retry_generate in Hg. rewrite Hg in S2. simpl in S2.
  destruct (tool_round_trip_effects a (buildPrompt a r1) response r2) as [_ [S3 _]].
  rewrite Ht in S3. simpl in S3.
  assert (Hs3 : r_shared r3 = Some d) by congruence.
  unfold publish_outputs. simpl. rewrite Hs3.
  destruct (Outputs a) as [|o outs] eqn:Ho; simpl; try rewrite Hs3.
  - exists d. split; [reflexivity|intros k []].
  - eexists. split; [reflexivity|]. intros k Hk.
    exact (foldl_set_writes (o :: outs) response' d k Hk).
Qed.

(** ** Running tasks one after the other *)

(** Resolve a task id and run it: the body of a step of [executeSequential]
    and of a branch goroutine of [executeParallel] before it takes [mu]. *)
Definition task_outcome (id : string) (r : Runner) : result string * Runner :=
  match GetAgent r id with
  | None => (Err (AgentNotFound id), r)
  | Some a => RunAgent a r
  end.

(** The runner after the tasks of [order] have all run, in that order. *)
Fixpoint run_tasks (order : list string) (r : Runner) : Runner :=
  match order with
  | [] => r
  | id :: order' => run_tasks order' (snd (task_outcome id r))
  end.

(** Every task of [pre] succeeds at its turn. *)
Fixpoint tasks_ok (pre : list string) (r : Runner) : Prop :=
  match pre with
  | [] => True
  | id :: pre' =>
      (exists s, fst (task_outcome id r) = Ok s) /\
      tasks_ok pre' (snd (task_outcome id r))
  end.

Lemma run_tasks_app (l1 l2 : list string) (r : Runner) :
  run_tasks (app l1 l2) r = run_tasks l2 (run_tasks l1 r).
Proof. revert r. induction l1 as [|id l1 IH]; intros r; simpl; auto. Qed.

Lemma run_branches_runner (order : list string) :
  forall fe res r, snd (run_branches order fe res r) = run_tasks order r.
Proof.
  induction order as [|id order IH]; intros fe res r; [reflexivity|].
  simpl. unfold task_outcome.
  destruct (GetAgent r id) as [a|]; [|apply IH].
  destruct (RunAgent a r) as [[s|e] r1]; apply IH.
Qed.

Lemma run_branches_keep_err (order : list string) :
  forall e res r, fst (fst (run_branches order (Some e) res r)) = Some e.
Proof.
  induction order as [|id order IH]; intros e res r; [reflexivity|].
  simpl. destruct (GetAgent r id) as [a|]; [|apply IH].
  destruct (RunAgent a r) as [[s|e'] r1]; apply IH.
Qed.

Lemma run_branches_first_err (order : list string) :
  forall res r,
    (tasks_ok order r /\ fst (fst (run_branches order None res r)) = None) \/
    (exists pre id post e, order = app pre (id :: post) /\ tasks_ok pre r /\
       fst (task_outcome id (run_tasks pre r)) = Err e /\
       fst (fst (run_branches order None res r)) = Some e).
Proof.
  induction order as [|id order IH]; intros res r; [left; split; reflexivity|].
  simpl. unfold task_outcome at 1 2.
  destruct (GetAgent r id) as [a|] eqn:Hg.
  - destruct (RunAgent a r) as [[s|e] r1] eqn:Hrun.
    + destruct (IH (<[id := s]> res) r1) as [[Hok Hn]|[pre [id' [post [e [-> [Hok [Hf He]]]]]]]].
      * left. split; [|exact Hn]. split; [eauto|]. simpl. exact Hok.
      * right. exists (id :: pre), id', post, e. simpl.
        assert (Hb : task_outcome id r = (Ok s, r1))
          by (unfold task_outcome; rewrite Hg; exact Hrun).
        rewrite Hb. simpl. repeat split; eauto.
    + right. exists [], id, order, e. simpl. unfold task_outcome. rewrite Hg, Hrun.
      repeat split. apply run_branches_keep_err.
  - right. exists [], id, order, (AgentNotFound id). simpl. unfold task_outcome.
    rewrite Hg. repeat split. apply run_branches_keep_err.
Qed.

Lemma tasks_ok_app_inv (pre : list string) (id : string) (post : list string) :
  forall r, tasks_ok (app pre (id :: post)) r ->
    exists s, fst (task_outcome id (run_tasks pre r)) = Ok s.
Proof.
  induction pre as [|id' pre IH]; intros r [H1 H2]; [exact H1|].
  simpl. apply IH. exact H2.
Qed.

Lemma run_tasks_keeps_keys (order : list string) :
  forall r d, r_shared r = Some d ->
    exists d', r_shared (run_tasks order r) = Some d' /\ keeps_keys d d'.
Proof.
  induction order as [|id order IH]; intros r d Hs.
  - exists d. split; [exact Hs|intros k Hk; exact Hk].
  - simpl. unfold task_outcome at 1.
    destruct (GetAgent r id) as [a|].
    + destruct (RunAgent_keeps_keys a r d Hs) as [d1 [Hs1 K1]].
      destruct (IH _ d1 Hs1) as [d2 [Hs2 K2]].
      exists d2. split; [exact Hs2|]. intros k Hk. apply K2, K1, Hk.
    + apply IH. exact Hs.
Qed.

(** ** Parallel workflows *)

(** C2. In a parallel workflow where some branch fails at its turn (for
    the goroutine schedule [order]), [executeParallel] returns [("", err)]
    and moves the state to [Failed] with that error, where [err] is the
    error of the first failing branch in the order the goroutines take
    [mu]; the runner afterwards is the one left by all branches, each run
    to completion (none cancelled), and the aggregator ([Then]) is not run;
    and every output key published by a branch that succeeded is still
    present in the store afterwards. *)
Theorem executeParallel_branch_failure (wf : Workflow) (order : list string)
    (st : State) (r : Runner) :
  (exists pre id post e0, order = app pre (id :: post) /\
     fst (task_outcome id (run_tasks pre r)) = Err e0) ->
  exists e,
    executeParallel wf order st r = (("", Some e), Fail e (Start st), run_tasks order r) /\
    Status (Fail e (Start st)) = StateFailed /\
    (exists pre id post, order = app pre (id :: post) /\ tasks_ok pre r /\
       fst (task_outcome id (run_tasks pre r)) = Err e) /\
    (forall d pre id post a s rq k,
       r_shared r = Some d -> order = app pre (id :: post) ->
       GetAgent (run_tasks pre r) id = Some a ->
       RunAgent a (run_tasks pre r) = (Ok s, rq) -> In k (Outputs a) ->
       exists d' v, r_shared (run_tasks order r) = Some d' /\ d' !! k = Some v).
Proof.
  intros [pre0 [id0 [post0 [e0 [Ho0 Hf0]]]]].
  destruct (run_branches_first_err order ∅ r) as
    [[Hok _]|[pre [id [post [e [Ho [Hok [Hf He]]]]]]]].
  { exfalso. rewrite Ho0 in Hok. destruct (tasks_ok_app_inv _ _ _ _ Hok) as [s Hs].
    congruence. }
  exists e. split; [|split; [reflexivity|split]].
  - unfold executeParallel.
    pose proof (run_branches_runner order None ∅ r) as Hrun.
    destruct (run_branches order None ∅ r) as [[fe res] r1].
    simpl in He, Hrun. subst fe r1. reflexivity.
  - exists pre, id, post. auto.
  - intros d pre' id' post' a s rq k Hs Hord Hg Hrun Hk.
    rewrite Hord, run_tasks_app. simpl.
    destruct (run_tasks_keeps_keys pre' r d Hs) as [d1 [Hs1 _]].
    unfold task_outcome. rewrite Hg, Hrun. simpl.
    destruct (RunAgent_publishes a (run_tasks pre' r) rq d1 s Hs1 Hrun) as [d2 [Hs2 Hw]].
    destruct (run_tasks_keeps_keys post' rq d2 Hs2) as [d3 [Hs3 K]].
    destruct (K k) as [v Hv]; [rewrite (Hw k Hk); eauto|].
    exists d3, v. split; [exact Hs3|exact Hv].
Qed.

Definition par_writer : Agent :=
  mkAgent "B1" "m" "writer" "write notes" [] [] "" [] ["notes"] [].
Definition par_broken : Agent :=
  mkAgent "B2" "missing" "reviewer" "review" [] [] "" [] [] [].
Definition par_runner : Runner :=
  mkRunner [par_writer; par_broken] ["m"] [] "" (Some ∅) []
    (fun _ _ _ => Ok "notes text") 0 [].
Definition par_workflow : Workflow :=
  mkWorkflow "parallel" [] ["B1"; "B2"] (Some "B1").

Lemma executeParallel_branch_failure_witness :
  exists e,
    executeParallel par_workflow ["B1"; "B2"] (NewState 3) par_runner =
      (("", Some e), Fail e (Start (NewState 3)), run_tasks ["B1"; "B2"] par_runner) /\
    Status (Fail e (Start (NewState 3))) = StateFailed /\
    (exists pre id post, ["B1"; "B2"] = app pre (id :: post) /\ tasks_ok pre par_runner /\
       fst (task_outcome id (run_tasks pre par_runner)) = Err e) /\
    (forall d pre id post a s rq k,
       r_shared par_runner = Some d -> ["B1"; "B2"] = app pre (id :: post) ->
       GetAgent (run_tasks pre par_runner) id = Some a ->
       RunAgent a (run_tasks pre par_runner) = (Ok s, rq) -> In k (Outputs a) ->
       exists d' v, r_shared (run_tasks ["B1"; "B2"] par_runner) = Some d' /\ d' !! k = Some v).
Proof.
  apply (executeParallel_branch_failure par_workflow ["B1"; "B2"] (NewState 3) par_runner).
  exists ["B1"], "B2", [], (ModelNotFound "missing"). split; vm_compute; reflexivity.
Defined.

(** ** Retry policy *)

Definition count_generate (log : list event) : nat := length (filter is_generate log).

Lemma count_generate_app (l1 l2 : list event) :
  count_generate (app l1 l2) = (count_generate l1 + count_generate l2)%nat.
Proof. unfold count_generate. rewrite filter_app, length_app. reflexivity. Qed.

Lemma count_generate_gen (m p : string) : count_generate [EvGenerate m p] = 1%nat.
Proof. reflexivity. Qed.

Lemma count_generate_sleep (secs : Z) : count_generate [EvSleep secs] = 0%nat.
Proof. reflexivity. Qed.

Lemma count_generate_tool_events (reg : registry) (calls : list ToolCall) :
  count_generate (tool_events reg calls) = 0%nat.
Proof.
  induction calls as [|c calls IH]; [reflexivity|].
  unfold tool_events in *. simpl. rewrite count_generate_app, IH.
  destruct (registry_get reg (tc_name c)); reflexivity.
Qed.

Lemma gen_loop_count (k : nat) :
  forall attempt last model prompt r,
    (count_generate (r_log (snd (gen_loop k attempt last model prompt r)))
       <= count_generate (r_log r) + k)%nat.
Proof.
  induction k as [|k IH]; intros attempt last model prompt r; simpl; [lia|].
  destruct (r_backend r model (length (filter is_generate (r_log r))) prompt) eqn:Hb.
  - simpl. rewrite count_generate_app, count_generate_gen. lia.
  - set (r1 := set_clock r (r_now r) (app (r_log r) [EvGenerate model prompt])).
    set (r2 := if Nat.ltb attempt maxRetries then sleep (Z.of_nat attempt) r1 else r1).
    assert (H2 : count_generate (r_log r2) = S (count_generate (r_log r))).
    { subst r2 r1. destruct (Nat.ltb attempt maxRetries); simpl;
        rewrite ?count_generate_app, ?count_generate_gen, ?count_generate_sleep; lia. }
    specialize (IH (S attempt) (Err e) model prompt r2). lia.
Qed.

Lemma generate_eq (m p : string) (r : Runner) :
  generate m p r =
    (r_backend r m (count_generate (r_log r)) p,
     set_clock r (r_now r) (app (r_log r) [EvGenerate m p])).
Proof. reflexivity. Qed.

Lemma gen_loop_eq (k attempt : nat) (last : result string) (m p : string) (r : Runner) :
  gen_loop (S k) attempt last m p r =
    match generate m p r with
    | (Ok response, r1) => (Ok response, r1)
    | (Err e, r1) =>
        gen_loop k (S attempt) (Err e) m p
          (if Nat.ltb attempt maxRetries then sleep (Z.of_nat attempt) r1 else r1)
    end.
Proof. reflexivity. Qed.

Definition retry_tool : Tool := mkTool "calc" "evaluates arithmetic" (fun _ => ("3", None)).
Definition retry_agent : Agent :=
  mkAgent "solver" "m" "solver" "compute" ["calc"] [] "" [] [] [].
Definition retry_runner : Runner :=
  mkRunner [retry_agent] ["m"] [] "" None [retry_tool]
    (fun _ n _ =>
       match n with
       | 0 | 1 => Err (External "503 unavailable")
       | 2 => Ok ("```tool:calc" +:+ nl +:+ "1+2" +:+ nl +:+ "```")
       | _ => Ok "the answer is 3"
       end) 0 [].

(** C3.  The attempt loop of [RunAgent] calls [Generate] at most 3 times,
    whatever the backend answers: a success at attempt 1, 2 or 3 ends the
    loop with that text after waits of 1 and then 2 time units between
    failed attempts, and [RunAgent] goes on with that text and makes no
    further attempt; if all three fail the loop returns the last error,
    which [RunAgent] wraps in "agent ... failed after 3 attempts". *)
Theorem retry_policy (a : Agent) (prompt : string) (r : Runner) :
  let b := r_backend r (Model a) in
  let n0 := count_generate (r_log r) in
  let g := EvGenerate (Model a) prompt in
  (forall s, b n0 prompt = Ok s ->
     retry_generate (Model a) prompt r =
       (Ok s, set_clock r (r_now r) (app (r_log r) [g]))) /\
  (forall e1 s, b n0 prompt = Err e1 -> b (S n0) prompt = Ok s ->
     retry_generate (Model a) prompt r =
       (Ok s, set_clock r (r_now r + 1)%Z (app (r_log r) [g; EvSleep 1; g]))) /\
  (forall e1 e2 s, b n0 prompt = Err e1 -> b (S n0) prompt = Err e2 ->
     b (S (S n0)) prompt = Ok s ->
     retry_generate (Model a) prompt r =
       (Ok s, set_clock r (r_now r + 3)%Z
                (app (r_log r) [g; EvSleep 1; g; EvSleep 2; g]))) /\
  (forall e1 e2 e3, b n0 prompt = Err e1 -> b (S n0) prompt = Err e2 ->
     b (S (S n0)) prompt = Err e3 ->
     retry_generate (Model a) prompt r =
       (Err e3, set_clock r (r_now r + 3)%Z
                  (app (r_log r) [g; EvSleep 1; g; EvSleep 2; g]))) /\
  (forall r1 e r2,
     existsb (String.eqb (Model a)) (r_clients r) = true ->
     await_required a r = (Ok tt, r1) ->
     retry_generate (Model a) (buildPrompt a r1) r1 = (Err e, r2) ->
     RunAgent a r = (Err (AgentFailed (ID a) 3 e), r2)) /\
  (forall r1 s r2,
     existsb (String.eqb (Model a)) (r_clients r) = true ->
     await_required a r = (Ok tt, r1) ->
     retry_generate (Model a) (buildPrompt a r1) r1 = (Ok s, r2) ->
     RunAgent a r =
       let '(response', r3) := tool_round_trip a (buildPrompt a r1) s r2 in
       (Ok response',
        publish_outputs a response' (set_history r3 (AddOutput (r_history r3) (ID a) response')))) /\
  (count_generate (r_log (snd (retry_generate (Model a) prompt r)))
     <= count_generate (r_log r) + 3)%nat.
Proof.
  cbv zeta. unfold retry_generate, maxRetries.
  assert (Hlog1 : count_generate (r_log (sleep (Z.of_nat 1)
             (set_clock r (r_now r) (app (r_log r) [EvGenerate (Model a) prompt]))))
             = S (count_generate (r_log r))).
  { cbn [r_log sleep set_clock]. rewrite !count_generate_app, count_generate_gen,
      count_generate_sleep. lia. }
  assert (Hlog2 :
    count_generate (r_log (sleep (Z.of_nat 2)
      (set_clock (sleep (Z.of_nat 1)
         (set_clock r (r_now r) (app (r_log r) [EvGenerate (Model a) prompt])))
         (r_now (sleep (Z.of_nat 1)
            (set_clock r (r_now r) (app (r_log r) [EvGenerate (Model a) prompt]))))
         (app (r_log (sleep (Z.of_nat 1)
            (set_clock r (r_now r) (app (r_log r) [EvGenerate (Model a) prompt]))))
            [EvGenerate (Model a) prompt]))))
    = S (S (count_generate (r_log r)))).
  { cbn [r_log sleep set_clock]. rewrite !count_generate_app, !count_generate_gen,
      !count_generate_sleep. lia. }
  split; [|split; [|split; [|split; [|split; [|split]]]]].
  - intros s H1. rewrite gen_loop_eq, generate_eq, H1. reflexivity.
  - intros e1 s H1 H2.
    rewrite gen_loop_eq, generate_eq, H1. cbn [Nat.ltb Nat.leb maxRetries].
    rewrite gen_loop_eq, generate_eq.
    replace (r_backend _ _ _ prompt) with (r_backend r (Model a) (S (count_generate (r_log r))) prompt)
      by (rewrite <- Hlog1; reflexivity).
    rewrite H2. cbn [r_log r_now sleep set_clock]. rewrite <- !app_assoc. reflexivity.
  - intros e1 e2 s H1 H2 H3.
    rewrite gen_loop_eq, generate_eq, H1. cbn [Nat.ltb Nat.leb maxRetries].
    rewrite gen_loop_eq, generate_eq.
    replace (r_backend _ _ _ prompt) with (r_backend r (Model a) (S (count_generate (r_log r))) prompt)
      by (rewrite <- Hlog1; reflexivity).
    rewrite H2. cbn [Nat.ltb Nat.leb maxRetries].
    rewrite gen_loop_eq, generate_eq.
    replace (r_backend _ _ _ prompt) with (r_backend r (Model a) (S (S (count_generate (r_log r)))) prompt)
      by (rewrite <- Hlog2; reflexivity).
    rewrite H3. cbn [r_log r_now sleep set_clock]. rewrite <- !app_assoc.
    replace (r_now r + Z.of_nat 1 + Z.of_nat 2)%Z with (r_now r + 3)%Z by lia.
    reflexivity.
  - intros e1 e2 e3 H1 H2 H3.
    rewrite gen_loop_eq, generate_eq, H1. cbn [Nat.ltb Nat.leb maxRetries].
    rewrite gen_loop_eq, generate_eq.
    replace (r_backend _ _ _ prompt) with (r_backend r (Model a) (S (count_generate (r_log r))) prompt)
      by (rewrite <- Hlog1; reflexivity).
    rewrite H2. cbn [Nat.ltb Nat.leb maxRetries].
    rewrite gen_loop_eq, generate_eq.
    replace (r_backend _ _ _ prompt) with (r_backend r (Model a) (S (S (count_generate (r_log r)))) prompt)
      by (rewrite <- Hlog2; reflexivity).
    rewrite H3. cbn [Nat.ltb Nat.leb maxRetries gen_loop r_log r_now sleep set_clock].
    rewrite <- !app_assoc.
    replace (r_now r + Z.of_nat 1 + Z.of_nat 2)%Z with (r_now r + 3)%Z by lia.
    reflexivity.
  - intros r1 e r2 Hc Ha Hg. unfold RunAgent, retry_generate, maxRetries.
    rewrite Hc. cbn [negb]. rewrite Ha. cbv beta iota zeta. rewrite Hg. reflexivity.
  - intros r1 s r2 Hc Ha Hg. unfold RunAgent, retry_generate, maxRetries.
    rewrite Hc. cbn [negb]. rewrite Ha. cbv beta iota zeta. rewrite Hg. reflexivity.
  - apply (gen_loop_count 3 1 (Ok "") (Model a) prompt r).
Qed.

Lemma retry_policy_witness :
  retry_generate "m" "compute" retry_runner =
    (Ok ("```tool:calc" +:+ nl +:+ "1+2" +:+ nl +:+ "```"),
     set_clock retry_runner 3%Z
       [EvGenerate "m" "compute"; EvSleep 1; EvGenerate "m" "compute"; EvSleep 2;
        EvGenerate "m" "compute"]).
Proof.
  destruct (retry_policy retry_agent "compute" retry_runner) as [_ [_ [H3 _]]].
  apply (H3 (External "503 unavailable") (External "503 unavailable")); reflexivity.
Defined.

(** ** Sequential workflows *)

Lemma iter_NextStep_swap (n : nat) (st : State) :
  Nat.iter n NextStep (NextStep st) = NextStep (Nat.iter n NextStep st).
Proof. induction n as [|n IH]; simpl; [reflexivity|]. rewrite IH. reflexivity. Qed.

Lemma seq_steps_spec (steps : list string) :
  forall st r,
    (tasks_ok steps r /\
     seq_steps steps st r =
       ((GetFinalOutput (run_tasks steps r), None),
        Complete (Nat.iter (length steps) NextStep st), run_tasks steps r)) \/
    (exists pre id post e r', steps = app pre (id :: post) /\ tasks_ok pre r /\
       ((GetAgent (run_tasks pre r) id = None /\ e = AgentNotFound id /\
         r' = run_tasks pre r) \/
        (exists a, GetAgent (run_tasks pre r) id = Some a /\
           RunAgent a (run_tasks pre r) = (Err e, r'))) /\
       seq_steps steps st r =
         (("", Some e), Fail e (Nat.iter (length pre) NextStep st), r')).
Proof.
  induction steps as [|id steps IH]; intros st r.
  - left. split; reflexivity.
  - simpl. destruct (GetAgent r id) as [a|] eqn:Hg.
    + destruct (RunAgent a r) as [[s|e] r1] eqn:Hrun.
      * assert (Hb : task_outcome id r = (Ok s, r1))
          by (unfold task_outcome; rewrite Hg; exact Hrun).
        rewrite Hb. simpl.
        destruct (IH (NextStep st) r1) as
          [[Hok Heq]|[pre [id' [post [e [r' [-> [Hok [Hcase Heq]]]]]]]]].
        -- left. split; [split; [eauto|exact Hok]|].
           rewrite Heq, iter_NextStep_swap. reflexivity.
        -- right. exists (id :: pre), id', post, e, r'. simpl. rewrite Hb. simpl.
           split; [reflexivity|]. split; [split; [eauto|exact Hok]|].
           split; [exact Hcase|]. rewrite Heq, iter_NextStep_swap. reflexivity.
      * right. exists [], id, steps, e, r1. simpl.
        split; [reflexivity|]. split; [exact I|].
        split; [right; eauto|reflexivity].
    + right. exists [], id, steps, (AgentNotFound id), r. simpl.
      split; [reflexivity|]. split; [exact I|].
      split; [left; auto|reflexivity].
Qed.

(** C7. [executeSequential] calls [Start], then handles the steps in
    order: either every step resolves and runs successfully, each followed
    by [NextStep], and it calls [Complete] and returns the Output History's
    last output with no error; or it stops at the first step whose task id
    is absent (error [AgentNotFound], the engine's TaskNotFound) or whose
    run fails, moves to [Failed] with that error, returns it with an empty
    output, and runs none of the later steps (the runner is the one left by
    the failing step).  The last output is the text of the most recent
    entry, or [""] when there is none. *)
Theorem executeSequential_spec (wf : Workflow) (st : State) (r : Runner) :
  let steps := wf_steps wf in
  ((tasks_ok steps r /\
    executeSequential wf st r =
      ((GetFinalOutput (run_tasks steps r), None),
       Complete (Nat.iter (length steps) NextStep (Start st)), run_tasks steps r)) \/
   (exists pre id post e r', steps = app pre (id :: post) /\ tasks_ok pre r /\
      ((GetAgent (run_tasks pre r) id = None /\ e = AgentNotFound id /\
        r' = run_tasks pre r) \/
       (exists a, GetAgent (run_tasks pre r) id = Some a /\
          RunAgent a (run_tasks pre r) = (Err e, r'))) /\
      executeSequential wf st r =
        (("", Some e), Fail e (Nat.iter (length pre) NextStep (Start st)), r'))) /\
  (forall (h : list AgentOutput) (o : AgentOutput),
     GetLastOutput (app h [o]) = Response o) /\
  GetLastOutput [] = "".
Proof.
  cbv zeta. split; [|split; [|reflexivity]].
  - unfold executeSequential. apply seq_steps_spec.
  - intros h o. unfold GetLastOutput. rewrite last_snoc. reflexivity.
Qed.

(** ** Publishing and requiring keys across two steps *)

(** [x] occurs in [s]. *)
Definition substring (x s : string) : Prop := exists pre post, s = pre +:+ x +:+ post.

Lemma substring_trans (x y z : string) :
  substring x y -> substring y z -> substring x z.
Proof.
  intros [p1 [q1 ->]] [p2 [q2 ->]].
  exists (p2 +:+ p1), (q1 +:+ q2). rewrite !str_app_assoc. reflexivity.
Qed.

Lemma context_blocks_snoc (h : list AgentOutput) (o : AgentOutput) :
  context_blocks (app h [o]) = context_blocks h +:+ context_block o.
Proof.
  induction h as [|o' h IH]; simpl.
  - rewrite str_app_nil_r. reflexivity.
  - rewrite IH, str_app_assoc. reflexivity.
Qed.

Lemma GetContext_snoc (h : list AgentOutput) (o : AgentOutput) :
  GetContext (app h [o]) = context_header +:+ context_blocks h +:+ context_block o.
Proof.
  assert (E : GetContext (app h [o]) = context_header +:+ context_blocks (app h [o]))
    by (destruct h; reflexivity).
  rewrite E, context_blocks_snoc. reflexivity.
Qed.

Lemma GetContext_last_block (h : list AgentOutput) (o : AgentOutput) :
  substring (context_block o) (GetContext (app h [o])).
Proof.
  rewrite GetContext_snoc. exists (context_header +:+ context_blocks h), "".
  rewrite str_app_nil_r, str_app_assoc. reflexivity.
Qed.

(** The rendered context of a non-empty history is part of every prompt. *)
Lemma buildPrompt_context (a : Agent) (r : Runner) :
  r_history r <> [] -> substring (GetContext (r_history r)) (buildPrompt a r).
Proof.
  intros Hne. unfold buildPrompt.
  assert (Hc : String.eqb (GetContext (r_history r)) "" = false).
  { destruct (r_history r) as [|o h]; [congruence|reflexivity]. }
  rewrite Hc.
  set (p1 := if String.eqb (r_session r) "" then GetPrompt a
             else r_session r +:+ nl +:+ nl +:+ GetPrompt a).
  set (c := GetContext (r_history r)).
  destruct (app _ _) as [|t ts].
  - exists (p1 +:+ nl +:+ nl), "". rewrite str_app_nil_r, !str_app_assoc. reflexivity.
  - exists (p1 +:+ nl +:+ nl), (nl +:+ nl +:+ FormatToolsForPrompt (t :: ts)).
    rewrite !str_app_assoc. reflexivity.
Qed.

Lemma RunAgent_ok_history (a : Agent) (r r' : Runner) (s : string) :
  RunAgent a r = (Ok s, r') -> exists h, r_history r' = app h [mkOutput (ID a) s].
Proof.
  intros Hrun.
  destruct (RunAgent_cases a r) as
    [[_ H]|[[_ [e [r1 [Ha H]]]]|[[_ [u [r1 [e [r2 [Ha [Hg H]]]]]]]|
      [_ [u [r1 [response [r2 [response' [r3 [Ha [Hg [Ht H]]]]]]]]]]]]];
    rewrite H in Hrun; try discriminate.
  injection Hrun as <- <-.
  destruct (publish_outputs_effects a response'
              (set_history r3 (AddOutput (r_history r3) (ID a) response'))) as [_ [Hh _]].
  exists (r_history r3). rewrite Hh. reflexivity.
Qed.

Lemma tool_round_trip_log (a : Agent) (prompt response : string) (r : Runner) :
  exists evs, r_log (snd (tool_round_trip a prompt response r)) = app (r_log r) evs.
Proof.
  unfold tool_round_trip.
  destruct (Tools a); [exists []; rewrite app_nil_r; reflexivity|].
  destruct (HasToolCalls response); [|exists []; rewrite app_nil_r; reflexivity].
  destruct (ParseToolCalls response) as [|c cs];
    [exists []; rewrite app_nil_r; reflexivity|].
  destruct (String.eqb _ ""); [eexists; reflexivity|].
  rewrite generate_eq.
  destruct (r_backend _ _ _ _); cbn [snd r_log set_clock];
    eexists; rewrite <- app_assoc; reflexivity.
Qed.

Lemma gen_loop_first_event (k attempt : nat) (last : result string) (m p : string)
    (r : Runner) :
  exists evs, r_log (snd (gen_loop (S k) attempt last m p r)) =
              app (r_log r) (EvGenerate m p :: evs).
Proof.
  rewrite gen_loop_eq, generate_eq.
  destruct (r_backend r m (count_generate (r_log r)) p) as [x|e].
  - exists []. reflexivity.
  - set (r1 := set_clock r (r_now r) (app (r_log r) [EvGenerate m p])).
    set (r2 := if Nat.ltb attempt maxRetries then sleep (Z.of_nat attempt) r1 else r1).
    assert (H2 : exists evs, r_log r2 = app (r_log r) (EvGenerate m p :: evs)).
    { subst r2 r1. destruct (Nat.ltb attempt maxRetries); cbn [sleep set_clock r_log].
      - exists [EvSleep (Z.of_nat attempt)]. rewrite <- app_assoc. reflexivity.
      - exists []. reflexivity. }
    destruct H2 as [evs2 H2].
    destruct (gen_loop_effects k (S attempt) (Err e) m p r2) as [_ [_ [_ [evs L]]]].
    exists (app evs2 evs). rewrite L, H2, <- app_assoc. reflexivity.
Qed.

(** Once the model is known and the required keys are in, the first thing
    [RunAgent] does is one [Generate] call on the prompt built then. *)
Lemma RunAgent_first_generate (a : Agent) (r r1 : Runner) (u : unit) :
  existsb (String.eqb (Model a)) (r_clients r) = true ->
  await_required a r = (Ok u, r1) ->
  exists evs, r_log (snd (RunAgent a r)) =
              app (r_log r) (EvGenerate (Model a) (buildPrompt a r1) :: evs).
Proof.
  intros Hc Ha0.
  destruct (await_required_effects a r) as [_ [_ L1]]. rewrite Ha0 in L1. simpl in L1.
  destruct (RunAgent_cases a r) as
    [[Hc' _]|[[_ [e [r1' [Ha H]]]]|[[_ [u' [r1' [e [r2 [Ha [Hg H]]]]]]]|
      [_ [u' [r1' [response [r2 [response' [r3 [Ha [Hg [Ht H]]]]]]]]]]]]];
    [congruence|congruence| |]; rewrite Ha0 in Ha; injection Ha as _ <-; rewrite H; cbn [snd].
  - destruct (gen_loop_first_event 2 1 (Ok "") (Model a) (buildPrompt a r1) r1)
      as [evs E].
    unfold retry_generate, maxRetries in Hg. rewrite Hg in E. simpl in E.
    exists evs. rewrite E, L1. reflexivity.
  - destruct (gen_loop_first_event 2 1 (Ok "") (Model a) (buildPrompt a r1) r1)
      as [evs E].
    unfold retry_generate, maxRetries in Hg. rewrite Hg in E. simpl in E.
    destruct (tool_round_trip_log a (buildPrompt a r1) response r2) as [evs3 E3].
    rewrite Ht in E3. simpl in E3.
    destruct (publish_outputs_effects a response'
                (set_history r3 (AddOutput (r_history r3) (ID a) response'))) as [_ [_ L4]].
    exists (app evs evs3). rewrite L4. cbn [set_history r_log].
    rewrite E3, E, L1, <- app_assoc. reflexivity.
Qed.

(** C4. A sequential workflow of two steps, task A declaring
    [outputs: [notes]] and task B declaring [requires: [notes]], run by a
    runner with a [SharedMemory] attached.  When A succeeds with output
    [outA], the runner it leaves has A's entry last in the Output History
    and [notes] bound to [outA] in the store; B's wait on [notes] then
    returns at once, appends the entry [shared:notes] with text [outA],
    and only then is B's prompt built: the first [Generate] call of B is
    on that prompt, whose rendered context contains the block of the
    [shared:notes] entry.  The workflow runs B on exactly that runner. *)
Theorem requires_sees_published_output (wf : Workflow) (st : State) (r : Runner)
    (d : store) (ida idb outA : string) (a b : Agent) (rA : Runner) :
  wf_steps wf = [ida; idb] ->
  r_shared r = Some d ->
  GetAgent r ida = Some a -> Outputs a = ["notes"] ->
  GetAgent r idb = Some b -> Requires b = ["notes"] ->
  existsb (String.eqb (Model b)) (r_clients r) = true ->
  RunAgent a r = (Ok outA, rA) ->
  (exists h, r_history rA = app h [mkOutput (ID a) outA]) /\
  (exists dA, r_shared rA = Some dA /\ dA !! "notes" = Some outA) /\
  (exists rB, await_required b rA = (Ok tt, rB) /\
     r_history rB = app (r_history rA) [mkOutput "shared:notes" outA] /\
     r_shared rB = r_shared rA /\ r_log rB = r_log rA /\
     substring (context_block (mkOutput "shared:notes" outA)) (buildPrompt b rB) /\
     exists evs, r_log (snd (RunAgent b rA)) =
                 app (r_log rA) (EvGenerate (Model b) (buildPrompt b rB) :: evs)) /\
  executeSequential wf st r =
    match RunAgent b rA with
    | (Err e, r2) => (("", Some e), Fail e (NextStep (Start st)), r2)
    | (Ok _, r2) => ((GetFinalOutput r2, None), Complete (NextStep (NextStep (Start st))), r2)
    end.
Proof.
  intros Hw Hs Hga Hoa Hgb Hrb Hcb Hrun.
  pose proof (RunAgent_frame a r) as F. rewrite Hrun in F.
  destruct F as [Fag [Fcl _]]. cbn [snd] in Fag, Fcl.
  destruct (RunAgent_publishes a r rA d outA Hs Hrun) as [dA [HsA Hpub]].
  assert (HnA : dA !! "notes" = Some outA) by (apply Hpub; rewrite Hoa; left; reflexivity).
  set (rB := set_history (set_clock rA (r_now rA) (r_log rA))
               (AddOutput (r_history rA) "shared:notes" outA)).
  assert (Haw : await_required b rA = (Ok tt, rB)).
  { unfold await_required. rewrite HsA, Hrb. cbn [await_keys].
    unfold WaitFor. cbn [wait_loop length]. rewrite HnA. reflexivity. }
  split; [exact (RunAgent_ok_history a r rA outA Hrun)|].
  split; [exists dA; split; assumption|].
  split.
  - exists rB. split; [exact Haw|].
    split; [reflexivity|]. split; [reflexivity|]. split; [reflexivity|].
    split.
    + apply (substring_trans _ (GetContext (r_history rB))).
      * apply GetContext_last_block.
      * apply buildPrompt_context. cbn [rB set_history r_history AddOutput].
        destruct (r_history rA); discriminate.
    + apply RunAgent_first_generate with (u := tt); [|exact Haw].
      rewrite Fcl. exact Hcb.
  - unfold executeSequential. rewrite Hw. cbn [seq_steps].
    rewrite Hga, Hrun.
    assert (HgbA : GetAgent rA idb = Some b) by (unfold GetAgent; rewrite Fag; exact Hgb).
    rewrite HgbA. cbn [seq_steps].
    destruct (RunAgent b rA) as [[s|e] r2]; reflexivity.
Qed.

Definition seq_writer : Agent :=
  mkAgent "A" "m" "researcher" "take notes" [] [] "" [] ["notes"] [].
Definition seq_reader : Agent :=
  mkAgent "B" "m" "writer" "write from the notes" [] [] "" [] [] ["notes"].
Definition seq_runner : Runner :=
  mkRunner [seq_writer; seq_reader] ["m"] [] "" (Some ∅) []
    (fun _ n _ => if Nat.eqb n 0 then Ok "the notes" else Ok "the article") 0 [].
Definition seq_workflow : Workflow :=
  mkWorkflow "sequential" ["A"; "B"] [] None.

Lemma requires_sees_published_output_witness :
  RunAgent seq_writer seq_runner = (Ok "the notes", snd (RunAgent seq_writer seq_runner)) /\
  exists rB, await_required seq_reader (snd (RunAgent seq_writer seq_runner)) = (Ok tt, rB) /\
    r_history rB = app (r_history (snd (RunAgent seq_writer seq_runner)))
                       [mkOutput "shared:notes" "the notes"] /\
    substring (context_block (mkOutput "shared:notes" "the notes")) (buildPrompt seq_reader rB).
Proof.
  assert (Hrun : RunAgent seq_writer seq_runner =
                 (Ok "the notes", snd (RunAgent seq_writer seq_runner)))
    by (vm_compute; reflexivity).
  split; [exact Hrun|].
  destruct (requires_sees_published_output seq_workflow (NewState 2) seq_runner ∅
              "A" "B" "the notes" seq_writer seq_reader _
              eq_refl eq_refl eq_refl eq_refl eq_refl eq_refl eq_refl Hrun)
    as [_ [_ [[rB [Haw [Hh [_ [_ [Hsub _]]]]]] _]]].
  exists rB. split; [exact Haw|]. split; [exact Hh|exact Hsub].
Defined.

(** ** Tool calls in the runner *)

Lemma match_at_marker (s : string) (m : string * string * string) :
  match_at s = Some m -> String.prefix tool_marker s = true.
Proof. unfold match_at. destruct (String.prefix tool_marker s); congruence. Qed.

Lemma find_all_contains (fuel : nat) :
  forall s, find_all fuel s <> [] -> Contains s tool_marker = true.
Proof.
  induction fuel as [|fuel IH]; intros s Hne; [contradiction|].
  destruct s as [|c s']; [contradiction|].
  cbn [find_all] in Hne. cbn [Contains].
  destruct (match_at (String c s')) as [[[n i] rest]|] eqn:Hm.
  - rewrite (match_at_marker _ _ Hm). reflexivity.
  - rewrite (IH s' Hne), orb_true_r. reflexivity.
Qed.

(** A response from which a call is parsed passes [HasToolCalls]. *)
Lemma ParseToolCalls_HasToolCalls (response : string) :
  ParseToolCalls response <> [] -> HasToolCalls response = true.
Proof.
  unfold ParseToolCalls, HasToolCalls. intros Hne.
  apply (find_all_contains (S (String.length response))).
  intros E. apply Hne. rewrite E. reflexivity.
Qed.

Definition ts_calc : Tool := mkTool "calc" "evaluates arithmetic" (fun _ => ("3", None)).
(** A task with an MCP toolset and no plain tools. *)
Definition ts_agent : Agent :=
  mkAgent "T" "m" "solver" "solve" [] ["srv"] "" [] [] [].
Definition ts_response : string :=
  "```tool:calc" +:+ nl +:+ "1+2" +:+ nl +:+ "```".
Definition ts_runner : Runner :=
  mkRunner [ts_agent] ["m"] [] "" None [ts_calc]
    (fun _ n _ => if Nat.eqb n 0 then Ok ts_response else Ok "it is 3") 0 [].

Definition is_tool_event (ev : event) : bool :=
  match ev with EvTool _ _ => true | _ => false end.

(** C5: a task with a toolset and no plain tools, and a response carrying
    a tool block.  The block parses to a call of the registered tool
    [calc], yet [RunAgent] executes no tool, makes no follow-up call and
    returns the raw response: the guard [len(agentDef.Tools) > 0] skips the
    round trip for a task that has only toolsets. *)
Lemma toolset_only_task_skips_tool_calls :
  Toolsets ts_agent <> [] /\
  ParseToolCalls ts_response = [mkCall "calc" "1+2"] /\
  fst (RunAgent ts_agent ts_runner) = Ok ts_response /\
  filter is_tool_event (r_log (snd (RunAgent ts_agent ts_runner))) = [] /\
  count_generate (r_log (snd (RunAgent ts_agent ts_runner))) = 1%nat.
Proof. split; [discriminate|]. vm_compute. repeat split. Qed.

(** C5, the round trip the code performs.  For a task whose plain tools
    list is non-empty and a response from which [ParseToolCalls] extracts
    at least one call: the runner executes the calls in the order of the
    blocks, one result per call, an unregistered name giving an [unknown
    tool] error in its own slot; it records the registered tools'
    executions, then issues exactly
    one follow-up [Generate] on the original prompt, the previous response
    and the formatted results; the follow-up's text replaces the output if
    it succeeds, the original response is kept if it fails.  Whatever the
    tool calls do, a task whose generation succeeded ends with [Ok]. *)
Theorem tool_round_trip_spec (a : Agent) (prompt response : string) (r : Runner) :
  Tools a <> [] -> ParseToolCalls response <> [] ->
  let reg := r_registry r in
  let calls := ParseToolCalls response in
  let results := ExecuteToolCalls reg calls in
  let fp := followup_prompt prompt response (FormatToolResults results) in
  let r' := set_clock r (r_now r)
              (app (r_log r) (app (tool_events reg calls) [EvGenerate (Model a) fp])) in
  length results = length calls /\
  (forall i c, calls !! i = Some c ->
     results !! i = Some (execute_tool_call reg c) /\
     (registry_get reg (tc_name c) = None ->
        results !! i = Some (mkResult (tc_name c) "" (Some (UnknownTool (tc_name c)))))) /\
  tool_round_trip a prompt response r =
    (match r_backend r (Model a) (count_generate (r_log r)) fp with
     | Ok f => f
     | Err _ => response
     end, r') /\
  count_generate (r_log r') = S (count_generate (r_log r)) /\
  (forall r0 u r1 resp r2,
     existsb (String.eqb (Model a)) (r_clients r0) = true ->
     await_required a r0 = (Ok u, r1) ->
     retry_generate (Model a) (buildPrompt a r1) r1 = (Ok resp, r2) ->
     exists r3, RunAgent a r0 = (Ok (fst (tool_round_trip a (buildPrompt a r1) resp r2)), r3)).
Proof.
  intros Ht Hp reg calls results fp r'.
  split; [apply length_map|].
  split.
  - intros i c Hc. unfold results, ExecuteToolCalls.
    rewrite list_lookup_fmap, Hc. cbn [fmap option_fmap option_map]. split; [reflexivity|].
    intros Hn. unfold execute_tool_call. unfold reg in *. rewrite Hn. reflexivity.
  - split; [|split].
    + unfold tool_round_trip.
      destruct (Tools a) as [|t ts]; [congruence|].
      rewrite (ParseToolCalls_HasToolCalls response Hp).
      subst reg calls results fp r'.
      destruct (ParseToolCalls response) as [|c cs]; [congruence|].
      assert (Hf : String.eqb (FormatToolResults (ExecuteToolCalls (r_registry r) (c :: cs)))
                     "" = false) by reflexivity.
      rewrite Hf, generate_eq. cbn [r_log r_now r_backend set_clock].
      rewrite count_generate_app, count_generate_tool_events, Nat.add_0_r, <- app_assoc.
      destruct (r_backend r _ _ _); reflexivity.
    + unfold r'. cbn [r_log set_clock].
      rewrite !count_generate_app, count_generate_tool_events, count_generate_gen. lia.
    + intros r0 u r1 resp r2 Hc Ha Hg.
      destruct (RunAgent_cases a r0) as
        [[Hc' _]|[[_ [e [r1' [Ha' H]]]]|[[_ [u' [r1' [e [r2' [Ha' [Hg' H]]]]]]]|
          [_ [u' [r1' [response' [r2' [response'' [r3 [Ha' [Hg' [Ht' H]]]]]]]]]]]]];
        [congruence|congruence| |];
        rewrite Ha in Ha'; injection Ha' as _ <-; rewrite Hg in Hg'; [discriminate|].
      injection Hg' as <- <-. rewrite Ht'. cbn [fst]. eexists. exact H.
Qed.

Definition tr_runner : Runner :=
  mkRunner [retry_agent] ["m"] [] "" None [ts_calc] (fun _ _ _ => Ok "it is 3") 0 [].

Lemma tool_round_trip_spec_witness :
  Tools retry_agent <> [] /\ ParseToolCalls ts_response <> [] /\
  tool_round_trip retry_agent "p" ts_response tr_runner =
    ("it is 3", snd (tool_round_trip retry_agent "p" ts_response tr_runner)) /\
  filter is_tool_event (r_log (snd (tool_round_trip retry_agent "p" ts_response tr_runner)))
    = [EvTool "calc" "1+2"].
Proof.
  assert (H1 : Tools retry_agent <> []) by discriminate.
  assert (H2 : ParseToolCalls ts_response <> []) by (vm_compute; discriminate).
  split; [exact H1|]. split; [exact H2|].
  destruct (tool_round_trip_spec retry_agent "p" ts_response tr_runner H1 H2)
    as [_ [_ [E _]]].
  cbv zeta in E. rewrite E. vm_compute. split; reflexivity.
Defined.

(** ** A required key that never arrives *)

Lemma context_blocks_app (h1 h2 : list AgentOutput) :
  context_blocks (app h1 h2) = context_blocks h1 +:+ context_blocks h2.
Proof.
  induction h1 as [|o h1 IH]; simpl; [reflexivity|].
  rewrite IH, str_app_assoc. reflexivity.
Qed.

(** Every entry of the history is rendered in its context. *)
Lemma GetContext_entry (h : list AgentOutput) (o : AgentOutput) :
  In o h -> substring (context_block o) (GetContext h).
Proof.
  intros Hin. apply in_split in Hin as [h1 [h2 ->]].
  assert (E : GetContext (app h1 (o :: h2)) =
              context_header +:+ context_blocks (app h1 (o :: h2)))
    by (destruct h1; reflexivity).
  rewrite E, context_blocks_app. cbn [context_blocks].
  exists (context_header +:+ context_blocks h1), (context_blocks h2).
  rewrite !str_app_assoc. reflexivity.
Qed.

Lemma await_keys_present (a : Agent) (data : store) (rest : list string) (pre : list string) :
  forall r,
    (forall key, In key pre -> is_Some (data !! key)) ->
    exists es r1,
      Forall2 (fun key o => data !! key = Some (Response o) /\
                            AgentID o = "shared:" +:+ key) pre es /\
      r_history r1 = app (r_history r) es /\ r_now r1 = r_now r /\
      r_log r1 = r_log r /\ r_shared r1 = r_shared r /\ frame r r1 /\
      await_keys a data (app pre rest) r = await_keys a data rest r1.
Proof.
  induction pre as [|key pre IH]; intros r Hin.
  - exists [], r. rewrite app_nil_r. repeat split. constructor.
  - destruct (Hin key (or_introl eq_refl)) as [v Hv].
    cbn [app await_keys]. unfold WaitFor. cbn [wait_loop length]. rewrite Hv.
    set (r2 := set_history (set_clock r (r_now r) (r_log r))
                 (AddOutput (r_history (set_clock r (r_now r) (r_log r)))
                    ("shared:" +:+ key) v)).
    destruct (IH r2 (fun k Hk => Hin k (or_intror Hk))) as
      [es [r1 [HF [Hh [Hn [Hl [Hs [F E]]]]]]]].
    exists (mkOutput ("shared:" +:+ key) v :: es), r1.
    split; [constructor; [split; [exact Hv|reflexivity]|exact HF]|].
    subst r2. rewrite Hh. cbn [set_history set_clock r_history AddOutput] in *.
    split; [unfold AddOutput; rewrite <- app_assoc; reflexivity|].
    split; [exact Hn|]. split; [exact Hl|]. split; [exact Hs|].
    split; [|exact E].
    destruct F as [F1 [F2 [F3 [F4 F5]]]]. repeat split; assumption.
Qed.

(** C9. A task whose required keys are [pre ++ k :: post], run by a runner
    with a [SharedMemory] holding every key of [pre] but not [k] (and no
    other task running meanwhile): [RunAgent] fails with the wrapped
    timeout on [k] after the 5-minute wait, but the runner it leaves keeps
    the [shared:<key>] entries appended for the keys of [pre], and every
    later prompt, built on a history that extends that one, renders them. *)
Theorem required_key_timeout_keeps_entries (a : Agent) (r : Runner) (d : store)
    (pre post : list string) (k : string) :
  r_shared r = Some d ->
  Requires a = app pre (k :: post) ->
  (forall key, In key pre -> is_Some (d !! key)) ->
  d !! k = None ->
  existsb (String.eqb (Model a)) (r_clients r) = true ->
  exists es r',
    RunAgent a r = (Err (RequiredKeyFailed (ID a) k (WaitTimeout k requiredKeyTimeout)), r') /\
    Forall2 (fun key o => d !! key = Some (Response o) /\ AgentID o = "shared:" +:+ key)
            pre es /\
    r_history r' = app (r_history r) es /\
    r_now r' = (r_now r + requiredKeyTimeout)%Z /\
    (forall o b r'' h', In o es -> r_history r'' = app (r_history r') h' ->
       substring (context_block o) (buildPrompt b r'')).
Proof.
  intros Hs Hr Hpre Hk Hc.
  destruct (await_keys_present a d (k :: post) pre r Hpre) as
    [es [r1 [HF [Hh [Hn [_ [_ [_ E]]]]]]]].
  exists es, (set_clock r1 (r_now r1 + requiredKeyTimeout)%Z (r_log r1)).
  split.
  - unfold RunAgent. rewrite Hc. cbn [negb].
    unfold await_required. rewrite Hs, Hr.
    destruct pre as [|p0 pre0] eqn:Hp; cbn [app].
    + cbn [app] in E. rewrite E. cbn [await_keys]. unfold WaitFor.
      cbn [wait_loop length]. rewrite Hk. unfold requiredKeyTimeout.
      assert (A1 : (r_now r1 + 300 - r_now r1 <=? 0)%Z = false)
        by (apply Z.leb_gt; lia).
      assert (A2 : (r_now r1 + 300 - (r_now r1 + 300) <=? 0)%Z = true)
        by (apply Z.leb_le; lia).
      rewrite A1, A2. reflexivity.
    + cbn [app] in E. rewrite E. cbn [await_keys]. unfold WaitFor.
      cbn [wait_loop length]. rewrite Hk. unfold requiredKeyTimeout.
      assert (A1 : (r_now r1 + 300 - r_now r1 <=? 0)%Z = false)
        by (apply Z.leb_gt; lia).
      assert (A2 : (r_now r1 + 300 - (r_now r1 + 300) <=? 0)%Z = true)
        by (apply Z.leb_le; lia).
      rewrite A1, A2. reflexivity.
  - split; [exact HF|]. split; [exact Hh|].
    split; [cbn [set_clock r_now]; rewrite Hn; reflexivity|].
    intros o b r'' h' Hin Hh''.
    apply (substring_trans _ (GetContext (r_history r''))).
    + apply GetContext_entry. rewrite Hh''. cbn [set_clock r_history]. rewrite Hh.
      apply in_or_app. left. apply in_or_app. right. exact Hin.
    + apply buildPrompt_context. rewrite Hh''. cbn [set_clock r_history]. rewrite Hh.
      destruct es as [|e0 es0]; [contradiction|].
      intros Hnil. apply (f_equal (@length _)) in Hnil.
      rewrite !length_app in Hnil. simpl in Hnil. lia.
Qed.

Definition wait_agent : Agent :=
  mkAgent "W" "m" "editor" "edit" [] [] "" [] [] ["draft"; "review"].
Definition wait_store : store := <["draft" := "first draft"]> ∅.
Definition wait_runner : Runner :=
  mkRunner [wait_agent] ["m"] [] "" (Some wait_store) [] (fun _ _ _ => Ok "done") 0 [].

Lemma required_key_timeout_keeps_entries_witness :
  exists es r',
    RunAgent wait_agent wait_runner =
      (Err (RequiredKeyFailed "W" "review" (WaitTimeout "review" requiredKeyTimeout)), r') /\
    r_history r' = app (r_history wait_runner) es /\ es <> [].
Proof.
  destruct (required_key_timeout_keeps_entries wait_agent wait_runner wait_store
              ["draft"] [] "review" eq_refl eq_refl) as [es [r' [E [HF [Hh _]]]]].
  - intros key [<-|[]]. vm_compute. eexists. reflexivity.
  - vm_compute. reflexivity.
  - reflexivity.
  - exists es, r'. split; [exact E|]. split; [exact Hh|].
    inversion HF. discriminate.
Defined.

(** ** Names of parsed tool calls *)

Fixpoint all_chars (p : Ascii.ascii -> bool) (s : string) : bool :=
  match s with
  | EmptyString => true
  | String c s' => p c && all_chars p s'
  end.

(** The language of [[a-zA-Z_][a-zA-Z0-9_]] followed by a star. *)
Definition is_tool_name (s : string) : bool :=
  match s with
  | EmptyString => false
  | String c s' => is_name_start c && all_chars is_name_char s'
  end.

Lemma all_chars_app (p : Ascii.ascii -> bool) (s t : string) :
  all_chars p (s +:+ t) = all_chars p s && all_chars p t.
Proof.
  induction s as [|c s IH]; simpl; [reflexivity|]. rewrite IH, andb_assoc. reflexivity.
Qed.

Lemma name_char_not_space (c : Ascii.ascii) :
  is_name_char c = true -> is_space c = false.
Proof. revert c. intros [[] [] [] [] [] [] [] []]; vm_compute; congruence. Qed.

Lemma name_start_name_char (c : Ascii.ascii) :
  is_name_start c = true -> is_name_char c = true.
Proof.
  unfold is_name_start, is_name_char. intros H.
  apply orb_true_iff in H as [H|H]; rewrite H; [reflexivity|].
  rewrite !orb_true_r. reflexivity.
Qed.

Lemma name_char_ascii (c : Ascii.ascii) :
  is_name_char c = true -> (RuneSelf <=? byte_of c)%Z = false.
Proof. revert c. intros [[] [] [] [] [] [] [] []]; vm_compute; congruence. Qed.

Lemma substring_0_length (s : string) : String.substring 0 (String.length s) s = s.
Proof. induction s as [|c s IH]; simpl; [reflexivity|]. rewrite IH. reflexivity. Qed.

Lemma all_chars_get (p : Ascii.ascii -> bool) (s : string) (k : nat) (c : Ascii.ascii) :
  all_chars p s = true -> String.get k s = Some c -> p c = true.
Proof.
  revert k. induction s as [|c' s IH]; intros [|k] H Hg; simpl in *; try discriminate.
  - injection Hg as <-. apply andb_true_iff in H. tauto.
  - apply andb_true_iff in H as [_ H]. exact (IH k H Hg).
Qed.

Lemma get_last (s : string) (k : nat) :
  String.length s = S k -> exists c, String.get k s = Some c.
Proof.
  revert k. induction s as [|c s IH]; intros k Hl; simpl in Hl; [discriminate|].
  destruct k as [|k]; simpl; [eauto|].
  apply IH. lia.
Qed.

(** [strings.TrimSpace] leaves a name of the pattern unchanged. *)
Lemma TrimSpace_name (s : string) : all_chars is_name_char s = true -> TrimSpace s = s.
Proof.
  intros H. unfold TrimSpace.
  destruct s as [|c s']; [reflexivity|].
  assert (Hc : is_name_char c = true) by (simpl in H; apply andb_true_iff in H; tauto).
  cbn [TrimSpace_start]. rewrite (name_char_ascii c Hc), (name_char_not_space c Hc).
  destruct (get_last (String c s') (String.length s') eq_refl) as [c' Hg].
  change (String.length (String c s')) with (S (String.length s')).
  cbn [TrimSpace_stop]. rewrite Hg.
  pose proof (all_chars_get _ _ _ _ H Hg) as Hc'.
  rewrite (name_char_ascii c' Hc'), (name_char_not_space c' Hc').
  apply (substring_0_length (String c s')).
Qed.

Lemma take_name_chars (s : string) : all_chars is_name_char (fst (take_name s)) = true.
Proof.
  induction s as [|c s IH]; simpl; [reflexivity|].
  destruct (is_name_char c) eqn:Hc; [|reflexivity].
  destruct (take_name s) as [n r]. simpl in *. rewrite Hc, IH. reflexivity.
Qed.

Lemma match_at_name (s n i rest : string) :
  match_at s = Some (n, i, rest) -> is_tool_name n = true.
Proof.
  unfold match_at. destruct (String.prefix tool_marker s); [|discriminate].
  destruct (drop 8 s) as [|c t]; [discriminate|].
  destruct (is_name_start c) eqn:Hs; [|discriminate].
  cbn [take_name]. rewrite (name_start_name_char c Hs).
  pose proof (take_name_chars t) as Ht.
  destruct (take_name t) as [n' r]. cbn [fst] in Ht.
  destruct r as [|c' body]; [discriminate|].
  destruct (Ascii.eqb c' newline); [|discriminate].
  destruct (take_until_fence body) as [[inp rest']|]; [|discriminate].
  intros E. injection E as <- _ _. simpl. rewrite Hs, Ht. reflexivity.
Qed.

Lemma find_all_names (fuel : nat) :
  forall s n i, In (n, i) (find_all fuel s) -> is_tool_name n = true.
Proof.
  induction fuel as [|fuel IH]; intros s n i Hin; [contradiction|].
  destruct s as [|c s']; [contradiction|]. cbn [find_all] in Hin.
  destruct (match_at (String c s')) as [[[n0 i0] rest]|] eqn:Hm.
  - destruct Hin as [E|Hin]; [injection E as <- <-; exact (match_at_name _ _ _ _ Hm)|].
    exact (IH rest n i Hin).
  - exact (IH s' n i Hin).
Qed.

Lemma is_tool_name_chars (s : string) : is_tool_name s = true -> all_chars is_name_char s = true.
Proof.
  destruct s as [|c s]; simpl; [discriminate|].
  intros H. apply andb_true_iff in H as [H1 H2].
  rewrite (name_start_name_char c H1), H2. reflexivity.
Qed.

(** C10. Every call [ParseToolCalls] returns, for any response, has a
    name of the pattern [[a-zA-Z_][a-zA-Z0-9_]] followed by a star; such a
    name has no dot, so it is never the [server.tool] name of an MCP tool,
    and no tool the registry finds for a parsed call has such a name.  The
    round trip of [RunAgent] returns the response and the runner unchanged
    when the task's plain tools list is empty, whatever its toolsets. *)
Theorem parsed_tool_names_exclude_toolsets (response : string) :
  (forall c, In c (ParseToolCalls response) -> is_tool_name (tc_name c) = true) /\
  (forall c serverName toolName, In c (ParseToolCalls response) ->
     tc_name c <> MCPTool_Name serverName toolName) /\
  (forall reg c t serverName toolName, In c (ParseToolCalls response) ->
     registry_get reg (tc_name c) = Some t -> tool_name t <> MCPTool_Name serverName toolName) /\
  (forall a prompt r, Tools a = [] -> tool_round_trip a prompt response r = (response, r)).
Proof.
  assert (Hname : forall c, In c (ParseToolCalls response) -> is_tool_name (tc_name c) = true).
  { unfold ParseToolCalls. intros c Hin. apply in_map_iff in Hin as [[n i] [<- Hin]].
    pose proof (find_all_names _ _ n i Hin) as Hn. cbn [tc_name].
    rewrite (TrimSpace_name n (is_tool_name_chars n Hn)). exact Hn. }
  assert (Hdot : forall c serverName toolName, In c (ParseToolCalls response) ->
            tc_name c <> MCPTool_Name serverName toolName).
  { intros c sv tn Hin E. pose proof (is_tool_name_chars _ (Hname c Hin)) as H.
    rewrite E in H. unfold MCPTool_Name in H.
    rewrite !all_chars_app in H. simpl in H.
    rewrite andb_false_r in H. discriminate. }
  split; [exact Hname|]. split; [exact Hdot|]. split.
  - intros reg c t sv tn Hin Hg.
    assert (Ht : tool_name t = tc_name c).
    { clear -Hg. induction reg as [|t' reg IH]; simpl in Hg; [discriminate|].
      destruct (String.eqb (tool_name t') (tc_name c)) eqn:E.
      - injection Hg as <-. apply String.eqb_eq. exact E.
      - exact (IH Hg). }
    rewrite Ht. exact (Hdot c sv tn Hin).
  - intros a prompt r Ht. unfold tool_round_trip. rewrite Ht. reflexivity.
Qed.

Lemma parsed_tool_names_exclude_toolsets_witness :
  is_tool_name "calc" = true /\
  tool_round_trip ts_agent "p" ts_response ts_runner = (ts_response, ts_runner).
Proof.
  destruct (parsed_tool_names_exclude_toolsets ts_response) as [H1 [_ [_ H4]]].
  split.
  - apply (H1 (mkCall "calc" "1+2")). vm_compute. left. reflexivity.
  - apply H4. reflexivity.
Defined.

(** * Further properties of the code *)

(** ** SharedMemory: Set, Get, GetString, Keys, Clear *)

(** [Set] then [Get]: the key reads back the value written (also through
    [GetString]), and every other key reads as before. *)
Theorem SharedMemory_Set_Get (data : store) (key value key' : string) :
  Get (Set_ data key value) key = Some value /\
  GetString (Set_ data key value) key = value /\
  (key' <> key -> Get (Set_ data key value) key' = Get data key').
Proof.
  unfold GetString, Get, Set_. rewrite lookup_insert_eq.
  split; [reflexivity|]. split; [reflexivity|].
  intros Hne. rewrite lookup_insert_ne by congruence. reflexivity.
Qed.

(** [Keys] lists each key of the store exactly once, and only those;
    after [Clear] there are no keys, [Get] misses every key and [GetString]
    returns [""]. *)
Theorem SharedMemory_Keys_Clear (data : store) :
  (forall key, In key (Keys data) <-> is_Some (Get data key)) /\
  NoDup (Keys data) /\
  Keys (Clear data) = [] /\
  (forall key, Get (Clear data) key = None /\ GetString (Clear data) key = "").
Proof.
  split; [|split; [|split]].
  - intros key. unfold Keys, Get. rewrite <- list_elem_of_In, list_elem_of_fmap.
    split.
    + intros [[k v] [-> Hin]]. apply elem_of_map_to_list in Hin. exists v. exact Hin.
    + intros [v Hv]. exists (key, v). split; [reflexivity|].
      apply elem_of_map_to_list. exact Hv.
  - apply NoDup_fst_map_to_list.
  - unfold Keys, Clear. rewrite map_to_list_empty. reflexivity.
  - intros key. unfold GetString, Get, Clear. rewrite lookup_empty. split; reflexivity.
Qed.

(** ** SharedMemory.WaitFor woken by a publish *)

Lemma wait_loop_woken (key : string) (timeout deadline : Z) (p : publish)
    (post : list publish) (pre : list publish) :
  forall fuel data now,
    (length pre + 2 <= fuel)%nat ->
    data !! key = None -> (now < deadline)%Z ->
    Forall (fun q => pub_key q <> key /\ (pub_at q < deadline)%Z) pre ->
    pub_key p = key -> (pub_at p < deadline)%Z ->
    exists data' t,
      wait_loop fuel data key timeout deadline now (app pre (p :: post)) =
        Some (Ok (pub_val p), data', t) /\ (t < deadline)%Z.
Proof.
  induction pre as [|q pre IH]; intros fuel data now Hf Hk Hn Hpre Hp Hpa.
  - destruct fuel as [|[|fuel]]; [simpl in Hf; lia|simpl in Hf; lia|].
    cbn [app wait_loop]. rewrite Hk.
    assert (Hr : (deadline - now <=? 0)%Z = false) by (apply Z.leb_gt; lia).
    rewrite Hr.
    rewrite (proj2 (Z.ltb_lt _ _) Hpa).
    unfold Set_. rewrite Hp, lookup_insert_eq.
    eexists _, _. split; [reflexivity|]. lia.
  - apply Forall_cons in Hpre as [[Hqk Hqa] Hrest].
    destruct fuel as [|fuel]; [simpl in Hf; lia|].
    cbn [app wait_loop]. rewrite Hk.
    assert (Hr : (deadline - now <=? 0)%Z = false) by (apply Z.leb_gt; lia).
    rewrite Hr.
    rewrite (proj2 (Z.ltb_lt _ _) Hqa).
    apply IH; [simpl in Hf; lia| |lia|exact Hrest|exact Hp|exact Hpa].
    unfold Set_. rewrite lookup_insert_ne by exact Hqk. exact Hk.
Qed.

(** A [WaitFor] with a positive timeout on an absent key, during which
    other tasks publish [pre] (other keys, before the deadline) and then
    [key] itself before the deadline, returns the published value before
    the timeout elapses. *)
Theorem WaitFor_woken_by_Set (data : store) (key : string) (timeout now : Z)
    (pre post : list publish) (p : publish) :
  data !! key = None -> (0 < timeout)%Z ->
  Forall (fun q => pub_key q <> key /\ (pub_at q < now + timeout)%Z) pre ->
  pub_key p = key -> (pub_at p < now + timeout)%Z ->
  exists data' t,
    WaitFor data key timeout now (app pre (p :: post)) = Some (Ok (pub_val p), data', t) /\
    (t < now + timeout)%Z.
Proof.
  intros Hk Ht Hpre Hp Hpa. unfold WaitFor.
  apply wait_loop_woken; [|exact Hk|lia|exact Hpre|exact Hp|exact Hpa].
  rewrite length_app. simpl. lia.
Qed.

Lemma WaitFor_woken_by_Set_witness :
  exists data' t,
    WaitFor ∅ "notes" 300 0 [mkPublish 5 "other" "x"; mkPublish 7 "notes" "draft"] =
      Some (Ok "draft", data', t) /\ (t < 0 + 300)%Z.
Proof.
  apply (WaitFor_woken_by_Set ∅ "notes" 300 0 [mkPublish 5 "other" "x"] []
           (mkPublish 7 "notes" "draft")); [reflexivity|lia| |reflexivity|simpl; lia].
  constructor; [simpl; split; [discriminate|lia]|constructor].
Defined.

(** ** Sessions *)

Lemma foldl_append (f : Message -> string) (ms : list Message) :
  forall init, foldl (fun acc m => acc +:+ f m) init ms =
               init +:+ foldl (fun acc m => acc +:+ f m) "" ms.
Proof.
  induction ms as [|m ms IH]; intros init; simpl.
  - rewrite str_app_nil_r. reflexivity.
  - rewrite (IH (init +:+ f m)), (IH ("" +:+ f m)), str_app_assoc. reflexivity.
Qed.

(** [GetHistory] is empty for a session without messages; [AddMessage]
    stamps the session and adds exactly one block at the end of its
    history, after the header when it is the first message. *)
Theorem GetHistory_AddMessage (s : Session) (agentID role content : string) (now : Z) :
  (sess_messages s = [] -> GetHistory s = "") /\
  sess_updated (AddMessage s agentID role content now) = now /\
  GetHistory (AddMessage s agentID role content now) =
    (match sess_messages s with [] => history_header | _ => GetHistory s end)
    +:+ message_block (mkMessage agentID role content).
Proof.
  split; [intros H; unfold GetHistory; rewrite H; reflexivity|].
  split; [reflexivity|].
  unfold GetHistory, AddMessage. cbn [sess_messages].
  destruct (sess_messages s) as [|m ms]; [reflexivity|].
  cbn [app]. change (m :: app ms [mkMessage agentID role content])
    with (app (m :: ms) [mkMessage agentID role content]).
  rewrite foldl_app. reflexivity.
Qed.

Lemma buildPrompt_session_prefix (a : Agent) (r : Runner) :
  exists rest, buildPrompt a r =
    (if String.eqb (r_session r) "" then GetPrompt a
     else r_session r +:+ nl +:+ nl +:+ GetPrompt a) +:+ rest.
Proof.
  unfold buildPrompt.
  set (p1 := if String.eqb (r_session r) "" then GetPrompt a
             else r_session r +:+ nl +:+ nl +:+ GetPrompt a).
  destruct (String.eqb (GetContext (r_history r)) "");
    destruct (app _ _) as [|t ts].
  - exists "". rewrite str_app_nil_r. reflexivity.
  - eexists. reflexivity.
  - eexists. reflexivity.
  - eexists. rewrite !str_app_assoc. reflexivity.
Qed.

(** A session with messages, handed to the runner by [SetSessionHistory],
    comes first in every prompt, followed by a blank line and the task's
    prompt; a session without messages leaves prompts as with no session. *)
Theorem session_history_prefixes_prompt (s : Session) (a : Agent) (r : Runner) :
  (sess_messages s <> [] ->
   exists rest, buildPrompt a (SetSessionHistory r (GetHistory s)) =
                GetHistory s +:+ nl +:+ nl +:+ GetPrompt a +:+ rest) /\
  (sess_messages s = [] ->
   buildPrompt a (SetSessionHistory r (GetHistory s)) = buildPrompt a (SetSessionHistory r "")).
Proof.
  split.
  - intros Hne.
    assert (Hh : String.eqb (GetHistory s) "" = false).
    { unfold GetHistory. destruct (sess_messages s) as [|m ms]; [congruence|].
      rewrite foldl_append. reflexivity. }
    destruct (buildPrompt_session_prefix a (SetSessionHistory r (GetHistory s))) as [rest Hr].
    exists rest. rewrite Hr. cbn [SetSessionHistory r_session]. rewrite Hh, !str_app_assoc.
    reflexivity.
  - intros He. unfold GetHistory. rewrite He. reflexivity.
Qed.

Lemma cleanup_from_ids (sessions : list Session) :
  forall i cutoff id, In id (cleanup_from i sessions cutoff) -> In id (map sess_id sessions).
Proof.
  induction sessions as [|s ss IH]; intros i cutoff id Hin; [exact Hin|].
  simpl in Hin. apply in_app_or in Hin as [Hin|Hin].
  - destruct (_ || _); [destruct Hin as [<-|[]]; left; reflexivity|destruct Hin].
  - right. eapply IH. exact Hin.
Qed.

Lemma cleanup_from_spec (sessions : list Session) :
  forall j cutoff, List.NoDup (map sess_id sessions) ->
  forall i s, sessions !! i = Some s ->
    (In (sess_id s) (cleanup_from j sessions cutoff) <->
     (sess_updated s < cutoff)%Z \/ (MaxSessions <= j + i)%nat).
Proof.
  induction sessions as [|s0 ss IH]; intros j cutoff Hnd i s Hs; [discriminate|].
  simpl in Hnd. apply List.NoDup_cons_iff in Hnd as [Hnot Hnd].
  cbn [cleanup_from]. rewrite in_app_iff.
  destruct i as [|i].
  - injection Hs as <-.
    assert (Hr : ~ In (sess_id s0) (cleanup_from (S j) ss cutoff))
      by (intros Hin; apply Hnot; eapply cleanup_from_ids; exact Hin).
    destruct ((sess_updated s0 <? cutoff)%Z) eqn:Hu; destruct (Nat.leb MaxSessions j) eqn:Hm;
      cbn [orb]; simpl;
      rewrite ?Z.ltb_lt, ?Z.ltb_ge, ?Nat.leb_le, ?Nat.leb_gt in *; intuition lia.
  - cbn [lookup list_lookup] in Hs.
    assert (Hin : In (sess_id s) (map sess_id ss))
      by (apply in_map; apply list_elem_of_In; eapply list_elem_of_lookup_2; exact Hs).
    rewrite (IH (S j) cutoff Hnd i s Hs).
    assert (Hne : sess_id s0 <> sess_id s) by (intros He; apply Hnot; rewrite He; exact Hin).
    destruct (_ || _); simpl; intuition (try congruence; try lia).
Qed.

(** With distinct session ids (the ids of [ListSessions], newest first), [CleanupOldSessions]
    deletes a session exactly when it was last updated before the cutoff or
    is not among the [MaxSessions] newest ones. *)
Theorem CleanupOldSessions_spec (sessions : list Session) (cutoff : Z) :
  List.NoDup (map sess_id sessions) ->
  forall i s, sessions !! i = Some s ->
    (In (sess_id s) (CleanupOldSessions sessions cutoff) <->
     (sess_updated s < cutoff)%Z \/ (MaxSessions <= i)%nat).
Proof.
  intros Hnd i s Hs. unfold CleanupOldSessions.
  rewrite (cleanup_from_spec sessions 0 cutoff Hnd i s Hs). reflexivity.
Qed.

Lemma CleanupOldSessions_spec_witness :
  In "b" (CleanupOldSessions [mkSession "a" "wf" 0 10 []; mkSession "b" "wf" 0 3 []] 5) <->
  (3 < 5)%Z \/ (MaxSessions <= 1)%nat.
Proof.
  refine (CleanupOldSessions_spec [mkSession "a" "wf" 0 10 []; mkSession "b" "wf" 0 3 []] 5
            _ 1 (mkSession "b" "wf" 0 3 []) eq_refl).
  repeat constructor; simpl; intuition discriminate.
Defined.

(** ** Execute *)

Lemma iter_NextStep_fields (n : nat) (st : State) :
  CurrentStep (Nat.iter n NextStep st) = (CurrentStep st + n)%nat /\
  TotalSteps (Nat.iter n NextStep st) = TotalSteps st /\
  Status (Nat.iter n NextStep st) = Status st /\
  Error (Nat.iter n NextStep st) = Error st.
Proof.
  induction n as [|n IH]; simpl; [repeat split; lia|].
  destruct IH as [H1 [H2 [H3 H4]]]. rewrite H1, H2, H3, H4. repeat split; lia.
Qed.



(** [executeSupervisor] with no agent fails with ["no root agent found"]
    and runs nothing; otherwise its root is the first agent with sub-agents,
    or the first agent when none has any, and its outcome and response are
    those of running that one agent. *)
Theorem executeSupervisor_root (st : State) (r : Runner) :
  (r_agents r = [] ->
   executeSupervisor st r =
     (("", Some (External "no root agent found")),
      Fail (External "no root agent found") (Start st), r)) /\
  (forall pre a post,
     r_agents r = app pre (a :: post) ->
     Forall (fun b => IsSupervisor b = false) pre ->
     IsSupervisor a = true \/ (pre = [] /\ Forall (fun b => IsSupervisor b = false) post) ->
     executeSupervisor st r =
       match RunAgent a r with
       | (Err e, r1) => (("", Some e), Fail e (Start st), r1)
       | (Ok response, r1) => ((response, None), Complete (Start st), r1)
       end).
Proof.
  split.
  - intros H. unfold executeSupervisor. rewrite H. reflexivity.
  - intros pre a post Ha Hpre Hcase. unfold executeSupervisor.
    assert (Hroot : match find IsSupervisor (r_agents r) with
                    | Some a => Some a | None => head (r_agents r) end = Some a).
    { rewrite Ha. destruct Hcase as [Hs|[-> Hpost]].
      - assert (Hf : find IsSupervisor (app pre (a :: post)) = Some a).
        { clear Ha. induction pre as [|b pre IH]; simpl; [rewrite Hs; reflexivity|].
          apply Forall_cons in Hpre as [Hb Hpre]. rewrite Hb. apply IH. exact Hpre. }
        rewrite Hf. reflexivity.
      - simpl. destruct (IsSupervisor a); [reflexivity|].
        assert (Hf : find IsSupervisor post = None).
        { clear Ha. induction post as [|b post IH]; [reflexivity|].
          apply Forall_cons in Hpost as [Hb Hpost]. simpl. rewrite Hb. apply IH. exact Hpost. }
        rewrite Hf. reflexivity. }
    rewrite Hroot. reflexivity.
Qed.

(** Every run of [Execute] through one of its three executors leaves the
    State agreeing with what it returns: with no error the State is
    [Completed] and its [Error] as before; with an error [e] the State is
    [Failed] with [Error = e].  [TotalSteps] never changes, and
    [CurrentStep] moves only in a sequential workflow, by one per
    successful step: a parallel or supervisor run keeps it where it was. *)
Theorem Execute_state_agrees (wf : option Workflow) (order : list string) (st : State) (r : Runner) :
  (wf = None \/ exists w, wf = Some w /\ (wf_type w = "sequential" \/ wf_type w = "parallel")) ->
  let res := Execute wf order st r in
  ((snd (fst (fst res)) = None /\ Status (snd (fst res)) = StateCompleted /\
    Error (snd (fst res)) = Error st) \/
   (exists e, snd (fst (fst res)) = Some e /\ Status (snd (fst res)) = StateFailed /\
    Error (snd (fst res)) = Some e)) /\
  TotalSteps (snd (fst res)) = TotalSteps st /\
  (forall w, wf = Some w -> wf_type w = "sequential" ->
     snd (fst (fst res)) = None ->
     CurrentStep (snd (fst res)) = (CurrentStep st + length (wf_steps w))%nat) /\
  (forall w, wf = Some w -> wf_type w = "sequential" ->
     (CurrentStep (snd (fst res)) <= CurrentStep st + length (wf_steps w))%nat) /\
  ((wf = None \/ exists w, wf = Some w /\ wf_type w = "parallel") ->
     CurrentStep (snd (fst res)) = CurrentStep st).
Proof.
  intros Hwf. cbv zeta.
  destruct wf as [w|]; cycle 1.
  - unfold Execute, executeSupervisor.
    destruct (match find IsSupervisor (r_agents r) with
              | Some a => Some a | None => head (r_agents r) end) as [a|];
      [destruct (RunAgent a r) as [[resp|e] r1]|]; cbn;
      (split; [eauto 10|]); (split; [reflexivity|]);
      (split; [intros ? [=]|]); (split; [intros ? [=]|]); intros; reflexivity.
  - destruct Hwf as [[=]|[w' [[= <-] Hty]]].
    destruct (String.eqb (wf_type w) "sequential") eqn:Hseq.
    + apply String.eqb_eq in Hseq.
      unfold Execute. rewrite Hseq. cbn [String.eqb Ascii.eqb Bool.eqb andb].
      change (if String.eqb "sequential" "sequential" then executeSequential w st r
              else if String.eqb "sequential" "parallel" then executeParallel w order st r
              else (("", Some (External ("unknown workflow type: " +:+ "sequential"))), st, r))
        with (executeSequential w st r).
      unfold executeSequential.
      destruct (seq_steps_spec (wf_steps w) (Start st) r) as
        [[_ ->]|[pre [id [post [e [r' [Hsteps [_ [_ ->]]]]]]]]]; cbn [fst snd].
      * destruct (iter_NextStep_fields (length (wf_steps w)) (Start st)) as [H1 [H2 [H3 H4]]].
        cbn [Complete Status Error TotalSteps CurrentStep]. rewrite H1, H2, H4.
        cbn [Start CurrentStep TotalSteps Error].
        split; [left; auto|]. split; [reflexivity|].
        split; [intros ? [= <-] _ _; reflexivity|].
        split; [intros ? [= <-] _; lia|].
        intros [[=]|[? [[= <-] Hp]]]. rewrite Hseq in Hp. discriminate.
      * destruct (iter_NextStep_fields (length pre) (Start st)) as [H1 [H2 [H3 H4]]].
        cbn [Fail Status Error TotalSteps CurrentStep]. rewrite H1, H2.
        cbn [Start CurrentStep TotalSteps Error].
        split; [right; eauto|]. split; [reflexivity|].
        split; [intros _ _ _ [=]|].
        split; [intros ? [= <-] _; rewrite Hsteps, length_app; simpl; lia|].
        intros [[=]|[? [[= <-] Hp]]]. rewrite Hseq in Hp. discriminate.
    + destruct Hty as [Hty|Hty]; [rewrite Hty in Hseq; discriminate|].
      unfold Execute. rewrite Hseq, Hty. cbn [String.eqb Ascii.eqb Bool.eqb andb].
      change (if String.eqb "parallel" "parallel" then executeParallel w order st r
              else (("", Some (External ("unknown workflow type: " +:+ "parallel"))), st, r))
        with (executeParallel w order st r).
      assert (Hnseq : forall w0, Some w = Some w0 -> wf_type w0 = "sequential" -> False)
        by (intros ? [= <-] Hs; rewrite Hty in Hs; discriminate).
      unfold executeParallel.
      destruct (run_branches order None ∅ r) as [[[e|] res] r1];
        [|destruct (wf_then w) as [thenId|];
          [destruct (GetAgent r1 thenId) as [ta|];
           [destruct (RunAgent ta r1) as [[resp|e] r2]|]|]]; cbn;
        (split; [eauto 10|]); (split; [reflexivity|]);
        (split; [intros w0 Hw0 Hs; exfalso; eapply Hnseq; eauto|]);
        (split; [intros w0 Hw0 Hs; exfalso; eapply Hnseq; eauto|]); intros; reflexivity.
Qed.

Lemma Execute_state_agrees_witness :
  let res := Execute (Some (mkWorkflow "parallel" [] [] None)) [] (NewState 2) seq_runner in
  ((snd (fst (fst res)) = None /\ Status (snd (fst res)) = StateCompleted /\
    Error (snd (fst res)) = Error (NewState 2)) \/
   (exists e, snd (fst (fst res)) = Some e /\ Status (snd (fst res)) = StateFailed /\
    Error (snd (fst res)) = Some e)) /\
  TotalSteps (snd (fst res)) = TotalSteps (NewState 2) /\
  (forall w, Some (mkWorkflow "parallel" [] [] None) = Some w -> wf_type w = "sequential" ->
     snd (fst (fst res)) = None ->
     CurrentStep (snd (fst res)) = (CurrentStep (NewState 2) + length (wf_steps w))%nat) /\
  (forall w, Some (mkWorkflow "parallel" [] [] None) = Some w -> wf_type w = "sequential" ->
     (CurrentStep (snd (fst res)) <= CurrentStep (NewState 2) + length (wf_steps w))%nat) /\
  ((Some (mkWorkflow "parallel" [] [] None) = None \/
    exists w, Some (mkWorkflow "parallel" [] [] None) = Some w /\ wf_type w = "parallel") ->
     CurrentStep (snd (fst res)) = CurrentStep (NewState 2)).
Proof.
  apply (Execute_state_agrees (Some (mkWorkflow "parallel" [] [] None)) [] (NewState 2) seq_runner).
  right. eexists. split; [reflexivity|right; reflexivity].
Defined.

(** ** ExecutionStats *)

Definition completed_count (m : gmap string AgentStat) : nat :=
  length (filter (fun p : string * AgentStat => stat_completed p.2) (map_to_list m)).

Definition b2n_completed (o : option AgentStat) : nat :=
  match o with Some st => if stat_completed st then 1 else 0 | None => 0 end.

Lemma completed_count_insert_new (m : gmap string AgentStat) (i : string) (x : AgentStat) :
  m !! i = None ->
  completed_count (<[i := x]> m) = (completed_count m + b2n_completed (Some x))%nat.
Proof.
  intros Hi. unfold completed_count. rewrite (map_to_list_insert m i x Hi).
  cbn [b2n_completed]. rewrite filter_cons. simpl.
  destruct (stat_completed x); simpl; lia.
Qed.

Lemma completed_count_insert (m : gmap string AgentStat) (i : string) (x : AgentStat) :
  (completed_count (<[i := x]> m) + b2n_completed (m !! i) =
   completed_count m + b2n_completed (Some x))%nat.
Proof.
  destruct (m !! i) as [y|] eqn:Hi.
  - rewrite <- (insert_delete_eq m i x).
    rewrite <- (insert_id m i y Hi) at 2. rewrite <- (insert_delete_eq m i y).
    rewrite !completed_count_insert_new by apply lookup_delete_eq. lia.
  - rewrite completed_count_insert_new by exact Hi. simpl. lia.
Qed.

(** [CompleteAgent] for an agent that was never started changes nothing.
    [StartAgent] then [CompleteAgent] records the agent as completed with
    its duration and tokens, leaves the other agents alone, adds the
    tokens to the totals with Go's 64-bit wrap-around (plain sums while they
    stay in range), and raises [GetCompletedCount] by one unless the agent
    was already recorded as completed. *)
Theorem ExecutionStats_Start_Complete (s : ExecutionStats) (agentID role model : string)
    (t0 t1 inputTokens outputTokens : Z) :
  (forall s' id' i o t, stats_agents s' !! id' = None -> CompleteAgent s' id' i o t = s') /\
  let s2 := CompleteAgent (StartAgent s agentID role model t0) agentID inputTokens outputTokens t1 in
  stats_agents s2 !! agentID =
    Some (mkAgentStat agentID role model t0 (t1 - t0) inputTokens outputTokens true) /\
  (forall id', id' <> agentID -> stats_agents s2 !! id' = stats_agents s !! id') /\
  total_input s2 = add64 (total_input s) inputTokens /\
  total_output s2 = add64 (total_output s) outputTokens /\
  ((- 2^63 <= total_input s + inputTokens < 2^63)%Z ->
   total_input s2 = (total_input s + inputTokens)%Z) /\
  (GetCompletedCount s2 + b2n_completed (stats_agents s !! agentID) =
   GetCompletedCount s + 1)%nat.
Proof.
  split; [intros s' id' i o t H; unfold CompleteAgent; rewrite H; reflexivity|].
  cbv zeta. unfold CompleteAgent, StartAgent. cbn [stats_agents total_input total_output stats_start].
  rewrite lookup_insert_eq. cbn [stat_agent stat_role stat_model stat_start].
  cbn [stats_agents total_input total_output].
  split; [rewrite lookup_insert_eq; reflexivity|].
  split; [intros id' Hne; rewrite !lookup_insert_ne by congruence; reflexivity|].
  split; [reflexivity|]. split; [reflexivity|].
  split.
  - intros Hr. unfold add64. rewrite Z.mod_small by lia. lia.
  - unfold GetCompletedCount. cbn [stats_agents].
    rewrite insert_insert_eq.
    exact (completed_count_insert (stats_agents s) agentID _).
Qed.

(** ** Tool registry: Register, Get, GetByNames, MCP tools *)

Lemma registry_get_name (reg : registry) (name : string) (t : Tool) :
  registry_get reg name = Some t -> tool_name t = name /\ In t reg.
Proof.
  induction reg as [|t' reg IH]; simpl; [discriminate|].
  destruct (String.eqb (tool_name t') name) eqn:E.
  - intros [= <-]. apply String.eqb_eq in E. auto.
  - intros H. destruct (IH H). auto.
Qed.

Lemma registry_get_filter (reg : registry) (n name : string) :
  name <> n ->
  registry_get (filter (fun t' => negb (String.eqb (tool_name t') n)) reg) name =
  registry_get reg name.
Proof.
  intros Hne. induction reg as [|t reg IH]; [reflexivity|].
  rewrite filter_cons. simpl.
  destruct (String.eqb (tool_name t) n) eqn:En; simpl.
  - apply String.eqb_eq in En. rewrite En.
    rewrite (proj2 (String.eqb_neq n name)) by congruence. exact IH.
  - destruct (String.eqb (tool_name t) name); [reflexivity|exact IH].
Qed.

Lemma Register_get (reg : registry) (t : Tool) (name : string) :
  registry_get (Register reg t) name =
    if String.eqb (tool_name t) name then Some t else registry_get reg name.
Proof.
  unfold Register. cbn [registry_get].
  destruct (String.eqb (tool_name t) name) eqn:E; [reflexivity|].
  apply registry_get_filter. apply String.eqb_neq in E. congruence.
Qed.

(** [Register] then [Get]: the tool is found under its name, any tool of
    that name registered before is replaced, every other name resolves as
    before; and registering keeps the tool names of the registry distinct. *)
Theorem Register_Get (reg : registry) (t : Tool) :
  registry_get (Register reg t) (tool_name t) = Some t /\
  (forall name, name <> tool_name t -> registry_get (Register reg t) name = registry_get reg name) /\
  (List.NoDup (map tool_name reg) -> List.NoDup (map tool_name (Register reg t))).
Proof.
  split; [rewrite Register_get, String.eqb_refl; reflexivity|].
  split.
  - intros name Hne. rewrite Register_get.
    rewrite (proj2 (String.eqb_neq _ _)) by congruence. reflexivity.
  - intros Hnd. unfold Register. cbn [map]. constructor.
    + intros Hin. apply in_map_iff in Hin as [t' [Ht' Hin]].
      apply list_elem_of_In, list_elem_of_filter in Hin as [Hp _].
      rewrite Ht', String.eqb_refl in Hp. exact Hp.
    + induction reg as [|t' reg IH]; [constructor|].
      cbn [map] in Hnd. apply List.NoDup_cons_iff in Hnd as [Hn Hnd].
      rewrite filter_cons. destruct (negb _); [|exact (IH Hnd)].
      cbn [map]. constructor; [|exact (IH Hnd)].
      intros Hin. apply Hn. apply in_map_iff in Hin as [t'' [E Hin]].
      apply list_elem_of_In, list_elem_of_filter in Hin as [_ Hin].
      apply list_elem_of_In in Hin. rewrite <- E. apply in_map. exact Hin.
Qed.

(** [GetByNames] succeeds exactly when every name is registered, and then
    returns one tool per name, in the order of the names. *)
Theorem GetByNames_spec (reg : registry) (names : list string) :
  (forall ts, GetByNames reg names = Some ts -> map tool_name ts = names /\
     Forall (fun t => In t reg) ts) /\
  (GetByNames reg names = None <-> exists n, In n names /\ registry_get reg n = None).
Proof.
  induction names as [|n ns [IH1 IH2]]; simpl.
  - split; [intros ts [= <-]; split; [reflexivity|constructor]|].
    split; [discriminate|intros [n [[] _]]].
  - split.
    + intros ts Hts.
      destruct (registry_get reg n) as [t|] eqn:Ht; [|discriminate].
      destruct (GetByNames reg ns) as [ts'|]; [|discriminate].
      injection Hts as <-. destruct (IH1 ts' eq_refl) as [Hm Hf].
      apply registry_get_name in Ht as [Htn Hin].
      cbn [map]. rewrite Htn, Hm. split; [reflexivity|constructor; assumption].
    + destruct (registry_get reg n) as [t|] eqn:Ht.
      * destruct (GetByNames reg ns) as [ts'|] eqn:Hg.
        -- split; [discriminate|]. intros [m [[<-|Hm] Hmn]]; [congruence|].
           assert (Hc : Some ts' = None) by (apply IH2; eauto). discriminate.
        -- split; [|reflexivity]. intros _.
           destruct (proj1 IH2 eq_refl) as [m [Hm Hmn]]. eauto.
      * split; [|reflexivity]. intros _. exists n. auto.
Qed.

(** When one of the tools an agent lists is not registered, [buildPrompt]
    drops all of its listed tools: the prompt is the one it would build
    with no [tools] listed at all. *)
Theorem buildPrompt_unregistered_tool (a : Agent) (r : Runner) (n : string) :
  In n (Tools a) -> registry_get (r_registry r) n = None ->
  buildPrompt a r =
    buildPrompt (mkAgent (ID a) (Model a) (Role a) (Goal a) [] (Toolsets a)
                   (Instruction a) (SubAgents a) (Outputs a) (Requires a)) r.
Proof.
  intros Hin Hn.
  assert (Hg : GetByNames (r_registry r) (Tools a) = None)
    by (apply (proj2 (GetByNames_spec (r_registry r) (Tools a))); eauto).
  unfold buildPrompt, GetPrompt.
  cbn [ID Model Role Goal Tools Toolsets Instruction SubAgents Outputs Requires].
  destruct (Tools a) as [|x xs]; [destruct Hin|]. rewrite Hg. reflexivity.
Qed.

Lemma buildPrompt_unregistered_tool_witness :
  buildPrompt (mkAgent "T" "m" "solver" "solve" ["calc"; "search"] [] "" [] [] []) ts_runner =
  buildPrompt (mkAgent "T" "m" "solver" "solve" [] [] "" [] [] []) ts_runner.
Proof.
  apply (buildPrompt_unregistered_tool
           (mkAgent "T" "m" "solver" "solve" ["calc"; "search"] [] "" [] [] []) ts_runner "search");
    [simpl; auto|reflexivity].
Defined.

Lemma str_app_inj_l (s x y : string) : s +:+ x = s +:+ y -> x = y.
Proof. induction s as [|c s IH]; simpl; [auto|]. intros [= H]. exact (IH H). Qed.

Lemma str_prefix_app (s t : string) : String.prefix s (s +:+ t) = true.
Proof.
  induction s as [|c s IH]; [destruct t; reflexivity|].
  simpl. destruct (Ascii.ascii_dec c c); [exact IH|congruence].
Qed.

Lemma str_length_app (s t : string) :
  String.length (s +:+ t) = (String.length s + String.length t)%nat.
Proof. induction s as [|c s IH]; simpl; [reflexivity|]. rewrite IH. reflexivity. Qed.

Lemma ParseToolCalls_names (response : string) (c : ToolCall) :
  In c (ParseToolCalls response) -> is_tool_name (tc_name c) = true.
Proof.
  unfold ParseToolCalls. intros Hin. apply in_map_iff in Hin as [[n i] [<- Hin]].
  pose proof (find_all_names _ _ n i Hin) as Hn. cbn [tc_name].
  rewrite (TrimSpace_name n (is_tool_name_chars n Hn)). exact Hn.
Qed.

Lemma tool_name_not_MCP (n serverName toolName : string) :
  is_tool_name n = true -> n <> MCPTool_Name serverName toolName.
Proof.
  intros Hn E. pose proof (is_tool_name_chars _ Hn) as H.
  rewrite E in H. unfold MCPTool_Name in H.
  rewrite !all_chars_app in H. simpl in H.
  rewrite andb_false_r in H. discriminate.
Qed.

Lemma RegisterMCPTools_get (call : string -> string -> string -> string * option err)
    (serverName : string) (ds : list MCPToolDef) :
  forall reg name,
    registry_get (foldl (fun reg d => Register reg (MCPTool call serverName d)) reg ds) name =
    match find (fun d => String.eqb (MCPTool_Name serverName (mcp_name d)) name) (rev ds) with
    | Some d => Some (MCPTool call serverName d)
    | None => registry_get reg name
    end.
Proof.
  induction ds as [|d ds IH] using rev_ind; intros reg name; [reflexivity|].
  rewrite foldl_app, rev_app_distr. cbn [foldl rev app find].
  rewrite Register_get. cbn [MCPTool tool_name].
  destruct (String.eqb (MCPTool_Name serverName (mcp_name d)) name); [reflexivity|].
  apply IH.
Qed.

(** [RegisterMCPTools]: when [GetTools] fails, the error is returned and
    nothing is registered.  Otherwise each server tool [n] is found under
    ["server.n"] (the last definition of that name wins), [GetByPrefix]
    with ["server."] lists it when its name is not empty (so a task with
    the toolset ["server"] is offered it), and no name a response's tool
    call can carry resolves differently than before: executing the calls
    parsed from any response gives the same results. *)
Theorem RegisterMCPTools_spec (call : string -> string -> string -> string * option err)
    (reg : registry) (serverName : string) (defs : result (list MCPToolDef)) :
  (forall e, defs = Err e -> RegisterMCPTools call reg serverName defs = (Err e, reg)) /\
  (forall ds, defs = Ok ds ->
     fst (RegisterMCPTools call reg serverName defs) = Ok tt /\
     (forall n, registry_get (snd (RegisterMCPTools call reg serverName defs))
                  (MCPTool_Name serverName n) =
        match find (fun d => String.eqb (mcp_name d) n) (rev ds) with
        | Some d => Some (MCPTool call serverName d)
        | None => registry_get reg (MCPTool_Name serverName n)
        end) /\
     (forall d, In d ds -> mcp_name d <> "" ->
        find (fun d' => String.eqb (mcp_name d') (mcp_name d)) (rev ds) = Some d ->
        In (MCPTool call serverName d)
           (GetByPrefix (snd (RegisterMCPTools call reg serverName defs)) (serverName +:+ "."))) /\
     (forall response,
        ExecuteToolCalls (snd (RegisterMCPTools call reg serverName defs)) (ParseToolCalls response) =
        ExecuteToolCalls reg (ParseToolCalls response))).
Proof.
  assert (Hfind : forall ds n,
            find (fun d => String.eqb (MCPTool_Name serverName (mcp_name d))
                             (MCPTool_Name serverName n)) ds =
            find (fun d => String.eqb (mcp_name d) n) ds).
  { intros ds n. induction ds as [|d ds IH]; [reflexivity|]. cbn [find]. rewrite IH.
    enough (Hd : String.eqb (MCPTool_Name serverName (mcp_name d)) (MCPTool_Name serverName n) =
                 String.eqb (mcp_name d) n) by (rewrite Hd; reflexivity).
    destruct (String.eqb (mcp_name d) n) eqn:E.
    - apply String.eqb_eq in E. rewrite E. apply String.eqb_refl.
    - apply String.eqb_neq. intros H. apply str_app_inj_l, str_app_inj_l in H.
      apply String.eqb_neq in E. contradiction. }
  split; [intros e ->; reflexivity|].
  intros ds ->. cbn [RegisterMCPTools fst snd].
  assert (Hget : forall n,
            registry_get (foldl (fun reg d => Register reg (MCPTool call serverName d)) reg ds)
              (MCPTool_Name serverName n) =
            match find (fun d => String.eqb (mcp_name d) n) (rev ds) with
            | Some d => Some (MCPTool call serverName d)
            | None => registry_get reg (MCPTool_Name serverName n)
            end)
    by (intros n; rewrite RegisterMCPTools_get, Hfind; reflexivity).
  split; [reflexivity|]. split; [exact Hget|]. split.
  - intros d Hin Hne Hlast.
    pose proof (Hget (mcp_name d)) as Hg. rewrite Hlast in Hg.
    apply registry_get_name in Hg as [_ Hin'].
    unfold GetByPrefix. apply list_elem_of_In, list_elem_of_filter. split.
    + cbn [MCPTool tool_name]. unfold MCPTool_Name.
      rewrite <- str_app_assoc, str_prefix_app, !str_length_app, andb_true_r.
      assert (Hl : Nat.ltb (String.length serverName + String.length ".")
                     (String.length serverName + String.length "." + String.length (mcp_name d)) = true)
        by (apply Nat.ltb_lt; destruct (mcp_name d); [congruence|simpl; lia]).
      rewrite Hl. exact I.
    + apply list_elem_of_In. exact Hin'.
  - intros response. unfold ExecuteToolCalls. apply map_ext_in. intros c Hc.
    unfold execute_tool_call. f_equal.
    pose proof (ParseToolCalls_names response c Hc) as Hn. clear Hc Hget.
    generalize reg. induction ds as [|d ds IH] using rev_ind; intros reg0; [reflexivity|].
    rewrite foldl_app. cbn [foldl]. rewrite Register_get. cbn [MCPTool tool_name].
    rewrite (proj2 (String.eqb_neq _ _)); [apply IH|].
    intros E. exact (tool_name_not_MCP _ serverName (mcp_name d) Hn (eq_sym E)).
Qed.

(** ** ParseToolCalls on well-formed tool blocks *)

(** A tool block in the format [FormatToolsForPrompt] asks for. *)
Definition tool_block (name input : string) : string :=
  tool_marker +:+ name +:+ nl +:+ input +:+ fence.

Fixpoint tool_blocks (bs : list (string * string)) : string :=
  match bs with
  | [] => ""
  | (n, i) :: bs' => tool_block n i +:+ tool_blocks bs'
  end.

Definition backquote : Ascii.ascii := Ascii.ascii_of_nat 96.

Definition no_backquote (s : string) : bool :=
  all_chars (fun c => negb (Ascii.eqb c backquote)) s.

Definition no_newline_backquote (s : string) : bool :=
  all_chars (fun c => negb (Ascii.eqb c newline) && negb (Ascii.eqb c backquote)) s.

Lemma drop_app (s x : string) : drop (String.length s) (s +:+ x) = x.
Proof. induction s as [|c s IH]; [destruct x; reflexivity|exact IH]. Qed.

Lemma take_name_app (n r : string) :
  all_chars is_name_char n = true -> take_name (n +:+ String newline r) = (n, String newline r).
Proof.
  induction n as [|c n IH]; [reflexivity|].
  cbn [all_chars]. intros H. apply andb_true_iff in H as [Hc Hn].
  change (String c n +:+ String newline r) with (String c (n +:+ String newline r)).
  cbn [take_name]. rewrite Hc, (IH Hn). reflexivity.
Qed.

Lemma prefix_cons_neq (a c : Ascii.ascii) (s1 s2 : string) :
  a <> c -> String.prefix (String a s1) (String c s2) = false.
Proof. intros H. simpl. destruct (Ascii.ascii_dec a c); congruence. Qed.

Lemma take_until_fence_cons (c : Ascii.ascii) (s : string) :
  String.prefix fence (String c s) = false ->
  take_until_fence (String c s) =
    match take_until_fence s with Some (b, r) => Some (String c b, r) | None => None end.
Proof. intros H. cbn [take_until_fence]. rewrite H. reflexivity. Qed.

Lemma take_until_fence_app (i rest : string) :
  no_backquote i = true -> take_until_fence (i +:+ fence +:+ rest) = Some (i, rest).
Proof.
  induction i as [|c i IH].
  - intros _. destruct rest; reflexivity.
  - unfold no_backquote. cbn [all_chars]. intros H. apply andb_true_iff in H as [Hc Hi].
    change (String c i +:+ fence +:+ rest) with (String c (i +:+ fence +:+ rest)).
    assert (Hp : String.prefix fence (String c (i +:+ fence +:+ rest)) = false).
    { change fence with (String backquote "``"). apply prefix_cons_neq.
      intros E. subst c. rewrite Ascii.eqb_refl in Hc. discriminate Hc. }
    rewrite take_until_fence_cons by exact Hp. rewrite (IH Hi). reflexivity.
Qed.

Lemma match_at_block (n i rest : string) :
  is_tool_name n = true -> no_backquote i = true ->
  match_at (tool_block n i +:+ rest) = Some (n, i, rest).
Proof.
  intros Hn Hi. unfold tool_block. rewrite !str_app_assoc.
  unfold match_at. rewrite str_prefix_app.
  change 8 with (String.length tool_marker). rewrite drop_app.
  pose proof (is_tool_name_chars n Hn) as Hc.
  destruct n as [|c n']; [discriminate|].
  cbn [is_tool_name] in Hn. apply andb_true_iff in Hn as [Hs _].
  change (String c n' +:+ nl +:+ i +:+ fence +:+ rest)
    with (String c (n' +:+ nl +:+ i +:+ fence +:+ rest)).
  cbv beta iota. rewrite Hs.
  change (String c (n' +:+ nl +:+ i +:+ fence +:+ rest))
    with (String c n' +:+ String newline (i +:+ fence +:+ rest)).
  rewrite (take_name_app _ _ Hc).
  cbn [Ascii.eqb newline]. rewrite Ascii.eqb_refl.
  rewrite (take_until_fence_app i rest Hi). reflexivity.
Qed.

Lemma find_all_blocks (bs : list (string * string)) :
  Forall (fun '(n, i) => is_tool_name n = true /\ no_backquote i = true) bs ->
  forall fuel, (String.length (tool_blocks bs) < fuel)%nat ->
  find_all fuel (tool_blocks bs) = bs.
Proof.
  induction bs as [|[n i] bs IH]; intros Hbs fuel Hf.
  - destruct fuel; reflexivity.
  - apply Forall_cons in Hbs as [[Hn Hi] Hbs].
    destruct fuel as [|fuel]; [lia|].
    cbn [tool_blocks] in *.
    assert (Hs : exists c s', tool_block n i +:+ tool_blocks bs = String c s')
      by (eexists _, _; reflexivity).
    destruct Hs as [c [s' Hs]]. rewrite Hs. cbn [find_all]. rewrite <- Hs.
    rewrite (match_at_block n i _ Hn Hi). f_equal. apply IH; [exact Hbs|].
    rewrite str_length_app in Hf. unfold tool_block in Hf. simpl in Hf. lia.
Qed.

(** [ParseToolCalls] reads back every block written in the format the
    prompt teaches, in order: for blocks whose names match the name
    pattern and whose inputs hold no backquote, it returns one call per
    block, with the block's name and its input trimmed of surrounding white
    space. *)
Theorem ParseToolCalls_tool_blocks (bs : list (string * string)) :
  Forall (fun '(n, i) => is_tool_name n = true /\ no_backquote i = true) bs ->
  ParseToolCalls (tool_blocks bs) = map (fun '(n, i) => mkCall n (TrimSpace i)) bs.
Proof.
  intros Hbs. unfold ParseToolCalls.
  rewrite (find_all_blocks bs Hbs (S (String.length (tool_blocks bs)))) by lia.
  apply map_ext_in. intros [n i] Hin. f_equal.
  rewrite Forall_forall in Hbs. destruct (Hbs (n, i) (proj2 (list_elem_of_In _ _) Hin)) as [Hn _].
  exact (TrimSpace_name n (is_tool_name_chars n Hn)).
Qed.

Lemma ParseToolCalls_tool_blocks_witness :
  ParseToolCalls (tool_blocks [("calc", " 1+2" +:+ nl); ("search", "rocq")]) =
    [mkCall "calc" (TrimSpace (" 1+2" +:+ nl)); mkCall "search" (TrimSpace "rocq")].
Proof.
  apply (ParseToolCalls_tool_blocks [("calc", " 1+2" +:+ nl); ("search", "rocq")]).
  repeat constructor.
Defined.

(** ** A tool call written with an MCP tool's dotted name *)

Lemma all_chars_impl (p q : Ascii.ascii -> bool) (s : string) :
  (forall c, p c = true -> q c = true) -> all_chars p s = true -> all_chars q s = true.
Proof.
  intros Hpq. induction s as [|c s IH]; [reflexivity|]. cbn [all_chars].
  intros H. apply andb_true_iff in H as [Hc Hs]. rewrite (Hpq c Hc), (IH Hs). reflexivity.
Qed.

Lemma take_name_stops (x z : string) :
  all_chars (fun c => negb (Ascii.eqb c newline)) x = true ->
  exists n c' r, take_name (x +:+ "." +:+ z) = (n, String c' r) /\ Ascii.eqb c' newline = false.
Proof.
  induction x as [|c x IH]; intros Hx.
  - exists "", (Ascii.ascii_of_nat 46), z. split; reflexivity.
  - cbn [all_chars] in Hx. apply andb_true_iff in Hx as [Hc Hx].
    change (String c x +:+ "." +:+ z) with (String c (x +:+ "." +:+ z)). cbn [take_name].
    destruct (is_name_char c).
    + destruct (IH Hx) as [n [c' [r [Ht Hc']]]]. rewrite Ht. eauto.
    + exists "", c, (x +:+ "." +:+ z). split; [reflexivity|]. apply negb_true_iff. exact Hc.
Qed.

Lemma match_at_dotted (server y : string) :
  all_chars (fun c => negb (Ascii.eqb c newline)) server = true ->
  match_at (tool_marker +:+ server +:+ "." +:+ y) = None.
Proof.
  intros Hs. unfold match_at. rewrite str_prefix_app.
  change 8 with (String.length tool_marker). rewrite drop_app.
  destruct server as [|c s'].
  - reflexivity.
  - change (String c s' +:+ "." +:+ y) with (String c (s' +:+ "." +:+ y)). cbv beta iota.
    destruct (is_name_start c); [|reflexivity].
    change (String c (s' +:+ "." +:+ y)) with (String c s' +:+ "." +:+ y).
    destruct (take_name_stops (String c s') y Hs) as [n [c' [r [Ht Hc']]]].
    rewrite Ht, Hc'. reflexivity.
Qed.

Lemma find_all_skip (c : Ascii.ascii) (s : string) (fuel : nat) :
  match_at (String c s) = None -> find_all (S fuel) (String c s) = find_all fuel s.
Proof. intros H. cbn [find_all]. rewrite H. reflexivity. Qed.

Lemma find_all_no_marker (x : string) :
  no_backquote x = true -> forall fuel, find_all fuel (x +:+ fence) = [].
Proof.
  induction x as [|c x IH]; intros Hx fuel.
  - destruct fuel as [|[|[|[|fuel]]]]; reflexivity.
  - unfold no_backquote in Hx. cbn [all_chars] in Hx. apply andb_true_iff in Hx as [Hc Hx].
    destruct fuel as [|fuel]; [reflexivity|].
    change (String c x +:+ fence) with (String c (x +:+ fence)).
    rewrite find_all_skip; [exact (IH Hx fuel)|].
    unfold match_at. change tool_marker with (String backquote "``tool:").
    rewrite prefix_cons_neq; [reflexivity|].
    intros E. subst c. rewrite Ascii.eqb_refl in Hc. discriminate Hc.
Qed.

(** A tool block naming a tool by the ["server.tool"] name under which
    [RegisterMCPTools] registers it (a server name with no line break or
    backquote, no backquote in the tool name or input) is seen by
    [HasToolCalls] but yields no call from [ParseToolCalls]: the dot ends
    the name before the required line break.  [tool_round_trip] then
    returns the response as the answer, with no tool run and no follow-up
    generation. *)
Theorem MCP_tool_block_not_parsed (server tool input : string) :
  no_newline_backquote server = true -> no_backquote tool = true -> no_backquote input = true ->
  HasToolCalls (tool_block (MCPTool_Name server tool) input) = true /\
  ParseToolCalls (tool_block (MCPTool_Name server tool) input) = [] /\
  (forall a prompt r,
     tool_round_trip a prompt (tool_block (MCPTool_Name server tool) input) r =
       (tool_block (MCPTool_Name server tool) input, r)).
Proof.
  intros Hs Ht Hi.
  set (W := server +:+ "." +:+ tool +:+ nl +:+ input +:+ fence).
  assert (E : tool_block (MCPTool_Name server tool) input = tool_marker +:+ W)
    by (unfold tool_block, MCPTool_Name, W; rewrite !str_app_assoc; reflexivity).
  assert (Hnl : all_chars (fun c => negb (Ascii.eqb c newline)) server = true)
    by (revert Hs; apply all_chars_impl; intros c Hc; apply andb_true_iff in Hc; apply Hc).
  assert (Hx : no_backquote (server +:+ "." +:+ tool +:+ nl +:+ input) = true).
  { unfold no_backquote. rewrite !all_chars_app. cbn [all_chars].
    rewrite (all_chars_impl
               (fun c => negb (Ascii.eqb c newline) && negb (Ascii.eqb c backquote))
               (fun c => negb (Ascii.eqb c backquote)) server); [|
      intros c Hc; apply andb_true_iff in Hc; apply Hc|exact Hs].
    unfold no_backquote in Ht, Hi. rewrite Ht, Hi. reflexivity. }
  assert (HW : W = (server +:+ "." +:+ tool +:+ nl +:+ input) +:+ fence)
    by (unfold W; rewrite !str_app_assoc; reflexivity).
  assert (Hp : forall fuel, find_all fuel (tool_marker +:+ W) = []).
  { intros fuel. destruct fuel as [|f]; [reflexivity|].
    change (tool_marker +:+ W) with (String backquote ("``tool:" +:+ W)).
    rewrite find_all_skip by exact (match_at_dotted server _ Hnl).
    do 7 (destruct f as [|f]; [reflexivity|];
          etransitivity; [apply find_all_skip; reflexivity|]).
    change ("" +:+ W) with W. rewrite HW. apply (find_all_no_marker _ Hx). }
  assert (Hparse : ParseToolCalls (tool_block (MCPTool_Name server tool) input) = [])
    by (unfold ParseToolCalls; rewrite E, Hp; reflexivity).
  assert (Hhas : HasToolCalls (tool_block (MCPTool_Name server tool) input) = true).
  { rewrite E. unfold HasToolCalls. change (tool_marker +:+ W) with (String backquote ("``tool:" +:+ W)).
    cbn [Contains]. change (String backquote ("``tool:" +:+ W)) with (tool_marker +:+ W).
    rewrite str_prefix_app. reflexivity. }
  split; [exact Hhas|]. split; [exact Hparse|].
  intros a prompt r. unfold tool_round_trip.
  destruct (Tools a); [reflexivity|]. rewrite Hhas, Hparse. reflexivity.
Qed.

Lemma MCP_tool_block_not_parsed_witness :
  HasToolCalls (tool_block (MCPTool_Name "github" "search_issues") "repo:rocq") = true /\
  ParseToolCalls (tool_block (MCPTool_Name "github" "search_issues") "repo:rocq") = [] /\
  (forall a prompt r,
     tool_round_trip a prompt (tool_block (MCPTool_Name "github" "search_issues") "repo:rocq") r =
       (tool_block (MCPTool_Name "github" "search_issues") "repo:rocq", r)).
Proof. apply MCP_tool_block_not_parsed; reflexivity. Defined.

(** ** GetAgent and the Output History written by RunAgent *)

(** [GetAgent] returns the first agent with the requested id, and
    [None] exactly when no agent has it. *)
Theorem GetAgent_first (r : Runner) (id : string) :
  (forall a, GetAgent r id = Some a -> ID a = id /\ In a (r_agents r)) /\
  (forall pre a post, r_agents r = app pre (a :: post) -> ID a = id ->
     Forall (fun b => ID b <> id) pre -> GetAgent r id = Some a) /\
  (GetAgent r id = None <-> Forall (fun b => ID b <> id) (r_agents r)).
Proof.
  unfold GetAgent. split; [|split].
  - intros a H. apply find_some in H as [Hin Hid]. apply String.eqb_eq in Hid. auto.
  - intros pre a post -> Hid Hpre. induction pre as [|b pre IH]; simpl.
    + rewrite Hid, String.eqb_refl. reflexivity.
    + apply Forall_cons in Hpre as [Hb Hpre].
      rewrite (proj2 (String.eqb_neq _ _) Hb). exact (IH Hpre).
  - induction (r_agents r) as [|b agents IH]; simpl; [split; [constructor|reflexivity]|].
    rewrite Forall_cons. destruct (String.eqb (ID b) id) eqn:E.
    + apply String.eqb_eq in E. split; [discriminate|intros [Hb _]; contradiction].
    + apply String.eqb_neq in E. rewrite IH. tauto.
Qed.

Lemma await_keys_history (a : Agent) (data : store) (keys : list string) :
  forall r,
    exists extra,
      r_history (snd (await_keys a data keys r)) = app (r_history r) extra /\
      Forall (fun o => exists k, In k keys /\ AgentID o = "shared:" +:+ k) extra /\
      (fst (await_keys a data keys r) = Ok tt ->
       map AgentID extra = map (fun k => "shared:" +:+ k) keys).
Proof.
  induction keys as [|key keys IH]; intros r; simpl.
  - exists []. rewrite app_nil_r. split; [reflexivity|]. split; [constructor|reflexivity].
  - destruct (WaitFor data key requiredKeyTimeout (r_now r) []) as [[[[v|e] d] t]|].
    + destruct (IH (set_history (set_clock r t (r_log r))
                    (AddOutput (r_history r) ("shared:" +:+ key) v)))
        as [extra [Hh [Hf Hok]]].
      exists (mkOutput ("shared:" +:+ key) v :: extra).
      rewrite Hh. cbn [set_history set_clock r_history AddOutput].
      split; [unfold AddOutput; rewrite <- app_assoc; reflexivity|].
      split.
      * constructor; [exists key; simpl; auto|].
        apply (Forall_impl _ _ _ Hf). intros o [k [Hk Ho]]. exists k. simpl. auto.
      * intros H. cbn [map AgentID]. rewrite (Hok H). reflexivity.
    + exists []. rewrite app_nil_r. split; [reflexivity|]. split; [constructor|discriminate].
    + exists []. rewrite app_nil_r. split; [reflexivity|]. split; [constructor|discriminate].
Qed.

(** [RunAgent] only appends to the Output History: first one entry
    ["shared:<key>"] per required key read from SharedMemory (on success,
    exactly one per key of [requires], in order), then, on success only,
    the task's own entry with its final response.  A failed run leaves
    SharedMemory as it was. *)
Theorem RunAgent_history_shape (a : Agent) (r : Runner) :
  exists extra,
    Forall (fun o => exists k, In k (Requires a) /\ AgentID o = "shared:" +:+ k) extra /\
    match RunAgent a r with
    | (Ok s, r') =>
        r_history r' = app (r_history r) (app extra [mkOutput (ID a) s]) /\
        map AgentID extra = match r_shared r with
                            | Some _ => map (fun k => "shared:" +:+ k) (Requires a)
                            | None => []
                            end
    | (Err _, r') => r_history r' = app (r_history r) extra /\ r_shared r' = r_shared r
    end.
Proof.
  assert (Hawait : exists extra,
            r_history (snd (await_required a r)) = app (r_history r) extra /\
            Forall (fun o => exists k, In k (Requires a) /\ AgentID o = "shared:" +:+ k) extra /\
            (fst (await_required a r) = Ok tt ->
             map AgentID extra = match r_shared r with
                                 | Some _ => map (fun k => "shared:" +:+ k) (Requires a)
                                 | None => []
                                 end)).
  { unfold await_required. destruct (r_shared r) as [data|].
    - destruct (Requires a) as [|k ks] eqn:Hr.
      + exists []. rewrite app_nil_r. split; [reflexivity|]. split; [constructor|reflexivity].
      + rewrite <- Hr. apply await_keys_history.
    - exists []. rewrite app_nil_r. split; [reflexivity|]. split; [constructor|reflexivity]. }
  destruct Hawait as [extra [Hh [Hf Hok]]].
  destruct (await_required_effects a r) as [_ [S1 _]].
  destruct (RunAgent_cases a r) as
    [[_ H]|[[_ [e [r1 [Ha H]]]]|[[_ [u [r1 [e [r2 [Ha [Hg H]]]]]]]|
      [_ [u [r1 [response [r2 [response' [r3 [Ha [Hg [Ht H]]]]]]]]]]]]];
    rewrite H.
  - exists []. split; [constructor|]. rewrite app_nil_r. split; reflexivity.
  - rewrite Ha in Hh, S1. exists extra. split; [exact Hf|]. split; [exact Hh|exact S1].
  - rewrite Ha in Hh, S1. exists extra. split; [exact Hf|].
    destruct (gen_loop_effects maxRetries 1 (Ok "") (Model a) (buildPrompt a r1) r1)
      as [_ [S2 [H2 _]]].
    unfold retry_generate in Hg. rewrite Hg in S2, H2. cbn [snd] in *.
    split; congruence.
  - rewrite Ha in Hh, S1, Hok. cbn [fst snd] in *. exists extra. split; [exact Hf|].
    destruct (gen_loop_effects maxRetries 1 (Ok "") (Model a) (buildPrompt a r1) r1)
      as [_ [_ [H2 _]]].
    unfold retry_generate in Hg. rewrite Hg in H2. cbn [snd] in H2.
    destruct (tool_round_trip_effects a (buildPrompt a r1) response r2) as [_ [_ H3]].
    rewrite Ht in H3. cbn [snd] in H3.
    destruct (publish_outputs_effects a response'
                (set_history r3 (AddOutput (r_history r3) (ID a) response'))) as [_ [Hp _]].
    rewrite Hp. cbn [set_history r_history AddOutput].
    destruct u. split; [unfold AddOutput; rewrite H3, H2, Hh, <- app_assoc; reflexivity|exact (Hok eq_refl)].
Qed.

(** ** The output of a successful parallel workflow *)

Lemma task_outcome_ok_last (id : string) (r r' : Runner) (s : string) :
  task_outcome id r = (Ok s, r') -> GetLastOutput (r_history r') = s.
Proof.
  unfold task_outcome. destruct (GetAgent r id) as [a|]; [|discriminate].
  intros H. destruct (RunAgent_ok_history a r r' s H) as [h ->].
  unfold GetLastOutput. rewrite last_snoc. reflexivity.
Qed.

(** When every branch succeeds, [executeParallel] completes with no error
    and never reads the branch results it collects: without [then], its
    output is the response of the branch that took [mu] last (the last
    entry of the Output History), which depends on the goroutine schedule;
    with [then], it is the aggregator's response, when the aggregator
    runs and succeeds. *)
Theorem executeParallel_success_output (wf : Workflow) (order : list string)
    (st : State) (r : Runner) :
  tasks_ok order r ->
  (wf_then wf = None ->
   forall pre id s r',
     order = app pre [id] -> task_outcome id (run_tasks pre r) = (Ok s, r') ->
     executeParallel wf order st r = ((s, None), Complete (Start st), run_tasks order r)) /\
  (forall thenId ta s r2,
     wf_then wf = Some thenId ->
     GetAgent (run_tasks order r) thenId = Some ta ->
     RunAgent ta (run_tasks order r) = (Ok s, r2) ->
     executeParallel wf order st r = ((s, None), Complete (Start st), r2)).
Proof.
  intros Hok.
  assert (Hrb : fst (fst (run_branches order None ∅ r)) = None).
  { destruct (run_branches_first_err order ∅ r) as [[_ H]|[pre [id [post [e [-> [_ [He _]]]]]]]];
      [exact H|].
    destruct (tasks_ok_app_inv pre id post r Hok) as [s Hs]. congruence. }
  pose proof (run_branches_runner order None ∅ r) as Hrr.
  unfold executeParallel.
  destruct (run_branches order None ∅ r) as [[fe res] r1]. cbn [fst snd] in Hrb, Hrr.
  subst fe r1. split.
  - intros Hthen pre id s r' -> Ht. rewrite Hthen.
    rewrite run_tasks_app. cbn [run_tasks]. rewrite Ht. cbn [snd].
    unfold GetFinalOutput. rewrite (task_outcome_ok_last id _ r' s Ht). reflexivity.
  - intros thenId ta s r2 Hthen Hg Hrun. rewrite Hthen, Hg, Hrun.
    unfold GetFinalOutput. unfold task_outcome in Hrun.
    destruct (RunAgent_ok_history ta (run_tasks order r) r2 s Hrun) as [h ->].
    unfold GetLastOutput. rewrite last_snoc. reflexivity.
Qed.

Lemma executeParallel_success_output_witness :
  executeParallel (mkWorkflow "parallel" [] ["A"; "B"] None) ["A"; "B"] (NewState 2) seq_runner =
    (("the article", None), Complete (Start (NewState 2)), run_tasks ["A"; "B"] seq_runner).
Proof.
  assert (Hok : tasks_ok ["A"; "B"] seq_runner)
    by (vm_compute; split; [eexists; reflexivity|split; [eexists; reflexivity|exact I]]).
  destruct (executeParallel_success_output (mkWorkflow "parallel" [] ["A"; "B"] None)
              ["A"; "B"] (NewState 2) seq_runner Hok) as [H _].
  apply (H eq_refl ["A"] "B" "the article" (snd (task_outcome "B" (run_tasks ["A"] seq_runner))));
    [reflexivity|vm_compute; reflexivity].
Defined.

(** ** Tools offered in the prompt *)

Lemma substring_app_l (x p s : string) : substring x s -> substring x (p +:+ s).
Proof. intros [pre [post ->]]. exists (p +:+ pre), post. rewrite !str_app_assoc. reflexivity. Qed.

Lemma substring_app_r (x s q : string) : substring x s -> substring x (s +:+ q).
Proof. intros [pre [post ->]]. exists pre, (post +:+ q). rewrite !str_app_assoc. reflexivity. Qed.

Definition tool_line (t : Tool) : string :=
  "- **" +:+ tool_name t +:+ "**: " +:+ tool_description t +:+ nl.

Lemma foldr_tool_line (ts : list Tool) (t : Tool) :
  In t ts ->
  substring (tool_line t)
    (foldr (fun t acc => "- **" +:+ tool_name t +:+ "**: " +:+
                         tool_description t +:+ nl +:+ acc) "" ts).
Proof.
  induction ts as [|t' ts IH]; [intros []|]. intros [->|Hin]; cbn [foldr].
  - exists "", (foldr (fun t acc => "- **" +:+ tool_name t +:+ "**: " +:+
                         tool_description t +:+ nl +:+ acc) "" ts).
    unfold tool_line. rewrite !str_app_assoc. reflexivity.
  - destruct (IH Hin) as [pre [post E]]. rewrite E.
    exists ("- **" +:+ tool_name t' +:+ "**: " +:+ tool_description t' +:+ nl +:+ pre), post.
    rewrite !str_app_assoc. reflexivity.
Qed.

(** A task with the toolset [ts] is offered, in its prompt, every
    registered tool whose name is ["ts."] followed by at least one
    character, with its name and description, whatever the task's own
    [tools] list holds. *)
Theorem buildPrompt_offers_toolset_tools (a : Agent) (r : Runner) (ts : string) (t : Tool) :
  In ts (Toolsets a) -> In t (r_registry r) ->
  String.prefix (ts +:+ ".") (tool_name t) = true ->
  (String.length (ts +:+ ".") < String.length (tool_name t))%nat ->
  substring (tool_line t) (buildPrompt a r).
Proof.
  intros Hts Ht Hp Hl. unfold buildPrompt.
  set (listed := match Tools a with
                 | [] => []
                 | names => match GetByNames (r_registry r) names with
                            | Some ts => ts | None => [] end
                 end).
  set (fromSets := flat_map (fun ts => GetByPrefix (r_registry r) (ts +:+ ".")) (Toolsets a)).
  assert (Hin : In t (app listed fromSets)).
  { apply in_or_app. right. apply in_flat_map. exists ts. split; [exact Hts|].
    unfold GetByPrefix. apply list_elem_of_In, list_elem_of_filter. split.
    - rewrite Hp, andb_true_r. apply Nat.ltb_lt in Hl. rewrite Hl. exact I.
    - apply list_elem_of_In. exact Ht. }
  destruct (app listed fromSets) as [|x xs]; [destruct Hin|].
  pose proof (foldr_tool_line (x :: xs) t Hin) as Hsub.
  apply substring_app_l, substring_app_l, substring_app_l.
  unfold FormatToolsForPrompt. cbv beta iota.
  apply substring_app_l, substring_app_l, substring_app_l, substring_app_r. exact Hsub.
Qed.

Definition srv_search : Tool :=
  MCPTool (fun _ _ _ => ("", None)) "srv" (mkMCPToolDef "search" "find issues").

Lemma buildPrompt_offers_toolset_tools_witness :
  substring (tool_line srv_search)
    (buildPrompt ts_agent (mkRunner [ts_agent] ["m"] [] "" None [ts_calc; srv_search]
                             (fun _ _ _ => Ok "") 0 [])).
Proof.
  apply (buildPrompt_offers_toolset_tools ts_agent _ "srv" srv_search);
    [simpl; auto|simpl; auto|reflexivity|vm_compute; lia].
Defined.

(** ** [TrimSpace] returns a trimmed string *)

Lemma substring_drop (s : string) (n : nat) :
  String.substring n (String.length s - n) s = drop n s.
Proof.
  revert s. induction n as [|n IH]; intros s.
  - rewrite Nat.sub_0_r. apply substring_0_length.
  - destruct s as [|c s]; [reflexivity|]. apply IH.
Qed.

Lemma take_0 (s : string) : String.substring 0 0 s = EmptyString.
Proof. destruct s; reflexivity. Qed.

Lemma take_length (s : string) (n : nat) :
  (n <= String.length s)%nat -> String.length (String.substring 0 n s) = n.
Proof.
  revert n. induction s as [|c s IH]; intros [|n] H; simpl in *; try lia; try reflexivity.
  rewrite IH by lia. reflexivity.
Qed.

Lemma take_take (s : string) (j n : nat) :
  (j <= n)%nat -> String.substring 0 j (String.substring 0 n s) = String.substring 0 j s.
Proof.
  revert j n. induction s as [|c s IH]; intros [|j] [|n] H; simpl; try reflexivity; try lia.
  rewrite IH by lia. reflexivity.
Qed.

Lemma take_app_drop (s : string) (n : nat) : String.substring 0 n s +:+ drop n s = s.
Proof.
  revert n. induction s as [|c s IH]; intros [|n]; simpl; try reflexivity.
  change (String c (String.substring 0 n s) +:+ drop n s)
    with (String c (String.substring 0 n s +:+ drop n s)).
  rewrite IH. reflexivity.
Qed.

Lemma drop_take (s : string) (a j : nat) :
  (a <= j)%nat -> drop a (String.substring 0 j s) +:+ drop j s = drop a s.
Proof.
  revert a j. induction s as [|c s IH]; intros [|a] [|j] H; simpl; try reflexivity; try lia.
  - change (String c (String.substring 0 j s) +:+ drop j s)
      with (String c (String.substring 0 j s +:+ drop j s)).
    rewrite take_app_drop. reflexivity.
  - apply IH. lia.
Qed.

Lemma drop_length (s : string) (n : nat) :
  String.length (drop n s) = (String.length s - n)%nat.
Proof. revert n. induction s as [|c s IH]; intros [|n]; simpl; auto. Qed.

Lemma byte_at_drop (s : string) (i : nat) :
  byte_at s i = match drop i s with String c _ => byte_of c | EmptyString => 0%Z end.
Proof.
  unfold byte_at. revert i. induction s as [|c s IH]; intros [|i]; simpl; auto.
Qed.

Lemma get_drop (s : string) (i : nat) (c : Ascii.ascii) :
  String.get i s = Some c -> exists s', drop i s = String c s'.
Proof.
  revert i. induction s as [|c' s IH]; intros [|i] H; simpl in *; try discriminate.
  - injection H as <-. eauto.
  - eauto.
Qed.

Lemma get_take (s : string) (i n : nat) :
  (i < n)%nat -> String.get i (String.substring 0 n s) = String.get i s.
Proof.
  revert i n. induction s as [|c s IH]; intros [|i] [|n] H; simpl; try reflexivity; try lia.
  apply IH. lia.
Qed.

(** A byte that does not continue a UTF-8 sequence starts [s], if any. *)
Definition not_cont (s : string) : Prop :=
  match s with
  | EmptyString => True
  | String c _ => ((byte_of c <? 0x80) || (0xBF <? byte_of c))%Z = true
  end.

Lemma byte_of_range (c : Ascii.ascii) : (0 <= byte_of c < 256)%Z.
Proof.
  unfold byte_of. pose proof (Ascii.nat_ascii_bounded c). lia.
Qed.

Lemma first_info_bounds (b : Z) (sz : nat) (lo hi : Z) :
  first_info b = Some (sz, lo, hi) ->
  (2 <= sz <= 4)%nat /\ (0x80 <= lo)%Z /\ (hi <= 0xBF)%Z /\ (0xC2 <= b)%Z.
Proof.
  unfold first_info.
  repeat match goal with |- context [if ?c then _ else _] => destruct c eqn:? end;
    intros H; try discriminate; injection H as <- <- <-;
    repeat match goal with H : (_ <=? _)%Z = _ |- _ => apply Z.leb_le in H || apply Z.leb_gt in H
                      | H : (_ =? _)%Z = _ |- _ => apply Z.eqb_eq in H || apply Z.eqb_neq in H end;
    lia.
Qed.

Lemma IsSpace_RuneError : IsSpace RuneError = false.
Proof. reflexivity. Qed.

Lemma IsSpace_ascii (c : Ascii.ascii) :
  (byte_of c <? RuneSelf)%Z = true -> IsSpace (byte_of c) = is_space c.
Proof. revert c. intros [[] [] [] [] [] [] [] []]; vm_compute; congruence. Qed.

Lemma dec_ascii (c : Ascii.ascii) (s : string) :
  (byte_of c <? RuneSelf)%Z = true -> DecodeRuneInString (String c s) = (byte_of c, 1%nat).
Proof. intros H. unfold DecodeRuneInString. simpl. unfold byte_at. simpl. rewrite H. reflexivity. Qed.

Lemma byte_at_app_l (p q : string) (k : nat) :
  (k < String.length p)%nat -> byte_at (p +:+ q) k = byte_at p k.
Proof.
  unfold byte_at. revert k. induction p as [|c p IH]; intros [|k] H; simpl in *; try lia; auto.
  apply IH. lia.
Qed.

(** Decoding a non-empty prefix of a string reads the same rune, or fails
    because the prefix cuts the rune short. *)
Lemma dec_app (p q : string) :
  p <> EmptyString ->
  DecodeRuneInString (p +:+ q) = DecodeRuneInString p \/
  DecodeRuneInString p = (RuneError, 1%nat).
Proof.
  intros Hp.
  assert (Hl : (1 <= String.length p)%nat) by (destruct p; [congruence|simpl; lia]).
  unfold DecodeRuneInString. cbv zeta.
  rewrite str_length_app, (byte_at_app_l p q 0) by lia.
  destruct (Nat.ltb (String.length p + String.length q) 1) eqn:E1;
    [apply Nat.ltb_lt in E1; lia|].
  destruct (Nat.ltb (String.length p) 1) eqn:E2; [apply Nat.ltb_lt in E2; lia|].
  destruct (byte_at p 0 <? RuneSelf)%Z; [left; reflexivity|].
  destruct (first_info (byte_at p 0)) as [[[sz lo] hi]|] eqn:Ef; [|left; reflexivity].
  destruct (first_info_bounds _ _ _ _ Ef) as [Hsz _].
  destruct (Nat.ltb (String.length p) sz) eqn:E3; [right; reflexivity|].
  apply Nat.ltb_ge in E3.
  replace (Nat.ltb (String.length p + String.length q) sz) with false
    by (symmetry; apply Nat.ltb_ge; lia).
  left. rewrite (byte_at_app_l p q 1) by lia.
  destruct (_ || _); [reflexivity|].
  destruct (Nat.leb sz 2) eqn:E4; [reflexivity|]. apply Nat.leb_gt in E4.
  rewrite (byte_at_app_l p q 2) by lia.
  destruct (_ || _); [reflexivity|].
  destruct (Nat.leb sz 3) eqn:E5; [reflexivity|]. apply Nat.leb_gt in E5.
  rewrite (byte_at_app_l p q 3) by lia. reflexivity.
Qed.

(** A lone byte followed by a byte that does not continue a sequence
    decodes with width 1. *)
Lemma dec_one_width (c : Ascii.ascii) (q : string) :
  not_cont q -> snd (DecodeRuneInString (String c q)) = 1%nat.
Proof.
  intros Hq. unfold DecodeRuneInString. cbv zeta.
  change (String.length (String c q)) with (S (String.length q)).
  change (byte_at (String c q) 0) with (byte_of c).
  change (Nat.ltb (S (String.length q)) 1) with false. cbv iota.
  destruct (byte_of c <? RuneSelf)%Z; [reflexivity|].
  destruct (first_info (byte_of c)) as [[[sz lo] hi]|] eqn:Ef; [|reflexivity].
  destruct (first_info_bounds _ _ _ _ Ef) as [Hsz [Hlo [Hhi _]]].
  destruct q as [|c1 q].
  - change (String.length "") with 0%nat.
    replace (Nat.ltb 1 sz) with true by (symmetry; apply Nat.ltb_lt; lia). reflexivity.
  - change (byte_at (String c (String c1 q)) 1) with (byte_of c1).
    assert (Hr : ((byte_of c1 <? lo) || (hi <? byte_of c1))%Z = true).
    { simpl in Hq. apply orb_true_iff in Hq as [H|H]; apply orb_true_iff;
        [left; apply Z.ltb_lt in H; apply Z.ltb_lt; lia
        |right; apply Z.ltb_lt in H; apply Z.ltb_lt; lia]. }
    rewrite Hr. destruct (Nat.ltb _ sz); reflexivity.
Qed.

(** A white-space rune starts with a byte that does not continue a
    sequence. *)
Lemma dec_space_first (c : Ascii.ascii) (s : string) :
  IsSpace (fst (DecodeRuneInString (String c s))) = true -> not_cont (String c s).
Proof.
  intros H. unfold not_cont. pose proof (byte_of_range c) as Hb.
  destruct ((byte_of c <? 0x80) || (0xBF <? byte_of c))%Z eqn:E; [reflexivity|].
  exfalso. apply orb_false_iff in E as [E1 E2].
  apply Z.ltb_ge in E1. apply Z.ltb_ge in E2.
  unfold DecodeRuneInString in H. cbv zeta in H.
  change (byte_at (String c s) 0) with (byte_of c) in H.
  change (String.length (String c s)) with (S (String.length s)) in H.
  change (Nat.ltb (S (String.length s)) 1) with false in H. cbv iota in H.
  replace (byte_of c <? RuneSelf)%Z with false in H
    by (symmetry; apply Z.ltb_ge; unfold RuneSelf; lia).
  replace (first_info (byte_of c)) with (@None (nat * Z * Z)) in H
    by (unfold first_info; replace (byte_of c <=? 0xC1)%Z with true
          by (symmetry; apply Z.leb_le; lia); reflexivity).
  discriminate H.
Qed.

Lemma scan_rune_start_le (s : string) (lim : Z) (fuel : nat) :
  forall st, (scan_rune_start s lim st fuel <= st)%Z.
Proof.
  induction fuel as [|fuel IH]; intros st; simpl; [lia|].
  destruct (_ && _); [specialize (IH (st - 1)%Z); lia|lia].
Qed.

(** [DecodeLastRuneInString] reads the last [k] bytes as one rune, or
    fails with width 1. *)
Lemma DecodeLast_spec (s : string) :
  s <> EmptyString ->
  let '(r, k) := DecodeLastRuneInString s in
  (1 <= k <= String.length s)%nat /\
  (DecodeRuneInString (drop (String.length s - k) s) = (r, k) \/ (r, k) = (RuneError, 1%nat)).
Proof.
  intros Hs. pose proof (substring_drop s) as Hsd.
  remember (String.length s) as e eqn:Hel.
  assert (He : (1 <= e)%nat) by (subst e; destruct s; [congruence|simpl; lia]).
  unfold DecodeLastRuneInString. rewrite <- Hel. cbv zeta.
  replace (Z.of_nat e =? 0)%Z with false by (symmetry; apply Z.eqb_neq; lia).
  replace (Z.to_nat (Z.of_nat e - 1)) with (e - 1)%nat by lia.
  destruct (byte_at s (e - 1) <? RuneSelf)%Z eqn:Ha.
  - split; [lia|]. left.
    rewrite byte_at_drop in Ha |- *.
    assert (Hd : String.length (drop (e - 1) s) = 1%nat) by (rewrite drop_length; lia).
    destruct (drop (e - 1) s) as [|c [|c' t]] eqn:Ed; simpl in Hd; try lia.
    exact (dec_ascii c "" Ha).
  - set (st := Z.max 0 (scan_rune_start s (Z.max 0 (Z.of_nat e - Z.of_nat UTFMax))
                                      (Z.of_nat e - 1 - 1) UTFMax)).
    assert (Hst : (0 <= st <= Z.of_nat e - 1)%Z).
    { pose proof (scan_rune_start_le s (Z.max 0 (Z.of_nat e - Z.of_nat UTFMax)) UTFMax
                    (Z.of_nat e - 1 - 1)). subst st. lia. }
    replace (Z.to_nat (Z.of_nat e - st)) with (e - Z.to_nat st)%nat by lia.
    rewrite (Hsd (Z.to_nat st)).
    destruct (DecodeRuneInString (drop (Z.to_nat st) s)) as [r0 size0] eqn:Hd.
    destruct (st + Z.of_nat size0 =? Z.of_nat e)%Z eqn:Hq.
    + apply Z.eqb_eq in Hq. split; [lia|]. left.
      replace (e - size0)%nat with (Z.to_nat st) by lia. exact Hd.
    + split; [lia|]. right. reflexivity.
Qed.

Lemma DecodeLast_ascii (s : string) (k : nat) (c : Ascii.ascii) :
  String.length s = S k -> String.get k s = Some c -> (byte_of c <? RuneSelf)%Z = true ->
  DecodeLastRuneInString s = (byte_of c, 1%nat).
Proof.
  intros Hl Hg Ha. unfold DecodeLastRuneInString. rewrite Hl. cbv zeta.
  replace (Z.of_nat (S k) =? 0)%Z with false by (symmetry; apply Z.eqb_neq; lia).
  replace (Z.to_nat (Z.of_nat (S k) - 1)) with k by lia.
  assert (Hb : byte_at s k = byte_of c) by (unfold byte_at; rewrite Hg; reflexivity).
  rewrite Hb, Ha. reflexivity.
Qed.

Lemma drop_all (s : string) : drop (String.length s) s = EmptyString.
Proof. induction s as [|c s IH]; [reflexivity|exact IH]. Qed.

Lemma take_nonempty (u : string) (j : nat) :
  (0 < j <= String.length u)%nat -> String.substring 0 j u <> EmptyString.
Proof.
  intros Hj E. pose proof (take_length u j ltac:(lia)) as L. rewrite E in L. simpl in L. lia.
Qed.

Lemma indexFunc_loop_spec (s : string) (f : Z -> bool) (fuel : nat) :
  forall i, indexFunc_loop s f false i fuel = (-1)%Z \/
    exists j, indexFunc_loop s f false i fuel = Z.of_nat j /\ (j < String.length s)%nat /\
      f (fst (DecodeRuneInString (drop j s))) = false.
Proof.
  induction fuel as [|fuel IH]; intros i; cbn [indexFunc_loop]; [left; reflexivity|].
  destruct (Nat.ltb i (String.length s)) eqn:Hi; [|left; reflexivity].
  rewrite substring_drop.
  destruct (DecodeRuneInString (drop i s)) as [r w] eqn:Hd.
  destruct (Bool.eqb (f r) false) eqn:Hf.
  - right. exists i. apply Nat.ltb_lt in Hi. rewrite Hd. apply Bool.eqb_prop in Hf. auto.
  - apply IH.
Qed.

(** [TrimLeftFunc] returns the empty string, or a suffix starting with a
    rune [f] rejects. *)
Lemma TrimLeftFunc_spec (s : string) (f : Z -> bool) :
  TrimLeftFunc s f = EmptyString \/
  exists j, TrimLeftFunc s f = drop j s /\ (j < String.length s)%nat /\
    f (fst (DecodeRuneInString (drop j s))) = false.
Proof.
  unfold TrimLeftFunc, indexFunc. cbv zeta.
  destruct (indexFunc_loop_spec s f (String.length s) 0) as [-> | [j [-> [Hj Hf]]]].
  - left. reflexivity.
  - right. replace (Z.of_nat j =? -1)%Z with false by (symmetry; apply Z.eqb_neq; lia).
    rewrite Nat2Z.id, substring_drop. eauto.
Qed.

Lemma lastIndexFunc_loop_spec (u : string) (fuel : nat) :
  forall i, (i <= String.length u)%nat -> not_cont (drop i u) ->
  lastIndexFunc_loop u IsSpace false i fuel = (-1)%Z \/
  exists j r k, lastIndexFunc_loop u IsSpace false i fuel = Z.of_nat (j - k) /\
    (0 < j <= String.length u)%nat /\ not_cont (drop j u) /\
    DecodeLastRuneInString (String.substring 0 j u) = (r, k) /\ IsSpace r = false.
Proof.
  induction fuel as [|fuel IH]; intros i Hi Hn; cbn [lastIndexFunc_loop]; [left; reflexivity|].
  destruct (Nat.ltb 0 i) eqn:H0; [|left; reflexivity]. apply Nat.ltb_lt in H0.
  destruct (DecodeLastRuneInString (String.substring 0 i u)) as [r k] eqn:Hd.
  destruct (Bool.eqb (IsSpace r) false) eqn:Hf.
  - right. exists i, r, k. apply Bool.eqb_prop in Hf.
    repeat split; try lia; assumption.
  - assert (Hsp : IsSpace r = true) by (destruct (IsSpace r); [reflexivity|discriminate Hf]).
    pose proof (DecodeLast_spec _ (take_nonempty u i ltac:(lia))) as HL.
    rewrite Hd, (take_length u i Hi) in HL. destruct HL as [Hk [Hdec|Herr]].
    2: { injection Herr as -> _. discriminate Hsp. }
    apply IH; [lia|].
    rewrite <- (drop_take u (i - k) i) by lia.
    destruct (drop (i - k) (String.substring 0 i u)) as [|c t] eqn:Ed.
    { pose proof (drop_length (String.substring 0 i u) (i - k)) as L.
      rewrite Ed, (take_length u i Hi) in L. simpl in L. lia. }
    pose proof (dec_space_first c t) as Hc. rewrite Hdec in Hc.
    exact (Hc Hsp).
Qed.

Lemma TrimRightFunc_at (u : string) (j k : nat) (r : Z) :
  lastIndexFunc u IsSpace false = Z.of_nat (j - k) ->
  (0 < j <= String.length u)%nat -> not_cont (drop j u) ->
  DecodeLastRuneInString (String.substring 0 j u) = (r, k) ->
  TrimRightFunc u IsSpace = String.substring 0 j u.
Proof.
  intros Hl Hj Hn Hd. unfold TrimRightFunc. rewrite Hl. cbv zeta.
  pose proof (DecodeLast_spec _ (take_nonempty u j Hj)) as HL.
  rewrite Hd, (take_length u j ltac:(lia)) in HL. destruct HL as [Hk Hdec].
  rewrite Nat2Z.id, substring_drop.
  assert (Hsplit := drop_take u (j - k) j ltac:(lia)).
  destruct (drop (j - k) (String.substring 0 j u)) as [|c t] eqn:Ed.
  { pose proof (drop_length (String.substring 0 j u) (j - k)) as L.
    rewrite Ed, (take_length u j ltac:(lia)) in L. simpl in L. lia. }
  assert (Hlt : String.length t = (k - 1)%nat).
  { pose proof (drop_length (String.substring 0 j u) (j - k)) as L.
    rewrite Ed, (take_length u j ltac:(lia)) in L. simpl in L. lia. }
  rewrite <- Hsplit.
  assert (Hb : byte_at u (j - k) = byte_of c).
  { rewrite byte_at_drop, <- Hsplit. reflexivity. }
  rewrite Hb.
  replace (0 <=? Z.of_nat (j - k))%Z with true by (symmetry; apply Z.leb_le; lia).
  rewrite andb_true_l.
  destruct (RuneSelf <=? byte_of c)%Z eqn:Hc.
  - assert (Hw : snd (DecodeRuneInString (String c t +:+ drop j u)) = k).
    { destruct (Nat.eq_dec k 1) as [->|Hk1].
      - destruct t as [|c' t]; [|simpl in Hlt; lia].
        apply dec_one_width. exact Hn.
      - destruct Hdec as [Hdec|Herr]; [|injection Herr as _ ->; lia].
        destruct (dec_app (String c t) (drop j u) ltac:(discriminate)) as [E|E];
          rewrite Hdec in E; [rewrite E; reflexivity|injection E as _ ->; lia]. }
    rewrite Hw. f_equal. lia.
  - assert (k = 1%nat) as ->.
    { destruct Hdec as [Hdec|Herr]; [|injection Herr as _ ->; reflexivity].
      rewrite dec_ascii in Hdec by (apply Z.ltb_lt; apply Z.leb_gt in Hc; lia).
      injection Hdec as _ ->. reflexivity. }
    f_equal. lia.
Qed.

(** [TrimRightFunc] returns the empty string, or a non-empty prefix ending
    with a rune that is not white space. *)
Lemma TrimRightFunc_spec (u : string) :
  TrimRightFunc u IsSpace = EmptyString \/
  exists j, TrimRightFunc u IsSpace = String.substring 0 j u /\
    (0 < j <= String.length u)%nat /\
    IsSpace (fst (DecodeLastRuneInString (String.substring 0 j u))) = false.
Proof.
  assert (Hn : not_cont (drop (String.length u) u)) by (rewrite drop_all; exact I).
  destruct (lastIndexFunc_loop_spec u (String.length u) (String.length u) (le_n _) Hn)
    as [H|[j [r [k [H [Hj [Hn' [Hd Hr]]]]]]]].
  - left. unfold TrimRightFunc.
    change (lastIndexFunc u IsSpace false)
      with (lastIndexFunc_loop u IsSpace false (String.length u) (String.length u)).
    rewrite H. apply take_0.
  - right. exists j. split; [exact (TrimRightFunc_at u j k r H Hj Hn' Hd)|].
    rewrite Hd. auto.
Qed.

(** A string that neither starts nor ends with a white-space rune. *)
Definition trimmed (t : string) : Prop :=
  t = EmptyString \/
  (IsSpace (fst (DecodeRuneInString t)) = false /\
   IsSpace (fst (DecodeLastRuneInString t)) = false).

Lemma dec_prefix_not_space (v : string) (j : nat) :
  (0 < j <= String.length v)%nat -> IsSpace (fst (DecodeRuneInString v)) = false ->
  IsSpace (fst (DecodeRuneInString (String.substring 0 j v))) = false.
Proof.
  intros Hj Hv.
  destruct (dec_app (String.substring 0 j v) (drop j v) (take_nonempty v j Hj)) as [E|E];
    rewrite ?take_app_drop in E.
  - rewrite <- E. exact Hv.
  - rewrite E. reflexivity.
Qed.

Lemma TrimFunc_trimmed (u : string) : trimmed (TrimFunc u IsSpace).
Proof.
  unfold TrimFunc.
  destruct (TrimLeftFunc_spec u IsSpace) as [E|[i [E [Hi Hf]]]]; rewrite E.
  - destruct (TrimRightFunc_spec EmptyString) as [E'|[j [_ [Hj _]]]];
      [left; exact E'|simpl in Hj; lia].
  - destruct (TrimRightFunc_spec (drop i u)) as [E'|[j [E' [Hj Hl]]]]; [left; exact E'|].
    right. rewrite E'. split; [|exact Hl].
    apply dec_prefix_not_space; assumption.
Qed.

Definition ascii_start (t : string) : Prop :=
  t = EmptyString \/
  exists c t', t = String c t' /\ (byte_of c <? RuneSelf)%Z = true /\ is_space c = false.

Lemma TrimSpace_start_spec (s : string) :
  (exists u, TrimSpace_start s = inl (TrimFunc u IsSpace)) \/
  exists t, TrimSpace_start s = inr t /\ ascii_start t.
Proof.
  induction s as [|c s IH]; cbn [TrimSpace_start].
  - right. exists EmptyString. split; [reflexivity|left; reflexivity].
  - destruct (RuneSelf <=? byte_of c)%Z eqn:Hc; [left; eauto|].
    destruct (is_space c) eqn:Hs; [exact IH|].
    right. exists (String c s). split; [reflexivity|]. right. exists c, s.
    split; [reflexivity|]. split; [apply Z.ltb_lt; apply Z.leb_gt in Hc; lia|exact Hs].
Qed.

Lemma ascii_start_prefix (t : string) (j : nat) :
  ascii_start t -> (0 < j <= String.length t)%nat ->
  IsSpace (fst (DecodeRuneInString (String.substring 0 j t))) = false.
Proof.
  intros [->|[c [t' [-> [Ha Hs]]]]] Hj; [simpl in Hj; lia|].
  destruct j as [|j]; [lia|]. cbn [String.substring].
  rewrite (dec_ascii c _ Ha). cbn [fst]. rewrite (IsSpace_ascii c Ha). exact Hs.
Qed.

Lemma TrimSpace_stop_trimmed (t : string) (stop : nat) :
  ascii_start t -> (stop <= String.length t)%nat -> trimmed (TrimSpace_stop t stop).
Proof.
  intros Ht. induction stop as [|k IH]; intros Hk; cbn [TrimSpace_stop]; [left; reflexivity|].
  destruct (get_last (String.substring 0 (S k) t) k (take_length t (S k) Hk)) as [c' Hg'].
  assert (Hg : String.get k t = Some c') by (rewrite <- (get_take t k (S k)) by lia; exact Hg').
  rewrite Hg.
  destruct (RuneSelf <=? byte_of c')%Z eqn:Hc'.
  - destruct (TrimRightFunc_spec (String.substring 0 (S k) t)) as [E|[j [E [Hj Hl]]]];
      rewrite E; [left; reflexivity|].
    rewrite (take_length t (S k) Hk) in Hj. rewrite (take_take t j (S k)) in Hl |- * by lia.
    right. split; [apply ascii_start_prefix; [exact Ht|lia]|exact Hl].
  - destruct (is_space c') eqn:Hs'; [apply IH; lia|].
    assert (Ha' : (byte_of c' <? RuneSelf)%Z = true)
      by (apply Z.ltb_lt; apply Z.leb_gt in Hc'; lia).
    right. split; [apply ascii_start_prefix; [exact Ht|lia]|].
    rewrite (DecodeLast_ascii _ k c' (take_length t (S k) Hk) Hg' Ha'). cbn [fst].
    rewrite (IsSpace_ascii c' Ha'). exact Hs'.
Qed.

Lemma TrimSpace_trimmed (s : string) : trimmed (TrimSpace s).
Proof.
  unfold TrimSpace.
  destruct (TrimSpace_start_spec s) as [[u ->]|[t [-> Ht]]].
  - apply TrimFunc_trimmed.
  - apply TrimSpace_stop_trimmed; [exact Ht|lia].
Qed.

Lemma TrimLeftFunc_id (u : string) :
  u <> EmptyString -> IsSpace (fst (DecodeRuneInString u)) = false ->
  TrimLeftFunc u IsSpace = u.
Proof.
  intros Hu Hf. unfold TrimLeftFunc, indexFunc. cbv zeta.
  replace (indexFunc_loop u IsSpace false 0 (String.length u)) with 0%Z.
  - change ((0 =? -1)%Z) with false. change (Z.to_nat 0) with 0%nat. cbv iota.
    rewrite (substring_drop u 0). reflexivity.
  - destruct (String.length u) as [|n] eqn:El; [destruct u; [congruence|discriminate]|].
    cbn [indexFunc_loop]. rewrite El. change (Nat.ltb 0 (S n)) with true. cbv iota.
    rewrite <- El, (substring_drop u 0). change (drop 0 u) with u.
    destruct (DecodeRuneInString u) as [r w]. cbn [fst] in Hf. rewrite Hf. reflexivity.
Qed.

Lemma TrimRightFunc_id (u : string) :
  u <> EmptyString -> IsSpace (fst (DecodeLastRuneInString u)) = false ->
  TrimRightFunc u IsSpace = u.
Proof.
  intros Hu Hf.
  assert (Hl : (0 < String.length u)%nat) by (destruct u; [congruence|simpl; lia]).
  destruct (DecodeLastRuneInString u) as [r k] eqn:Hd. cbn [fst] in Hf.
  assert (Hd' : DecodeLastRuneInString (String.substring 0 (String.length u) u) = (r, k))
    by (rewrite substring_0_length; exact Hd).
  assert (Hi : lastIndexFunc u IsSpace false = Z.of_nat (String.length u - k)).
  { unfold lastIndexFunc. destruct (String.length u) as [|n] eqn:El; [lia|].
    cbn [lastIndexFunc_loop]. change (Nat.ltb 0 (S n)) with true. cbv iota.
    rewrite Hd'. cbv iota. rewrite Hf. reflexivity. }
  rewrite (TrimRightFunc_at u (String.length u) k r Hi ltac:(lia)
             ltac:(rewrite drop_all; exact I) Hd').
  apply substring_0_length.
Qed.

Lemma TrimSpace_id (t : string) : trimmed t -> TrimSpace t = t.
Proof.
  intros [->|[Hf Hl]]; [reflexivity|].
  destruct t as [|c t']; [reflexivity|]. unfold TrimSpace. cbn [TrimSpace_start].
  destruct (RuneSelf <=? byte_of c)%Z eqn:Hc.
  - unfold TrimFunc. rewrite TrimLeftFunc_id by (discriminate || exact Hf).
    apply TrimRightFunc_id; [discriminate|exact Hl].
  - assert (Ha : (byte_of c <? RuneSelf)%Z = true)
      by (apply Z.ltb_lt; apply Z.leb_gt in Hc; lia).
    rewrite (dec_ascii c t' Ha) in Hf. cbn [fst] in Hf.
    rewrite (IsSpace_ascii c Ha) in Hf. rewrite Hf.
    destruct (get_last (String c t') (String.length t') eq_refl) as [c' Hg].
    change (String.length (String c t')) with (S (String.length t')).
    cbn [TrimSpace_stop]. rewrite Hg.
    change (S (String.length t')) with (String.length (String c t')).
    destruct (RuneSelf <=? byte_of c')%Z eqn:Hc'.
    + rewrite substring_0_length. apply TrimRightFunc_id; [discriminate|exact Hl].
    + assert (Ha' : (byte_of c' <? RuneSelf)%Z = true)
        by (apply Z.ltb_lt; apply Z.leb_gt in Hc'; lia).
      rewrite (DecodeLast_ascii (String c t') (String.length t') c' eq_refl Hg Ha') in Hl.
      cbn [fst] in Hl. rewrite (IsSpace_ascii c' Ha') in Hl. rewrite Hl.
      apply substring_0_length.
Qed.

(** [strings.TrimSpace] returns a string that neither starts nor ends with
    a white-space rune, [unicode.IsSpace] deciding on the runes UTF-8
    decoding gives, and it leaves such a string unchanged: it is
    idempotent, so every input [ParseToolCalls] returns is already
    trimmed. *)
Theorem TrimSpace_idempotent (s response : string) :
  trimmed (TrimSpace s) /\
  TrimSpace (TrimSpace s) = TrimSpace s /\
  (forall c, In c (ParseToolCalls response) -> TrimSpace (tc_input c) = tc_input c).
Proof.
  assert (Hid : forall s, TrimSpace (TrimSpace s) = TrimSpace s)
    by (intros s0; apply TrimSpace_id, TrimSpace_trimmed).
  split; [apply TrimSpace_trimmed|]. split; [apply Hid|].
  intros c Hin. unfold ParseToolCalls in Hin. apply in_map_iff in Hin as [[n i] [<- _]].
  apply Hid.
Qed.
